(** * URLBarModifier: the page-controls panel of [urlbar.uc.js]

    A shallow embedding of the [PanelManager] class: the extension list
    reconciler as pure functions over the children of [#extension-container],
    the panel lifecycle and the action handlers as programs of a small
    state-and-exception monad over the manager's fields, the window's
    listener registry and the host services the script calls. *)

From Stdlib Require Import String DecimalString List Bool Arith Lia.
Import ListNotations.
Local Open Scope string_scope.

Set Implicit Arguments.

(* ================================================================== *)
(** ** Constants ([CONFIG]) *)
(* ================================================================== *)

Module CONFIG.
Definition PANEL_ID := "page-controls-panel".
Definition BUTTON_ID := "page-controls-button".
Definition EXTENSIONS_URL :=
  "https://addons.mozilla.org/en-US/firefox/extensions/".
Definition FALLBACK_ICON := "chrome://mozapps/skin/extensions/extension.svg".
Definition ICON_SIZE := "16px".
Definition ICON_MARGIN := "2px".
End CONFIG.

(* ================================================================== *)
(** ** Values of the host and of the DOM *)
(* ================================================================== *)

(** JavaScript truthiness of a string: only the empty string is falsy. *)
Definition truthy (s : string) : bool :=
  match s with
  | EmptyString => false
  | String _ _ => true
  end.

(** [Boolean.prototype.toString]. *)
Definition toString (b : bool) : string := if b then "true" else "false".

(** Which uninstall entry point an add-on object offers
    ([typeof addon.uninstall], [typeof addon.remove]). *)
Inductive RemovalApi := HasUninstall | HasRemove | NoRemovalApi.

(** An add-on as the script reads it.  [iconURL] is [None] when the host
    gives [null], [undefined] or a value that is not a string. *)
Record Addon := mkAddon {
  id : string;
  name : string;
  iconURL : option string;
  isActive : bool;
  isSystem : bool;
  optionsUrl : option string;
  removalApi : RemovalApi
}.

(** The outcome of a host lookup by extension id, as the script tests it:
    a falsy value, a truthy one, or an exception. *)
Inductive Lookup := Missing | Found | Throws.

(** The [image.extension-icon] child of a rendered entry, by its attributes. *)
Record Image := mkImage {
  src : string;
  tooltiptext : string;
  enabled : string;
  style : string
}.

(** A child of [#extension-container]: a rendered extension entry, the
    [div.extension-wrapper] carrying [data-extension-id], or the
    [#add-extension-button] image of the panel markup. *)
Inductive Node :=
| Wrapper (extension_id : string) (icon : Image)
| AddExtensionButton.

Definition Container := list Node.

(** The children of [#extension-container] in [generatePanelXUL]. *)
Definition initial_container : Container := [AddExtensionButton].

(** The value stored per id in [this.extensionData]. *)
Record ExtensionInfo := mkInfo {
  info_id : string;
  info_name : string;
  info_iconURL : option string
}.

(** [this.extensionData], a JS [Map]: insertion-ordered, one entry per key. *)
Definition ExtensionData := list (string * ExtensionInfo).

Fixpoint map_set (k : string) (v : ExtensionInfo) (m : ExtensionData)
  : ExtensionData :=
  match m with
  | [] => [(k, v)]
  | (k', v') :: rest =>
      if String.eqb k' k then (k, v) :: rest else (k', v') :: map_set k v rest
  end.

(* ================================================================== *)
(** ** Extension list reconciler *)
(* ================================================================== *)

Section Reconciler.

(** [WebExtensionPolicy.getByID(id)], and
    [gUnifiedExtensions.browserActionFor(policy)] for the policy of [id]. *)
Variable getByID : string -> Lookup.
Variable browserActionFor : string -> Lookup.

(** [getExtensionIconSrc]. *)
Definition getExtensionIconSrc (addon : Addon) : string :=
  match iconURL addon with
  | Some u => if truthy u then u else CONFIG.FALLBACK_ICON
  | None => CONFIG.FALLBACK_ICON
  end.

(** [getExtensionTooltip]: the lookup sits in a try block whose catch falls
    through to the enable/disable wording. *)
Definition getExtensionTooltip (addon : Addon) : string :=
  let extensionName := if truthy (name addon) then name addon else "Extension" in
  let fallthrough :=
    if isActive addon then "Disable " ++ extensionName
    else "Enable " ++ extensionName in
  if isActive addon then
    match getByID (id addon) with
    | Found =>
        match browserActionFor (id addon) with
        | Found => "Open " ++ extensionName
        | Missing | Throws => fallthrough
        end
    | Missing | Throws => fallthrough
    end
  else fallthrough.

(** [createExtensionImage]. *)
Definition createExtensionImage (addon : Addon) : Image :=
  {| src := getExtensionIconSrc addon;
     tooltiptext := getExtensionTooltip addon;
     enabled := toString (isActive addon);
     style := "width: " ++ CONFIG.ICON_SIZE ++ "; height: " ++ CONFIG.ICON_SIZE
              ++ "; margin: " ++ CONFIG.ICON_MARGIN ++ ";" |}.

(** [createExtensionWrapper] with its image appended. *)
Definition createExtensionWrapper (addon : Addon) : Node :=
  Wrapper (id addon) (createExtensionImage addon).

(** [data-extension-id] of a child, when it has the attribute. *)
Definition data_extension_id (n : Node) : option string :=
  match n with
  | Wrapper i _ => Some i
  | AddExtensionButton => None
  end.

(** [container.querySelectorAll("[data-extension-id]")], by attribute
    value, in document order. *)
Fixpoint rendered_ids (c : Container) : list string :=
  match c with
  | [] => []
  | Wrapper i _ :: rest => i :: rendered_ids rest
  | AddExtensionButton :: rest => rendered_ids rest
  end.

(** Whether [container.querySelector('[data-extension-id="i"]')] finds an
    element.  The attribute selector compares by value. *)
Definition querySelector_found (c : Container) (i : string) : bool :=
  existsb (String.eqb i) (rendered_ids c).

(** Apply [f] to the image of the first entry whose id is [i]: the element
    [querySelector] returns is the first match in document order. *)
Fixpoint update_first (i : string) (f : Image -> Image) (c : Container)
  : Container :=
  match c with
  | [] => []
  | Wrapper j img :: rest =>
      if String.eqb i j then Wrapper j (f img) :: rest
      else Wrapper j img :: update_first i f rest
  | AddExtensionButton :: rest => AddExtensionButton :: update_first i f rest
  end.

(** The writes of [updateExistingExtension] on the entry's image: [enabled]
    and [tooltiptext] always, [src] only when it differs. *)
Definition refresh_image (addon : Addon) (img : Image) : Image :=
  let iconSrc := getExtensionIconSrc addon in
  {| src := if String.eqb (src img) iconSrc then src img else iconSrc;
     tooltiptext := getExtensionTooltip addon;
     enabled := toString (isActive addon);
     style := style img |}.

(** [updateExistingExtension] on the wrapper found for [addon.id]. *)
Definition updateExistingExtension (c : Container) (addon : Addon) : Container :=
  update_first (id addon) (refresh_image addon) c.

(** [addNewExtension]: [container.insertBefore(wrapper, container.firstChild)]. *)
Definition addNewExtension (c : Container) (addon : Addon) : Container :=
  createExtensionWrapper addon :: c.

(** [getExistingExtensionIds]: the ids that are truthy. *)
Definition getExistingExtensionIds (c : Container) : list string :=
  filter truthy (rendered_ids c).

(** [removeUninstalledExtensions]: an entry goes when its id is truthy and
    not among the current ids. *)
Definition removeUninstalledExtensions (c : Container) (userExtensions : list Addon)
  : Container :=
  let currentExtensionIds := map id userExtensions in
  filter (fun el =>
            match data_extension_id el with
            | Some i => negb (truthy i && negb (existsb (String.eqb i) currentExtensionIds))
            | None => true
            end) c.

(** One turn of the loop of [processExtensions]. *)
Definition process_addon (st : Container * ExtensionData) (addon : Addon)
  : Container * ExtensionData :=
  let (c, data) := st in
  let extensionId := id addon in
  let c' := if querySelector_found c extensionId
            then updateExistingExtension c addon
            else addNewExtension c addon in
  (c', map_set extensionId
               {| info_id := id addon; info_name := name addon;
                  info_iconURL := iconURL addon |} data).

(** [processExtensions]: a fresh [extensionData], the loop over the current
    extensions, then the removal of the uninstalled ones. *)
Definition processExtensions (c : Container) (userExtensions : list Addon)
  : Container * ExtensionData :=
  let (c', data) := fold_left process_addon userExtensions (c, []) in
  (removeUninstalledExtensions c' userExtensions, data).

(** The filter of [loadExtensions]: [addons.filter(a => !a?.isSystem)]. *)
Definition userExtensions_of (addons : list Addon) : list Addon :=
  filter (fun a => negb (isSystem a)) addons.

(** The container after the reconciliation pass of [loadExtensions]. *)
Definition reconcile (c : Container) (addons : list Addon) : Container :=
  fst (processExtensions c (userExtensions_of addons)).

End Reconciler.

(** The add-ons of a list all have an id: [AddonManager.getAddonsByTypes]
    resolves to add-ons the host has installed, and the host installs none
    without a non-empty id. *)
Definition have_ids (addons : list Addon) : Prop :=
  forall a, In a addons -> id a <> "".

(** Containers the script can have rendered: the panel markup, then any
    number of reconciliation passes, each with the host's answers and the
    host's add-on list of its time. *)
Inductive rendered : Container -> Prop :=
| rendered_initial : rendered initial_container
| rendered_pass getByID browserActionFor c addons :
    rendered c -> have_ids addons ->
    rendered (reconcile getByID browserActionFor c addons).

(* ================================================================== *)
(** ** The manager's state, the window and the host *)
(* ================================================================== *)

(** A DOM element the manager keeps a reference to, by its element id. *)
Definition Elem := string.

(** The identity of a listener object: each closure the script creates is a
    new object, numbered from the world's counter. *)
Definition Handle := nat.

(** The fields the [PanelManager] constructor initialises.  [button] and
    [screenshotCommandId] are never written again and are left out. *)
Record PanelManager := mkPanelManager {
  panel : option Elem;
  isOpen : bool;
  extensionData : ExtensionData;
  addonListener : option Handle;
  extrasMenuListenersSetup : bool;
  extensionMenuListenersSetup : bool;
  currentContextMenu : option Elem;
  currentContextMenuExtensionId : option string;
  boundOnGlobalPointerDown : option Handle;
  boundOnGlobalKeyDown : option Handle;
  lastAnchorButton : option Elem
}.

Definition set_panel v (m : PanelManager) :=
  mkPanelManager v (isOpen m) (extensionData m) (addonListener m)
    (extrasMenuListenersSetup m) (extensionMenuListenersSetup m) (currentContextMenu m)
    (currentContextMenuExtensionId m) (boundOnGlobalPointerDown m)
    (boundOnGlobalKeyDown m) (lastAnchorButton m).
Definition set_isOpen v (m : PanelManager) :=
  mkPanelManager (panel m) v (extensionData m) (addonListener m)
    (extrasMenuListenersSetup m) (extensionMenuListenersSetup m) (currentContextMenu m)
    (currentContextMenuExtensionId m) (boundOnGlobalPointerDown m)
    (boundOnGlobalKeyDown m) (lastAnchorButton m).
Definition set_extensionData v (m : PanelManager) :=
  mkPanelManager (panel m) (isOpen m) v (addonListener m)
    (extrasMenuListenersSetup m) (extensionMenuListenersSetup m) (currentContextMenu m)
    (currentContextMenuExtensionId m) (boundOnGlobalPointerDown m)
    (boundOnGlobalKeyDown m) (lastAnchorButton m).
Definition set_addonListener v (m : PanelManager) :=
  mkPanelManager (panel m) (isOpen m) (extensionData m) v
    (extrasMenuListenersSetup m) (extensionMenuListenersSetup m) (currentContextMenu m)
    (currentContextMenuExtensionId m) (boundOnGlobalPointerDown m)
    (boundOnGlobalKeyDown m) (lastAnchorButton m).
Definition set_extrasMenuListenersSetup v (m : PanelManager) :=
  mkPanelManager (panel m) (isOpen m) (extensionData m) (addonListener m)
    v (extensionMenuListenersSetup m) (currentContextMenu m)
    (currentContextMenuExtensionId m) (boundOnGlobalPointerDown m)
    (boundOnGlobalKeyDown m) (lastAnchorButton m).
Definition set_extensionMenuListenersSetup v (m : PanelManager) :=
  mkPanelManager (panel m) (isOpen m) (extensionData m) (addonListener m)
    (extrasMenuListenersSetup m) v (currentContextMenu m)
    (currentContextMenuExtensionId m) (boundOnGlobalPointerDown m)
    (boundOnGlobalKeyDown m) (lastAnchorButton m).
Definition set_currentContextMenu v (m : PanelManager) :=
  mkPanelManager (panel m) (isOpen m) (extensionData m) (addonListener m)
    (extrasMenuListenersSetup m) (extensionMenuListenersSetup m) v
    (currentContextMenuExtensionId m) (boundOnGlobalPointerDown m)
    (boundOnGlobalKeyDown m) (lastAnchorButton m).
Definition set_currentContextMenuExtensionId v (m : PanelManager) :=
  mkPanelManager (panel m) (isOpen m) (extensionData m) (addonListener m)
    (extrasMenuListenersSetup m) (extensionMenuListenersSetup m) (currentContextMenu m)
    v (boundOnGlobalPointerDown m)
    (boundOnGlobalKeyDown m) (lastAnchorButton m).
Definition set_boundOnGlobalPointerDown v (m : PanelManager) :=
  mkPanelManager (panel m) (isOpen m) (extensionData m) (addonListener m)
    (extrasMenuListenersSetup m) (extensionMenuListenersSetup m) (currentContextMenu m)
    (currentContextMenuExtensionId m) v
    (boundOnGlobalKeyDown m) (lastAnchorButton m).
Definition set_boundOnGlobalKeyDown v (m : PanelManager) :=
  mkPanelManager (panel m) (isOpen m) (extensionData m) (addonListener m)
    (extrasMenuListenersSetup m) (extensionMenuListenersSetup m) (currentContextMenu m)
    (currentContextMenuExtensionId m) (boundOnGlobalPointerDown m)
    v (lastAnchorButton m).
Definition set_lastAnchorButton v (m : PanelManager) :=
  mkPanelManager (panel m) (isOpen m) (extensionData m) (addonListener m)
    (extrasMenuListenersSetup m) (extensionMenuListenersSetup m) (currentContextMenu m)
    (currentContextMenuExtensionId m) (boundOnGlobalPointerDown m)
    (boundOnGlobalKeyDown m) v.

(** The state fields of a new [PanelManager]. *)
Definition new_PanelManager : PanelManager :=
  {| panel := None; isOpen := false; extensionData := [];
     addonListener := None; extrasMenuListenersSetup := false;
     extensionMenuListenersSetup := false; currentContextMenu := None;
     currentContextMenuExtensionId := None; boundOnGlobalPointerDown := None;
     boundOnGlobalKeyDown := None; lastAnchorButton := None |}.

(** [#identity-permission-box], by the two attributes the script tests. *)
Record IdentityBox := mkIdentityBox {
  hasSharingIcon : bool;
  hasPermissions : bool
}.

(** What the script reads and writes inside [#page-controls-panel]: the
    children of [#extension-container] and the [src] attribute of
    [#page-secutity-status-image] ([None] while the attribute is unset). *)
Record PanelDom := mkPanelDom {
  extension_container : Container;
  security_image_src : option string
}.

(** The panel as [generatePanelXUL] writes it. *)
Definition initial_panel : PanelDom :=
  {| extension_container := initial_container; security_image_src := None |}.

(** The part of the chrome document the script queries. *)
Record Document := mkDocument {
  mainPopupSet : bool;                       (* #mainPopupSet exists *)
  panelDom : option PanelDom;                (* #page-controls-panel *)
  extrasContextMenu : bool;                  (* #extras-context-menu exists *)
  extensionContextMenu : bool;               (* #extension-context-menu exists *)
  identityPermissionBox : option IdentityBox
}.

Definition set_panelDom v (d : Document) :=
  mkDocument (mainPopupSet d) v (extrasContextMenu d) (extensionContextMenu d)
    (identityPermissionBox d).
Definition set_extrasContextMenu v (d : Document) :=
  mkDocument (mainPopupSet d) (panelDom d) v (extensionContextMenu d)
    (identityPermissionBox d).
Definition set_extensionContextMenu v (d : Document) :=
  mkDocument (mainPopupSet d) (panelDom d) (extrasContextMenu d) v
    (identityPermissionBox d).

(** Event types the script listens to on [window]. *)
Inductive EventType := PointerDown | KeyDown | Unload | DOMContentLoaded.

Definition EventType_eqb (a b : EventType) : bool :=
  match a, b with
  | PointerDown, PointerDown | KeyDown, KeyDown
  | Unload, Unload | DOMContentLoaded, DOMContentLoaded => true
  | _, _ => false
  end.

(** An entry of the window's listener list: type, callback, capture flag. *)
Record Listener := mkListener {
  l_type : EventType;
  l_callback : Handle;
  l_capture : bool
}.

Definition Listener_eqb (a b : Listener) : bool :=
  EventType_eqb (l_type a) (l_type b)
  && Nat.eqb (l_callback a) (l_callback b)
  && Bool.eqb (l_capture a) (l_capture b).

(** [gBrowser.currentURI], by the properties the script reads. *)
Record Uri := mkUri {
  scheme : string;
  host : string;
  spec : string
}.

(** A cookie, by the properties the script reads. *)
Record Cookie := mkCookie {
  cookie_host : string;
  cookie_name : string
}.

(** The calls the script makes on the host, each recorded when made. *)
Inductive HostCall :=
| GetCurrentURI
| LoadURI (url : string)
| AddAddonListener
| RemoveAddonListener
| GetAddonByID (i : string)
| GetAddonsByTypes
| ActionOpenPopup (i : string)
| AddonEnable (i : string)
| AddonDisable (i : string)
| AddonUninstall (i : string)
| AddonRemove (i : string)
| PromptConfirm (addonName : string)
| GetSystemPrincipal
| AddTab (url : string)
| SelectTab (url : string)
| NotifyPurgeSessionHistory
| CacheClear
| Reload
| ImportCookieManager
| PrimaryGetCookies (h : string)
| PrimaryRemove (c : Cookie)
| FallbackGetCookies (h : string)
| RemoveAllFromHost (h : string)
| FallbackRemove (c : Cookie)
| TogglePinned (i : string)
| TogglePinnedFor (i : string)
| SetPinned (i : string) (pinned : bool)
| PanelOpenPopup (anchor : Elem)
| PanelHidePopup
| ExtrasMenuOpenPopup
| ExtensionMenuOpenPopup
| ExtensionMenuHidePopup.

(** What a run leaves behind, oldest first: host calls and console lines. *)
Inductive Effect :=
| Called (c : HostCall)
| Logged (message : string)
| LoggedError (message : string).

(** The pin entry point [pinExtensionToToolbar] finds. *)
Inductive PinApi :=
| NoUnifiedExtensions      (* gUnifiedExtensions undefined or falsy *)
| HasTogglePinned
| HasTogglePinnedFor
| ViaAction (hasSetPinned : bool) (pinned : bool).

(** The host as the script meets it during one handler: which calls throw,
    and what the queries answer. *)
Record Host := mkHost {
  throws : HostCall -> bool;
  getByID : string -> Lookup;            (* WebExtensionPolicy.getByID *)
  browserActionFor : string -> Lookup;   (* gUnifiedExtensions.browserActionFor *)
  currentURI : option Uri;               (* None for a null currentURI *)
  confirmAnswer : bool;                  (* Services.prompt.confirm *)
  hasLoadURI : bool;                     (* UC_API.Utils.loadURI is there *)
  pinApi : PinApi;
  hasCache2 : bool;                      (* Services.cache2 is truthy *)
  primaryCookies : list Cookie;          (* CookieManager.getCookiesFromHost *)
  fallbackCookies : list Cookie;         (* Services.cookies.getCookiesFromHost *)
  hasRemoveAllFromHost : bool
}.

(** Everything a handler can read or change. *)
Record World := mkWorld {
  pm : PanelManager;
  doc : Document;
  listeners : list Listener;       (* the window's event listeners *)
  addons : list Addon;             (* the add-ons AddonManager knows *)
  addonListeners : list Handle;    (* AddonManager's listeners *)
  nextHandle : Handle;
  pendingLoads : nat;              (* loadExtensions calls awaiting the add-on list *)
  trace : list Effect
}.

Definition set_pm v (w : World) :=
  mkWorld v (doc w) (listeners w) (addons w) (addonListeners w) (nextHandle w)
    (pendingLoads w) (trace w).
Definition set_doc v (w : World) :=
  mkWorld (pm w) v (listeners w) (addons w) (addonListeners w) (nextHandle w)
    (pendingLoads w) (trace w).
Definition set_listeners v (w : World) :=
  mkWorld (pm w) (doc w) v (addons w) (addonListeners w) (nextHandle w)
    (pendingLoads w) (trace w).
Definition set_addons v (w : World) :=
  mkWorld (pm w) (doc w) (listeners w) v (addonListeners w) (nextHandle w)
    (pendingLoads w) (trace w).
Definition set_addonListeners v (w : World) :=
  mkWorld (pm w) (doc w) (listeners w) (addons w) v (nextHandle w)
    (pendingLoads w) (trace w).
Definition set_nextHandle v (w : World) :=
  mkWorld (pm w) (doc w) (listeners w) (addons w) (addonListeners w) v
    (pendingLoads w) (trace w).
Definition set_pendingLoads v (w : World) :=
  mkWorld (pm w) (doc w) (listeners w) (addons w) (addonListeners w) (nextHandle w)
    v (trace w).
Definition set_trace v (w : World) :=
  mkWorld (pm w) (doc w) (listeners w) (addons w) (addonListeners w) (nextHandle w)
    (pendingLoads w) v.

(* ================================================================== *)
(** ** A state-and-exception monad for the methods *)
(* ================================================================== *)

(** A statement either completes with a value or throws; the world it leaves
    is kept either way, as the writes before a JavaScript throw are. *)
Inductive Res (A : Type) :=
| Ok (a : A)
| Thrown.
Arguments Ok {A} a.
Arguments Thrown {A}.

Definition M (A : Type) := World -> Res A * World.

Definition ret {A} (a : A) : M A := fun w => (Ok a, w).

Definition bind {A B} (m : M A) (k : A -> M B) : M B :=
  fun w => match m w with
           | (Ok a, w') => k a w'
           | (Thrown, w') => (Thrown, w')
           end.

Definition throw {A} : M A := fun w => (Thrown, w).

(** [try { body } catch (e) { handler }]. *)
Definition try_catch (body handler : M unit) : M unit :=
  fun w => match body w with
           | (Ok a, w') => (Ok a, w')
           | (Thrown, w') => handler w'
           end.

Definition get : M World := fun w => (Ok w, w).
Definition modify (f : World -> World) : M unit := fun w => (Ok tt, f w).
Definition modify_pm (f : PanelManager -> PanelManager) : M unit :=
  modify (fun w => set_pm (f (pm w)) w).
Definition modify_doc (f : Document -> Document) : M unit :=
  modify (fun w => set_doc (f (doc w)) w).

(** The world a program leaves, whatever its outcome. *)
Definition exec {A} (m : M A) (w : World) : World := snd (m w).

Declare Scope js_scope.
Delimit Scope js_scope with js.
Notation "x <- m ;; k" := (bind m (fun x => k))
  (at level 61, m at next level, right associativity) : js_scope.
Notation "m ;; k" := (bind m (fun _ => k))
  (at level 61, right associativity) : js_scope.
Local Open Scope js_scope.

Definition record (e : Effect) : M unit :=
  modify (fun w => set_trace (trace w ++ [e]) w).

(** [log] and [logError]. *)
Definition log (message : string) : M unit := record (Logged message).
Definition logError (message : string) : M unit := record (LoggedError message).

(** [for (const x of xs) body(x)]. *)
Fixpoint forEach {A} (body : A -> M unit) (xs : list A) : M unit :=
  match xs with
  | [] => ret tt
  | x :: rest => body x ;; forEach body rest
  end.

(** A new listener object. *)
Definition fresh : M Handle :=
  fun w => (Ok (nextHandle w), set_nextHandle (S (nextHandle w)) w).

(** [window.addEventListener]: an entry with the same type, callback and
    capture flag is not added twice. *)
Definition addEventListener (t : EventType) (h : Handle) (capture : bool) : M unit :=
  modify (fun w =>
    let l := mkListener t h capture in
    if existsb (Listener_eqb l) (listeners w) then w
    else set_listeners (listeners w ++ [l]) w).

(** [window.removeEventListener]. *)
Definition removeEventListener (t : EventType) (h : Handle) (capture : bool) : M unit :=
  modify (fun w =>
    set_listeners
      (filter (fun l => negb (Listener_eqb (mkListener t h capture) l)) (listeners w)) w).

Definition string_of_nat (n : nat) : string :=
  NilZero.string_of_uint (Nat.to_uint n).

Definition isSome {A} (o : option A) : bool :=
  match o with Some _ => true | None => false end.

(** [{ ...addon, isActive: v }]. *)
Definition with_isActive (v : bool) (a : Addon) : Addon :=
  mkAddon (id a) (name a) (iconURL a) v (isSystem a) (optionsUrl a) (removalApi a).

Definition set_enabled (v : string) (img : Image) : Image :=
  mkImage (src img) (tooltiptext img) v (style img).
Definition set_tooltiptext (v : string) (img : Image) : Image :=
  mkImage (src img) v (enabled img) (style img).

(** The image of the first rendered entry with id [i]. *)
Fixpoint find_image (i : string) (c : Container) : option Image :=
  match c with
  | [] => None
  | Wrapper j img :: rest => if String.eqb i j then Some img else find_image i rest
  | AddExtensionButton :: rest => find_image i rest
  end.

(* ================================================================== *)
(** ** The methods of [PanelManager] *)
(* ================================================================== *)

Section Manager.

Variable env : Host.

(** A call on a XUL popup or a listener registration: recorded, and taken
    to complete. *)
Definition emit (c : HostCall) : M unit := record (Called c).

(** A call on a host service: recorded, and it throws when the host says so. *)
Definition call (c : HostCall) : M unit :=
  record (Called c) ;; if throws env c then throw else ret tt.

(** [try { m; ... } catch { ... }] around one call, as a flag: did it complete? *)
Definition attempt (m : M unit) : M bool :=
  fun w => match m w with
           | (Ok _, w') => (Ok true, w')
           | (Thrown, w') => (Ok false, w')
           end.

(** *** Panel creation *)

(** [removeExistingPanel]. *)
Definition removeExistingPanel : M unit := modify_doc (set_panelDom None).

(** [createContextMenu]: the extras menu is removed, and appended again
    when [#mainPopupSet] exists. *)
Definition createContextMenu : M unit :=
  modify_doc (set_extrasContextMenu false) ;;
  w <- get ;;
  if mainPopupSet (doc w) then
    modify_doc (set_extrasContextMenu true) ;;
    log "Context menu created and added to mainPopupSet"
  else ret tt.

(** [createPanel].  The click listeners of [setupPanelEventListeners] sit on
    elements of the panel markup and are not part of the state. *)
Definition createPanel : M unit :=
  removeExistingPanel ;;
  createContextMenu ;;
  w <- get ;;
  if negb (mainPopupSet (doc w)) then logError "mainPopupSet not found"
  else
    modify_doc (set_panelDom (Some initial_panel)) ;;
    modify_pm (set_panel (Some CONFIG.PANEL_ID)) ;;
    log "Panel created and added to mainPopupSet".

(** *** Global dismissal handlers *)

(** [removePanelGlobalHandlers]. *)
Definition removePanelGlobalHandlers : M unit :=
  w <- get ;;
  match boundOnGlobalPointerDown (pm w) with
  | Some h =>
      removeEventListener PointerDown h true ;;
      modify_pm (set_boundOnGlobalPointerDown None)
  | None => ret tt
  end ;;
  w <- get ;;
  match boundOnGlobalKeyDown (pm w) with
  | Some h =>
      removeEventListener KeyDown h true ;;
      modify_pm (set_boundOnGlobalKeyDown None)
  | None => ret tt
  end.

(** [hidePanel]. *)
Definition hidePanel : M unit :=
  w <- get ;;
  if isSome (panel (pm w)) && isOpen (pm w) then
    emit PanelHidePopup ;;
    modify_pm (set_isOpen false) ;;
    removePanelGlobalHandlers ;;
    log "Panel closed"
  else ret tt.

(** [addPanelGlobalHandlers]: two new closures, registered in the capture
    phase, unless one of the two fields is already set. *)
Definition addPanelGlobalHandlers : M unit :=
  w <- get ;;
  if isSome (boundOnGlobalPointerDown (pm w)) || isSome (boundOnGlobalKeyDown (pm w))
  then ret tt
  else
    hp <- fresh ;;
    modify_pm (set_boundOnGlobalPointerDown (Some hp)) ;;
    hk <- fresh ;;
    modify_pm (set_boundOnGlobalKeyDown (Some hk)) ;;
    addEventListener PointerDown hp true ;;
    addEventListener KeyDown hk true.

(** The closure [boundOnGlobalPointerDown]: [clickInsidePanel] is
    [panel.contains(target)], [contains] tells whether an element contains
    the target. *)
Definition onGlobalPointerDown (clickInsidePanel : bool) (contains : Elem -> bool)
  : M unit :=
  try_catch
    (w <- get ;;
     if negb (isSome (panel (pm w))) || negb (isOpen (pm w)) then ret tt
     else
       let clickOnAnchor :=
         match lastAnchorButton (pm w) with
         | Some a => contains a
         | None => false
         end in
       if negb clickInsidePanel && negb clickOnAnchor then hidePanel else ret tt)
    (ret tt).

(** The closure [boundOnGlobalKeyDown]. *)
Definition onGlobalKeyDown (key : string) : M unit :=
  w <- get ;;
  if negb (isSome (panel (pm w))) || negb (isOpen (pm w)) then ret tt
  else if String.eqb key "Escape" then hidePanel else ret tt.

(** The window delivers an event to every listener registered for its type. *)
Definition dispatch (t : EventType) (body : M unit) : M unit :=
  w <- get ;;
  forEach (fun _ => body)
          (filter (fun l => EventType_eqb (l_type l) t) (listeners w)).

(** *** Security status *)

Definition ICON_DEFAULT := "chrome://browser/skin/zen-icons/info.svg".
Definition ICON_ACTIVE := "chrome://browser/skin/zen-icons/shield-check.svg".
Definition ICON_WARNING := "chrome://browser/skin/zen-icons/shield-exclamation.svg".
Definition ICON_SECURE := "chrome://browser/skin/zen-icons/security.svg".
Definition ICON_INSECURE := "chrome://browser/skin/zen-icons/lock-open.svg".

(** Reading [gBrowser.currentURI]. *)
Definition getCurrentURI : M (option Uri) :=
  call GetCurrentURI ;; ret (currentURI env).

(** [securityImage.setAttribute("src", iconSrc)]. *)
Definition set_security_src (iconSrc : string) : M unit :=
  modify_doc (fun d =>
    match panelDom d with
    | Some p => set_panelDom (Some (mkPanelDom (extension_container p) (Some iconSrc))) d
    | None => d
    end).

(** [updateSecurityStatus]. *)
Definition updateSecurityStatus : M unit :=
  try_catch
    (w <- get ;;
     match panelDom (doc w) with
     | None => log "Security status image not found"
     | Some _ =>
         match identityPermissionBox (doc w) with
         | None => log "Identity permission box not found"
         | Some box =>
             iconSrc <-
               (if hasSharingIcon box then ret ICON_ACTIVE
                else if hasPermissions box then ret ICON_WARNING
                else
                  uri <- getCurrentURI ;;
                  ret (match uri with
                       | Some u =>
                           if String.eqb (scheme u) "https" then ICON_SECURE
                           else if String.eqb (scheme u) "http" then ICON_INSECURE
                           else ICON_DEFAULT
                       | None => ICON_DEFAULT
                       end)) ;;
             set_security_src iconSrc ;;
             log ("Security status updated with icon: " ++ iconSrc)
         end
     end)
    (logError "Error updating security status").

(** *** Extensions: listener, loading *)

(** [loadExtensions] up to its [await]: the request for the add-on list is
    made and the rest of the body waits for the answer. *)
Definition loadExtensions : M unit :=
  log "Starting extension loading process" ;;
  try_catch
    (call GetAddonsByTypes ;;
     modify (fun w => set_pendingLoads (S (pendingLoads w)) w))
    (logError "Error in loadExtensions").

(** The rest of [loadExtensions], once the add-on list has arrived.  The
    console lines of [removeUninstalledExtensions] are not recorded. *)
Definition loadExtensions_resume : M unit :=
  w <- get ;;
  match pendingLoads w with
  | O => ret tt
  | S n =>
      modify (set_pendingLoads n) ;;
      let userExtensions := userExtensions_of (addons w) in
      log ("Found " ++ string_of_nat (List.length userExtensions) ++ " user extensions") ;;
      match panelDom (doc w) with
      | None => log "Extension container not found"
      | Some p =>
          let (c, data) :=
            processExtensions (getByID env) (browserActionFor env)
                              (extension_container p) userExtensions in
          modify_pm (set_extensionData data) ;;
          modify_doc (set_panelDom (Some (mkPanelDom c (security_image_src p)))) ;;
          log "Extension loading completed successfully"
      end
  end.

(** [refreshExtensions]. *)
Definition refreshExtensions : M unit :=
  w <- get ;;
  if isOpen (pm w) then
    log "Refreshing extensions due to change" ;; loadExtensions
  else ret tt.

(** [setupAddonListener]. *)
Definition setupAddonListener : M unit :=
  log "Setting up AddonManager listener" ;;
  h <- fresh ;;
  modify_pm (set_addonListener (Some h)) ;;
  emit AddAddonListener ;;
  modify (fun w => set_addonListeners (addonListeners w ++ [h]) w) ;;
  log "AddonManager listener added".

(** [setupAddonListenerIfNeeded]. *)
Definition setupAddonListenerIfNeeded : M unit :=
  w <- get ;;
  if isSome (addonListener (pm w)) then ret tt else setupAddonListener.

(** AddonManager telling its listeners of a change: each of the four
    callbacks of [this.addonListener] logs and calls [refreshExtensions]. *)
Definition notifyAddonListeners (what : string) : M unit :=
  w <- get ;;
  forEach (fun _ => log ("Extension " ++ what) ;; refreshExtensions)
          (addonListeners w).

(** *** Showing and toggling *)

(** [showPanel]. *)
Definition showPanel (targetButton : option Elem) : M unit :=
  w <- get ;;
  (if isSome (panel (pm w)) then ret tt else createPanel) ;;
  w <- get ;;
  match panel (pm w), targetButton with
  | Some _, Some anchor =>
      setupAddonListenerIfNeeded ;;
      loadExtensions ;;
      updateSecurityStatus ;;
      emit (PanelOpenPopup anchor) ;;
      modify_pm (set_isOpen true) ;;
      modify_pm (set_lastAnchorButton (Some anchor)) ;;
      addPanelGlobalHandlers ;;
      log "Panel opened"
  | _, _ => ret tt
  end.

(** [togglePanel]. *)
Definition togglePanel (targetButton : option Elem) : M unit :=
  w <- get ;;
  if isOpen (pm w) then hidePanel else showPanel targetButton.

(** *** Extension entries: click *)

(** [AddonManager.getAddonByID]. *)
Definition getAddonByID (extensionId : string) : M (option Addon) :=
  call (GetAddonByID extensionId) ;;
  w <- get ;;
  ret (find (fun a => String.eqb (id a) extensionId) (addons w)).

(** Reading [addon.isActive]: the add-on object is the host's, so the read
    gives the host's value at the time of the read. *)
Definition read_isActive (addon : Addon) : M bool :=
  w <- get ;;
  ret (match find (fun a => String.eqb (id a) (id addon)) (addons w) with
       | Some a => isActive a
       | None => isActive addon
       end).

(** The host switching an add-on on or off: the add-on's [isActive] changes
    and the listeners hear of it before the promise resolves. *)
Definition host_set_active (i : string) (v : bool) : M unit :=
  modify (fun w =>
    set_addons (map (fun a => if String.eqb (id a) i then with_isActive v a else a)
                    (addons w)) w).

(** [addon.enable()] and [addon.disable()]. *)
Definition addon_enable (addon : Addon) : M unit :=
  call (AddonEnable (id addon)) ;;
  host_set_active (id addon) true ;;
  notifyAddonListeners ("enabled: " ++ name addon).

Definition addon_disable (addon : Addon) : M unit :=
  call (AddonDisable (id addon)) ;;
  host_set_active (id addon) false ;;
  notifyAddonListeners ("disabled: " ++ name addon).

(** The host removing an add-on. *)
Definition host_uninstall (c : HostCall) (addon : Addon) : M unit :=
  call c ;;
  modify (fun w =>
    set_addons (filter (fun a => negb (String.eqb (id a) (id addon))) (addons w)) w) ;;
  notifyAddonListeners ("uninstalled: " ++ name addon).

(** A write on the image of the entry [document.querySelector] finds. *)
Definition update_rendered (i : string) (f : Image -> Image) : M unit :=
  modify_doc (fun d =>
    match panelDom d with
    | Some p =>
        set_panelDom
          (Some (mkPanelDom (update_first i f (extension_container p))
                            (security_image_src p))) d
    | None => d
    end).

(** [updateExtensionImageState].  It is called without [await]; its body is
    run here to its end, and it catches what its own host call throws. *)
Definition updateExtensionImageState (extensionId : string) (isEnabled : bool)
  : M unit :=
  w <- get ;;
  let found :=
    match panelDom (doc w) with
    | Some p => querySelector_found (extension_container p) extensionId
    | None => false
    end in
  if found then
    update_rendered extensionId (set_enabled (toString isEnabled)) ;;
    try_catch
      (addon <- getAddonByID extensionId ;;
       match addon with
       | Some a =>
           let tempAddon := with_isActive isEnabled a in
           let tooltipText :=
             getExtensionTooltip (getByID env) (browserActionFor env) tempAddon in
           update_rendered extensionId (set_tooltiptext tooltipText)
       | None => ret tt
       end)
      (logError ("Error updating tooltip for extension " ++ extensionId))
  else ret tt.

(** [toggleExtensionState]. *)
Definition toggleExtensionState (extensionId : string) : M unit :=
  addon <- getAddonByID extensionId ;;
  match addon with
  | None => logError ("No addon found for extension " ++ extensionId)
  | Some a =>
      active <- read_isActive a ;;
      (if active then addon_disable a else addon_enable a) ;;
      active <- read_isActive a ;;
      updateExtensionImageState extensionId (negb active) ;;
      hidePanel ;;
      active <- read_isActive a ;;
      log ((if active then "Enabled" else "Disabled") ++ " extension " ++ extensionId)
  end.

(** [openExtensionPopup], the click handler of a rendered entry. *)
Definition openExtensionPopup (extensionId : string) : M unit :=
  try_catch
    (log ("Opening popup for extension " ++ extensionId) ;;
     match getByID env extensionId with
     | Throws => throw
     | Missing => toggleExtensionState extensionId
     | Found =>
         match browserActionFor env extensionId with
         | Throws => throw
         | Missing => toggleExtensionState extensionId
         | Found =>
             call (ActionOpenPopup extensionId) ;;
             hidePanel ;;
             log ("Successfully opened popup for extension " ++ extensionId)
         end
     end)
    (logError ("Error opening popup for extension " ++ extensionId)).

(** [openExtensionsPage]. *)
Definition openExtensionsPage : M unit :=
  (if hasLoadURI env then call (LoadURI CONFIG.EXTENSIONS_URL) else ret tt) ;;
  hidePanel.

(** *** Extension context menu *)

(** [ensureExtensionContextMenu]: the menu element, or [None] without
    [#mainPopupSet]. *)
Definition ensureExtensionContextMenu : M (option Elem) :=
  w <- get ;;
  if negb (mainPopupSet (doc w)) then
    logError "#mainPopupSet not found for extension context menu" ;; ret None
  else if extensionContextMenu (doc w) then ret (Some "extension-context-menu")
  else
    modify_doc (set_extensionContextMenu true) ;;
    ret (Some "extension-context-menu").

(** [setupExtensionMenuListeners]: the four [command] listeners sit on the
    menu items; their bodies are [extensionMenuCommand] below. *)
Definition setupExtensionMenuListeners : M unit :=
  w <- get ;;
  if negb (extensionContextMenu (doc w)) then ret tt
  else modify_pm (set_extensionMenuListenersSetup true).

(** [showExtensionContextMenu]. *)
Definition showExtensionContextMenu (extensionId : string) : M unit :=
  try_catch
    (menu <- ensureExtensionContextMenu ;;
     match menu with
     | None => ret tt
     | Some m =>
         modify_pm (set_currentContextMenuExtensionId (Some extensionId)) ;;
         w <- get ;;
         (if extensionMenuListenersSetup (pm w) then ret tt
          else setupExtensionMenuListeners) ;;
         call ExtensionMenuOpenPopup ;;
         modify_pm (set_currentContextMenu (Some m)) ;;
         log ("Context menu opened for extension " ++ extensionId)
     end)
    (logError "Error showing extension context menu").

(** [hideExtensionContextMenu]. *)
Definition hideExtensionContextMenu : M unit :=
  w <- get ;;
  (if extensionContextMenu (doc w) then emit ExtensionMenuHidePopup else ret tt) ;;
  modify_pm (set_currentContextMenu None) ;;
  modify_pm (set_currentContextMenuExtensionId None).

(** [manageExtension]. *)
Definition manageExtension (extensionId : string) : M unit :=
  try_catch
    (log ("Managing extension " ++ extensionId) ;;
     addon <- getAddonByID extensionId ;;
     match addon with
     | Some a =>
         match optionsUrl a with
         | Some url =>
             if truthy url then
               call GetSystemPrincipal ;; call (AddTab url) ;; call (SelectTab url)
             else log ("No optionsUrl for extension " ++ extensionId)
         | None => log ("No optionsUrl for extension " ++ extensionId)
         end
     | None => log ("No optionsUrl for extension " ++ extensionId)
     end ;;
     hidePanel)
    (logError "Error managing extension").

(** [pinExtensionToToolbar].  Where it calls [manageExtension] the call is
    not awaited; that body catches its own exceptions and is run here to
    its end. *)
Definition pinExtensionToToolbar (extensionId : string) : M unit :=
  try_catch
    (log ("Pinning extension " ++ extensionId ++ " to toolbar") ;;
     match getByID env extensionId with
     | Throws => throw
     | Missing => log ("Extension " ++ extensionId ++ " not found for pinning")
     | Found =>
         try_catch
           (match pinApi env with
            | NoUnifiedExtensions => manageExtension extensionId
            | HasTogglePinned =>
                call (TogglePinned extensionId) ;;
                log "pin state toggled via gUnifiedExtensions.togglePinned"
            | HasTogglePinnedFor =>
                call (TogglePinnedFor extensionId) ;;
                log "pin state toggled via gUnifiedExtensions.togglePinnedFor"
            | ViaAction hasSetPinned pinned =>
                match browserActionFor env extensionId with
                | Throws => throw
                | Missing => ret tt
                | Found =>
                    if hasSetPinned then
                      call (SetPinned extensionId (negb pinned)) ;;
                      log "pin state set via action.setPinned"
                    else
                      log "Pin API not available on action; opening manage page instead" ;;
                      manageExtension extensionId
                end
            end)
           (logError "Error pinning extension to toolbar") ;;
         hidePanel
     end)
    (logError "Error in pinExtensionToToolbar").

(** [this.updateExtensions()]: the class declares no such method, so the
    call raises a TypeError. *)
Definition updateExtensions : M unit := throw.

(** [removeExtension]. *)
Definition removeExtension (extensionId : string) : M unit :=
  try_catch
    (log ("Removing extension " ++ extensionId) ;;
     addon <- getAddonByID extensionId ;;
     match addon with
     | None => log ("Extension " ++ extensionId ++ " not found for removal")
     | Some a =>
         call (PromptConfirm (name a)) ;;
         if negb (confirmAnswer env) then
           log ("Extension removal cancelled for " ++ extensionId)
         else
           let finish :=
             log ("Extension " ++ extensionId ++ " removed successfully") ;;
             updateExtensions ;;
             hidePanel in
           match removalApi a with
           | HasUninstall => host_uninstall (AddonUninstall (id a)) a ;; finish
           | HasRemove => host_uninstall (AddonRemove (id a)) a ;; finish
           | NoRemovalApi => manageExtension extensionId
           end
     end)
    (logError "Error removing extension").

(** [reportExtension].  [AddonManager.getAddonByID] is not awaited: the
    value tested is a promise, truthy and without an [id]. *)
Definition reportExtension (extensionId : string) : M unit :=
  try_catch
    (log ("Reporting extension " ++ extensionId) ;;
     call (GetAddonByID extensionId) ;;
     let reportUrl :=
       "https://addons.mozilla.org/firefox/feedback/addon/" ++ extensionId ++ "/" in
     call GetSystemPrincipal ;;
     call (AddTab reportUrl) ;;
     call (SelectTab reportUrl) ;;
     hidePanel)
    (logError "Error reporting extension").

(** The items of [#extension-context-menu]. *)
Inductive MenuItem := ItemPin | ItemManage | ItemRemove | ItemReport.

(** The [command] listener of a menu item: it acts on the tracked id when
    that is truthy. *)
Definition extensionMenuCommand (item : MenuItem) : M unit :=
  w <- get ;;
  match currentContextMenuExtensionId (pm w) with
  | Some i =>
      if truthy i then
        match item with
        | ItemPin => pinExtensionToToolbar i
        | ItemManage => manageExtension i
        | ItemRemove => removeExtension i
        | ItemReport => reportExtension i
        end
      else ret tt
  | None => ret tt
  end.

(** *** Extras menu *)

(** [showExtrasContextMenu]; the [command] listeners of
    [setupExtrasMenuListeners] sit on the menu items. *)
Definition showExtrasContextMenu : M unit :=
  w <- get ;;
  if extrasContextMenu (doc w) then
    (if extrasMenuListenersSetup (pm w) then ret tt
     else
       log "Setting up extras menu listeners" ;;
       log "Extras menu listeners setup complete" ;;
       modify_pm (set_extrasMenuListenersSetup true)) ;;
    emit ExtrasMenuOpenPopup
  else ret tt.

(** [clearCache]. *)
Definition clearCache : M unit :=
  log "Clearing cache for current page" ;;
  try_catch
    (currentURI <- getCurrentURI ;;
     match currentURI with
     | Some _ =>
         call NotifyPurgeSessionHistory ;;
         (if hasCache2 env then call CacheClear else ret tt) ;;
         log "Refreshing tab after cache clear" ;;
         call Reload
     | None => ret tt
     end)
    (logError "Error clearing cache") ;;
  hidePanel.

(** The loop of the primary strategy: each removal in its own try block. *)
Fixpoint primary_remove_all (cookies : list Cookie) (removedCount : nat) : M nat :=
  match cookies with
  | [] => ret removedCount
  | cookie :: rest =>
      removed <- attempt (call (PrimaryRemove cookie)) ;;
      if removed then primary_remove_all rest (S removedCount)
      else
        log ("Failed to remove cookie: " ++ cookie_name cookie) ;;
        primary_remove_all rest removedCount
  end.

(** The primary strategy: the [CookieManager] module, its cookies for the
    host, one removal per cookie. *)
Definition clearCookies_primary (h : string) : M unit :=
  call ImportCookieManager ;;
  call (PrimaryGetCookies h) ;;
  removedCount <- primary_remove_all (primaryCookies env) 0 ;;
  log ("Cookie clearing complete for " ++ h ++ ": " ++ string_of_nat removedCount
       ++ " removed using new API").

(** The loop of the fallback strategy without [removeAllFromHost]. *)
Fixpoint fallback_remove_each (cookies : list Cookie) (removedCount failedCount : nat)
  : M (nat * nat) :=
  match cookies with
  | [] => ret (removedCount, failedCount)
  | cookie :: rest =>
      removed <- attempt (call (FallbackRemove cookie)) ;;
      if removed then fallback_remove_each rest (S removedCount) failedCount
      else fallback_remove_each rest removedCount (S failedCount)
  end.

(** The fallback strategy, the catch block of the primary one:
    [Services.cookies], its cookies for the host, then one removal for the
    whole host or one per cookie, inside a try block of their own. *)
Definition clearCookies_fallback (h : string) : M unit :=
  log "New cookie API failed, trying fallback method" ;;
  call (FallbackGetCookies h) ;;
  try_catch
    (if hasRemoveAllFromHost env then
       call (RemoveAllFromHost h) ;;
       log ("Cleared all cookies for " ++ h ++ " using removeAllFromHost")
     else
       counts <- fallback_remove_each (fallbackCookies env) 0 0 ;;
       log ("Cookie clearing complete for " ++ h ++ ": "
            ++ string_of_nat (fst counts) ++ " removed, "
            ++ string_of_nat (snd counts) ++ " failed"))
    (logError "All cookie removal methods failed").

(** [clearCookies]. *)
Definition clearCookies : M unit :=
  log "Clearing cookies for current page domain" ;;
  try_catch
    (currentURI <- getCurrentURI ;;
     match currentURI with
     | Some u =>
         if truthy (host u) then
           try_catch (clearCookies_primary (host u)) (clearCookies_fallback (host u)) ;;
           log "Refreshing tab after cookie clear" ;;
           call Reload
         else ret tt
     | None => ret tt
     end)
    (logError "Error clearing cookies") ;;
  hidePanel.

(** [manageExtensions]. *)
Definition manageExtensions : M unit :=
  log "Opening extensions management" ;;
  try_catch
    (call GetSystemPrincipal ;;
     call (AddTab "about:addons") ;;
     call (SelectTab "about:addons"))
    (logError "Error opening extensions management") ;;
  hidePanel.

(** [showPagePermissions]. *)
Definition showPagePermissions : M unit :=
  log "Showing page permissions" ;;
  try_catch
    (call GetSystemPrincipal ;;
     call (AddTab "about:preferences#privacy") ;;
     call (SelectTab "about:preferences#privacy"))
    (logError "Error opening page permissions") ;;
  hidePanel.

(** *** Cleanup *)

(** [cleanup]. *)
Definition cleanup : M unit :=
  w <- get ;;
  match addonListener (pm w) with
  | Some h =>
      emit RemoveAddonListener ;;
      modify (fun w => set_addonListeners
                         (filter (fun h' => negb (Nat.eqb h h')) (addonListeners w)) w) ;;
      modify_pm (set_addonListener None) ;;
      log "AddonManager listener removed"
  | None => ret tt
  end ;;
  hideExtensionContextMenu ;;
  modify_pm (set_extrasMenuListenersSetup false).

(** The [unload] listener of [setupEventListeners]: [window.panelManager]
    is the manager [initializeURLBarModifier] stored. *)
Definition onUnload : M unit := cleanup.

End Manager.

(** The world after [initializeURLBarModifier]: a new manager, and the
    [unload] and [DOMContentLoaded] listeners of [setupEventListeners] on the
    window.  The document and the installed add-ons are the browser's. *)
Definition initial_world (d : Document) (installed : list Addon) : World :=
  {| pm := new_PanelManager;
     doc := d;
     listeners := [mkListener Unload 0 false; mkListener DOMContentLoaded 1 false];
     addons := installed;
     addonListeners := [];
     nextHandle := 2;
     pendingLoads := 0;
     trace := [Logged "URLBarModifier: Initialization complete"] |}.

(** The global dismissal listeners among the window's: those for
    [pointerdown] and [keydown]. *)
Definition dismissal_listeners (w : World) : list Listener :=
  filter (fun l => match l_type l with
                   | PointerDown | KeyDown => true
                   | Unload | DOMContentLoaded => false
                   end) (listeners w).


(* ================================================================== *)
(** ** Injection of the toolbar button *)
(* ================================================================== *)

(** [#page-action-buttons], by what the script reads and writes: the
    [data-urlbar-modified] attribute and the ids of the children. *)
Record PageActionButtons := mkPageActionButtons {
  data_urlbar_modified : bool;
  children : list string
}.

(** [setupPageActionButton] on the container, if the document has one: the
    container it leaves, and whether a click listener was added. *)
Definition setupPageActionButton (pageActionButtons : option PageActionButtons)
  : option PageActionButtons * bool :=
  match pageActionButtons with
  | None => (None, false)
  | Some p =>
      if data_urlbar_modified p then (Some p, false)
      else
        (Some {| data_urlbar_modified := true;
                 children := children p ++ [CONFIG.BUTTON_ID] |},
         true)
  end.

(** [DOMContentLoaded] reaching the window [n] times: each time the listener
    of [setupEventListeners] runs [setupPageActionButton]; the click
    listeners added so far are counted. *)
Fixpoint onDOMContentLoaded (n : nat) (pageActionButtons : option PageActionButtons)
    (clickListeners : nat) : option PageActionButtons * nat :=
  match n with
  | O => (pageActionButtons, clickListeners)
  | S n' =>
      let (p, added) := setupPageActionButton pageActionButtons in
      onDOMContentLoaded n' p (if added then S clickListeners else clickListeners)
  end.

(* ================================================================== *)
(** ** Sequences of lifecycle events *)
(* ================================================================== *)

(** What can happen to the panel from outside: the three methods the toolbar
    button and the handlers call, and the two window events the dismissal
    listeners are registered for. *)
Inductive LifecycleEvent :=
| CallShowPanel (targetButton : option Elem)
| CallHidePanel
| CallTogglePanel (targetButton : option Elem)
| WindowPointerDown (clickInsidePanel : bool) (contains : Elem -> bool)
| WindowKeyDown (key : string).

Definition lifecycle_step (env : Host) (e : LifecycleEvent) : M unit :=
  match e with
  | CallShowPanel b => showPanel env b
  | CallHidePanel => hidePanel
  | CallTogglePanel b => togglePanel env b
  | WindowPointerDown inside contains =>
      dispatch PointerDown (onGlobalPointerDown inside contains)
  | WindowKeyDown key => dispatch KeyDown (onGlobalKeyDown key)
  end.

(** A sequence of events, each met by the host of its time; an event is a
    handler run of its own, so what one leaves the next one finds. *)
Definition run_lifecycle (events : list (Host * LifecycleEvent)) (w : World) : World :=
  fold_left (fun w e => exec (lifecycle_step (fst e) (snd e)) w) events w.

(** The actions of the panel and of its two menus. *)
Inductive Action :=
| ActOpenExtensionsPage
| ActClearCache
| ActClearCookies
| ActManageExtensions
| ActShowPagePermissions
| ActClickExtension (extensionId : string)
| ActPin (extensionId : string)
| ActManage (extensionId : string)
| ActRemove (extensionId : string)
| ActReport (extensionId : string).

Definition run_action (env : Host) (a : Action) : M unit :=
  match a with
  | ActOpenExtensionsPage => openExtensionsPage env
  | ActClearCache => clearCache env
  | ActClearCookies => clearCookies env
  | ActManageExtensions => manageExtensions env
  | ActShowPagePermissions => showPagePermissions env
  | ActClickExtension i => openExtensionPopup env i
  | ActPin i => pinExtensionToToolbar env i
  | ActManage i => manageExtension env i
  | ActRemove i => removeExtension env i
  | ActReport i => reportExtension env i
  end.

(** The handler a command of the extension menu runs, given the id its
    listener reads from [this.currentContextMenuExtensionId]. *)
Definition action_of_item (item : MenuItem) (extensionId : string) : Action :=
  match item with
  | ItemPin => ActPin extensionId
  | ItemManage => ActManage extensionId
  | ItemRemove => ActRemove extensionId
  | ItemReport => ActReport extensionId
  end.

(** Everything that can run a method of the manager: the lifecycle events,
    the actions, a right click on an entry, a command of the extension menu,
    a click on the extras button, the add-on list arriving for a pending
    [loadExtensions], AddonManager reporting a change, the window unloading. *)
Inductive PanelEvent :=
| EvLifecycle (e : LifecycleEvent)
| EvAction (a : Action)
| EvContextMenu (extensionId : string)
| EvMenuCommand (item : MenuItem)
| EvExtrasMenu
| EvLoadResumed
| EvAddonChanged (what : string)
| EvUnload.

Definition panel_step (env : Host) (e : PanelEvent) : M unit :=
  match e with
  | EvLifecycle e => lifecycle_step env e
  | EvAction a => run_action env a
  | EvContextMenu i => showExtensionContextMenu env i
  | EvMenuCommand item => extensionMenuCommand env item
  | EvExtrasMenu => showExtrasContextMenu
  | EvLoadResumed => loadExtensions_resume env
  | EvAddonChanged what => notifyAddonListeners env what
  | EvUnload => onUnload
  end.

(** A sequence of such events, each a handler run of its own with the host of
    its time. *)
Definition run_panel (events : list (Host * PanelEvent)) (w : World) : World :=
  fold_left (fun w e => exec (panel_step (fst e) (snd e)) w) events w.

(** The two events whose handlers write the tracked menu and id of the
    extension context menu: a right click on an entry
    ([showExtensionContextMenu]) and the unload of the window ([cleanup],
    which calls [hideExtensionContextMenu]). *)
Definition is_right_click (e : PanelEvent) : bool :=
  match e with EvContextMenu _ => true | _ => false end.

Definition is_unload (e : PanelEvent) : bool :=
  match e with EvUnload => true | _ => false end.

(** Any other event. *)
Definition other_event (e : PanelEvent) : bool :=
  negb (is_right_click e || is_unload e).

(* ================================================================== *)
(** ** Assertions on worlds and on programs *)
(* ================================================================== *)

(** The PanelState invariant: an open panel has its element, its anchor and
    exactly its two dismissal listeners on the window; a closed one has
    none.  Listener objects are numbered below the world's counter. *)
Definition lifecycle_inv (w : World) : Prop :=
  (forall l, In l (listeners w) -> l_callback l < nextHandle w) /\
  if isOpen (pm w) then
    panel (pm w) <> None /\ lastAnchorButton (pm w) <> None /\
    exists hp hk,
      boundOnGlobalPointerDown (pm w) = Some hp /\
      boundOnGlobalKeyDown (pm w) = Some hk /\
      dismissal_listeners w = [mkListener PointerDown hp true; mkListener KeyDown hk true]
  else
    boundOnGlobalPointerDown (pm w) = None /\
    boundOnGlobalKeyDown (pm w) = None /\
    dismissal_listeners w = [].

(** An open panel has its element. *)
Definition panel_known (w : World) : Prop :=
  isOpen (pm w) = true -> panel (pm w) <> None.

(** A relation between the world before and the world after that is kept
    along a run: reflexive and transitive. *)
Class Frame (R : World -> World -> Prop) : Prop := {
  frame_refl : forall w, R w w;
  frame_trans : forall w1 w2 w3, R w1 w2 -> R w2 w3 -> R w1 w3
}.

(** [m] keeps [R], whether it completes or throws. *)
Definition keeps (R : World -> World -> Prop) {A} (m : M A) : Prop :=
  forall w, R w (snd (m w)).

(** [m] never throws. *)
Definition completes {A} (m : M A) : Prop :=
  forall w, exists a, fst (m w) = Ok a.

(** The outcome and the final world of [m] from [w] satisfy [Q]. *)
Definition wp {A} (m : M A) (Q : Res A -> World -> Prop) (w : World) : Prop :=
  Q (fst (m w)) (snd (m w)).

(** The observation [f] is the same before and after. *)
Definition same_on {T} (f : World -> T) (w w' : World) : Prop := f w' = f w.

(** The assertion [P] survives: if it held before, it holds after. *)
Definition preserving (P : World -> Prop) (w w' : World) : Prop := P w -> P w'.

(** The panel element is kept and a closed panel stays closed. *)
Definition no_reopen (w w' : World) : Prop :=
  panel (pm w') = panel (pm w) /\
  (isOpen (pm w') = true -> isOpen (pm w) = true).

(** What the dismissal machinery rests on, apart from the panel element. *)
Definition dismissal_view (w : World) :=
  (isOpen (pm w), boundOnGlobalPointerDown (pm w), boundOnGlobalKeyDown (pm w),
   lastAnchorButton (pm w), listeners w).

(** The dismissal machinery is untouched, a panel element that was there is
    still there, and the handle counter has not gone back. *)
Definition dismissal_kept (w w' : World) : Prop :=
  dismissal_view w' = dismissal_view w /\
  (panel (pm w) <> None -> panel (pm w') <> None) /\
  nextHandle w <= nextHandle w'.

(** The manager, the document, the window's listeners and the host's add-ons:
    the world but for the trace, the handle counter and the pending loads. *)
Definition state_view (w : World) :=
  (pm w, doc w, listeners w, addons w, addonListeners w).

(** The state of the extension context menu as the manager tracks it:
    [this.currentContextMenu] and [this.currentContextMenuExtensionId]. *)
Definition tracked_menu (w : World) : option Elem * option string :=
  (currentContextMenu (pm w), currentContextMenuExtensionId (pm w)).

(** The image shows the add-on: the three attributes the script writes from
    it have the values it would write. *)
Definition shows (getByID browserActionFor : string -> Lookup)
    (a : Addon) (img : Image) : Prop :=
  src img = getExtensionIconSrc a /\
  tooltiptext img = getExtensionTooltip getByID browserActionFor a /\
  enabled img = toString (isActive a).

(** AddonManager holds the manager's listener, once, exactly while the
    manager's field holds it. *)
Definition addon_listener_inv (w : World) : Prop :=
  addonListeners w = match addonListener (pm w) with
                     | Some h => [h]
                     | None => []
                     end.

(** What the add-on listener invariant reads. *)
Definition addon_listener_view (w : World) :=
  (addonListener (pm w), addonListeners w).

(** [m], run with an open panel that has its element, completes and leaves
    the panel closed. *)
Definition closes (m : M unit) : Prop :=
  forall w, panel_known w ->
            fst (m w) = Ok tt /\ isOpen (pm (exec m w)) = false.

(** No host call throws. *)
Definition reliable (env : Host) : Prop := forall c, throws env c = false.

(** The add-on the host has for an id. *)
Definition installed_addon (i : string) (w : World) : option Addon :=
  find (fun a => String.eqb (id a) i) (addons w).

(** The children of [#extension-container], when the panel is in the
    document. *)
Definition rendered_container (w : World) : option Container :=
  match panelDom (doc w) with
  | Some p => Some (extension_container p)
  | None => None
  end.

(** What a pending [loadExtensions] will work on when the add-on list
    arrives. *)
Definition load_view (w : World) :=
  (rendered_container w, addons w, pendingLoads w).

(** The image of the rendered entry of an extension, if it is rendered. *)
Definition rendered_image (i : string) (w : World) : option Image :=
  match panelDom (doc w) with
  | Some p => find_image i (extension_container p)
  | None => None
  end.

(** The primary cookie strategy fails as a whole: loading the module or
    asking it for the host's cookies throws, so its try block is left. *)
Definition primary_strategy_throws (env : Host) (h : string) : Prop :=
  throws env ImportCookieManager = true \/ throws env (PrimaryGetCookies h) = true.

(** The primary strategy fails in the sense of the fallback scenario as well:
    it is left by an exception, or it gets its cookies and every removal
    throws. *)
Definition primary_strategy_fails (env : Host) (h : string) : Prop :=
  primary_strategy_throws env h
  \/ (primaryCookies env <> [] /\
      forall c, In c (primaryCookies env) -> throws env (PrimaryRemove c) = true).

(** The [src] attribute of [#page-secutity-status-image], when the image
    exists and the attribute is set. *)
Definition security_src_of (w : World) : option string :=
  match panelDom (doc w) with
  | Some p => security_image_src p
  | None => None
  end.

(** The effects a run from [w] to [w'] added to the trace. *)
Definition added_effects (w w' : World) : list Effect :=
  skipn (List.length (trace w)) (trace w').

Definition HostCall_is_fallback (c : HostCall) : bool :=
  match c with FallbackGetCookies _ => true | _ => false end.

Definition HostCall_is_primary (c : HostCall) : bool :=
  match c with
  | ImportCookieManager | PrimaryGetCookies _ | PrimaryRemove _ => true
  | _ => false
  end.

Definition HostCall_is_reload (c : HostCall) : bool :=
  match c with Reload => true | _ => false end.

(** How many recorded calls satisfy [p]. *)
Definition count_called (p : HostCall -> bool) (t : list Effect) : nat :=
  List.length (filter (fun e => match e with Called c => p c | _ => false end) t).

(** No recorded call in [t] satisfies [p]. *)
Definition silent (p : HostCall -> bool) (t : list Effect) : Prop :=
  Forall (fun e => match e with Called c => p c = false | _ => True end) t.

(** The effects that follow the first recorded call satisfying [p]. *)
Fixpoint effects_after (p : HostCall -> bool) (t : list Effect) : list Effect :=
  match t with
  | [] => []
  | Called c :: rest => if p c then rest else effects_after p rest
  | _ :: rest => effects_after p rest
  end.


(* ================================================================== *)
(** ** Sample data *)
(* ================================================================== *)

(** Three extensions in install order. *)
Definition ext_A : Addon :=
  mkAddon "a@example.org" "Alpha" None true false None HasUninstall.
Definition ext_B : Addon :=
  mkAddon "b@example.org" "Beta" None true false None HasUninstall.
Definition ext_C : Addon :=
  mkAddon "c@example.org" "Gamma" None false false None HasUninstall.

(** A host whose lookups find nothing. *)
Definition no_policy : string -> Lookup := fun _ => Missing.

(** A host on an https page where no call throws, no extension has a policy
    and the user confirms. *)
Definition quiet_host : Host :=
  {| throws := fun _ => false;
     getByID := no_policy;
     browserActionFor := no_policy;
     currentURI := Some (mkUri "https" "example.org" "https://example.org/");
     confirmAnswer := true;
     hasLoadURI := true;
     pinApi := HasTogglePinned;
     hasCache2 := true;
     primaryCookies := [];
     fallbackCookies := [];
     hasRemoveAllFromHost := true |}.

(** The browser's document before the script has added anything. *)
Definition browser_document : Document :=
  {| mainPopupSet := true; panelDom := None; extrasContextMenu := false;
     extensionContextMenu := false;
     identityPermissionBox := Some (mkIdentityBox false false) |}.

(** The world of a browser with the three sample extensions installed. *)
Definition sample_world : World :=
  initial_world browser_document [ext_A; ext_B; ext_C].

(** A host like [quiet_host] with two cookies for the page, where every
    removal through the primary strategy throws. *)
Definition stubborn_cookies_host : Host :=
  {| throws := fun c => match c with PrimaryRemove _ => true | _ => false end;
     getByID := no_policy;
     browserActionFor := no_policy;
     currentURI := Some (mkUri "https" "example.org" "https://example.org/");
     confirmAnswer := true;
     hasLoadURI := true;
     pinApi := HasTogglePinned;
     hasCache2 := true;
     primaryCookies := [mkCookie "example.org" "session"; mkCookie "example.org" "theme"];
     fallbackCookies := [mkCookie "example.org" "session"; mkCookie "example.org" "theme"];
     hasRemoveAllFromHost := true |}.

(** A host like [quiet_host] where the [CookieManager] module cannot be
    loaded. *)
Definition no_cookie_module_host : Host :=
  {| throws := fun c => match c with ImportCookieManager => true | _ => false end;
     getByID := no_policy;
     browserActionFor := no_policy;
     currentURI := Some (mkUri "https" "example.org" "https://example.org/");
     confirmAnswer := true;
     hasLoadURI := true;
     pinApi := HasTogglePinned;
     hasCache2 := true;
     primaryCookies := [];
     fallbackCookies := [mkCookie "example.org" "session"];
     hasRemoveAllFromHost := false |}.

(** A host like [quiet_host] on a page without a host name. *)
Definition blank_page_host : Host :=
  {| throws := fun _ => false;
     getByID := no_policy;
     browserActionFor := no_policy;
     currentURI := Some (mkUri "about" "" "about:blank");
     confirmAnswer := true;
     hasLoadURI := true;
     pinApi := HasTogglePinned;
     hasCache2 := true;
     primaryCookies := [];
     fallbackCookies := [];
     hasRemoveAllFromHost := true |}.

(** The toolbar button the panel is anchored to. *)
Definition the_button : option Elem := Some CONFIG.BUTTON_ID.

(** The sample world with the panel opened from the toolbar button, and then
    with the add-on list arrived and the entries rendered. *)
Definition opened_world : World :=
  exec (showPanel quiet_host the_button) sample_world.
Definition listed_world : World :=
  exec (loadExtensions_resume quiet_host) opened_world.


(* ================================================================== *)
(** * Properties of the extension list reconciler *)
(* ================================================================== *)

Local Open Scope list_scope.

Section ReconcilerFacts.

(** The host's two lookups, as in the reconciler. *)
Variable g : string -> Lookup.
Variable b : string -> Lookup.

Lemma truthy_false (s : string) : truthy s = false <-> s = "".
Proof. destruct s; simpl; split; intro H; congruence. Qed.

Lemma mem_In (i : string) (l : list string) :
  existsb (String.eqb i) l = true <-> In i l.
Proof.
  rewrite existsb_exists. split.
  - intros [x [Hx He]]. apply String.eqb_eq in He. now subst.
  - intro H. exists i. split; [assumption | apply String.eqb_refl].
Qed.

Lemma querySelector_found_In (c : Container) (i : string) :
  querySelector_found c i = true <-> In i (rendered_ids c).
Proof. apply mem_In. Qed.

Lemma querySelector_not_found (c : Container) (i : string) :
  querySelector_found c i = false <-> ~ In i (rendered_ids c).
Proof.
  rewrite <- querySelector_found_In.
  destruct (querySelector_found c i); split; intro H; congruence.
Qed.

(** An in-place update changes attributes of an image, never an id. *)
Lemma rendered_ids_update_first (i : string) (f : Image -> Image) (c : Container) :
  rendered_ids (update_first i f c) = rendered_ids c.
Proof.
  induction c as [| [j img |] rest IH]; simpl.
  - reflexivity.
  - destruct (String.eqb i j); simpl; [reflexivity | now rewrite IH].
  - exact IH.
Qed.

Lemma rendered_ids_app (c1 c2 : Container) :
  rendered_ids (c1 ++ c2) = rendered_ids c1 ++ rendered_ids c2.
Proof.
  induction c1 as [| [j img |] rest IH]; simpl; [reflexivity | now rewrite IH | exact IH].
Qed.

(** The ids after one turn of the loop. *)
Lemma rendered_ids_process_addon (c : Container) (d : ExtensionData) (a : Addon) :
  rendered_ids (fst (process_addon g b (c, d) a)) =
  if querySelector_found c (id a) then rendered_ids c else id a :: rendered_ids c.
Proof.
  unfold process_addon. simpl.
  destruct (querySelector_found c (id a)); simpl.
  - apply rendered_ids_update_first.
  - reflexivity.
Qed.

Lemma process_addon_pair (st : Container * ExtensionData) (a : Addon) :
  process_addon g b st a = (fst (process_addon g b st a), snd (process_addon g b st a)).
Proof. now destruct (process_addon g b st a). Qed.

(** The loop adds the ids it does not find, and nothing else. *)
Lemma loop_ids_In (exts : list Addon) :
  forall (c : Container) (d : ExtensionData) (j : string),
    In j (rendered_ids (fst (fold_left (process_addon g b) exts (c, d)))) <->
    In j (map id exts) \/ In j (rendered_ids c).
Proof.
  induction exts as [| a rest IH]; intros c d j; cbn [fold_left map In].
  - simpl. tauto.
  - rewrite process_addon_pair, IH, rendered_ids_process_addon.
    destruct (querySelector_found c (id a)) eqn:E.
    + apply querySelector_found_In in E. split; [tauto |].
      intros [[H | H] | H]; subst; tauto.
    + simpl. tauto.
Qed.

(** The loop never renders an id twice. *)
Lemma loop_ids_NoDup (exts : list Addon) :
  forall (c : Container) (d : ExtensionData),
    NoDup (rendered_ids c) ->
    NoDup (rendered_ids (fst (fold_left (process_addon g b) exts (c, d)))).
Proof.
  induction exts as [| a rest IH]; intros c d Hc; cbn [fold_left].
  - exact Hc.
  - rewrite process_addon_pair. apply IH.
    rewrite rendered_ids_process_addon.
    destruct (querySelector_found c (id a)) eqn:E.
    + exact Hc.
    + constructor; [now apply querySelector_not_found | exact Hc].
Qed.

(** What [removeUninstalledExtensions] keeps, on the ids. *)
Lemma rendered_ids_removeUninstalled (c : Container) (exts : list Addon) :
  rendered_ids (removeUninstalledExtensions c exts) =
  filter (fun i => negb (truthy i && negb (existsb (String.eqb i) (map id exts))))
         (rendered_ids c).
Proof.
  unfold removeUninstalledExtensions.
  induction c as [| [j img |] rest IH]; simpl.
  - reflexivity.
  - destruct (negb (truthy j && negb (existsb (String.eqb j) (map id exts)))); simpl;
      now rewrite IH.
  - exact IH.
Qed.

Lemma processExtensions_fst (c : Container) (exts : list Addon) :
  fst (processExtensions g b c exts) =
  removeUninstalledExtensions (fst (fold_left (process_addon g b) exts (c, []))) exts.
Proof.
  unfold processExtensions.
  now destruct (fold_left (process_addon g b) exts (c, [])).
Qed.

(** The ids a pass leaves: the current ones, and an empty id that was
    rendered before. *)
Lemma pass_ids_In (c : Container) (exts : list Addon) (j : string) :
  In j (rendered_ids (fst (processExtensions g b c exts))) <->
  In j (map id exts) \/ (j = "" /\ In "" (rendered_ids c)).
Proof.
  rewrite processExtensions_fst, rendered_ids_removeUninstalled, filter_In, loop_ids_In.
  rewrite negb_true_iff, andb_false_iff, negb_false_iff, truthy_false, mem_In.
  split.
  - intros [[H | H] [E | E]]; subst; tauto.
  - intros [H | [E H]]; subst; tauto.
Qed.

Lemma pass_ids_NoDup (c : Container) (exts : list Addon) :
  NoDup (rendered_ids c) ->
  NoDup (rendered_ids (fst (processExtensions g b c exts))).
Proof.
  intro Hc.
  rewrite processExtensions_fst, rendered_ids_removeUninstalled.
  apply NoDup_filter, loop_ids_NoDup, Hc.
Qed.

(** With nothing rendered and distinct ids, the loop stacks the new entries
    in front of the container, the last extension first. *)
Lemma loop_stacks (exts : list Addon) :
  forall (c : Container) (d : ExtensionData),
    (forall a, In a exts -> ~ In (id a) (rendered_ids c)) ->
    NoDup (map id exts) ->
    fst (fold_left (process_addon g b) exts (c, d)) =
    map (createExtensionWrapper g b) (rev exts) ++ c.
Proof.
  induction exts as [| a rest IH]; intros c d Hfresh Hnd; cbn [fold_left rev].
  - reflexivity.
  - cbn [map] in Hnd. inversion Hnd as [| x l Hnotin Hnd']; subst.
    assert (E : querySelector_found c (id a) = false).
    { apply querySelector_not_found, Hfresh. now left. }
    rewrite process_addon_pair.
    assert (F : fst (process_addon g b (c, d) a) = createExtensionWrapper g b a :: c).
    { unfold process_addon. simpl. now rewrite E. }
    rewrite F, IH; try assumption.
    + rewrite map_app, <- app_assoc. reflexivity.
    + intros a' Ha' [Hin | Hin].
      * apply Hnotin. simpl in Hin. rewrite Hin. now apply in_map.
      * apply (Hfresh a'); [now right | exact Hin].
Qed.

Lemma removeUninstalled_keeps_all (c : Container) (exts : list Addon) :
  (forall j, In j (rendered_ids c) -> In j (map id exts)) ->
  removeUninstalledExtensions c exts = c.
Proof.
  unfold removeUninstalledExtensions.
  induction c as [| [j img |] rest IH]; simpl; intro H.
  - reflexivity.
  - assert (Hj : existsb (String.eqb j) (map id exts) = true)
      by (apply mem_In, H; now left).
    rewrite Hj, andb_false_r. simpl. f_equal. apply IH. intros k Hk. apply H. now right.
  - f_equal. apply IH, H.
Qed.

Lemma rendered_ids_new_wrappers (exts : list Addon) :
  rendered_ids (map (createExtensionWrapper g b) exts) = map id exts.
Proof. induction exts as [| a rest IH]; simpl; [reflexivity | now rewrite IH]. Qed.

End ReconcilerFacts.

(** Rendered containers never carry an id twice. *)
Lemma rendered_NoDup (c : Container) : rendered c -> NoDup (rendered_ids c).
Proof.
  induction 1 as [| g b c addons Hc IH Hids].
  - simpl. constructor.
  - unfold reconcile. now apply pass_ids_NoDup.
Qed.

(** Nor do they carry an empty id: the passes add ids of add-ons only. *)
Lemma userExtensions_have_ids (addons : list Addon) :
  have_ids addons -> ~ In ""%string (map id (userExtensions_of addons)).
Proof.
  intros Hids Hin. apply in_map_iff in Hin as [a [Ha Hin]].
  unfold userExtensions_of in Hin. apply filter_In in Hin as [Hin _].
  exact (Hids a Hin Ha).
Qed.

Lemma rendered_ids_not_empty (c : Container) :
  rendered c -> ~ In ""%string (rendered_ids c).
Proof.
  induction 1 as [| g b c addons Hc IH Hids].
  - simpl. tauto.
  - unfold reconcile. rewrite pass_ids_In.
    intros [Hin | [_ Hin]]; [exact (userExtensions_have_ids Hids Hin) | exact (IH Hin)].
Qed.

(** C6. With no extension rendered and the current extensions [A, B, C] of
    distinct ids, one reconciliation pass leaves the entries of C, B, A as the
    first children of the container, in that order, in front of what the
    container held: every extension [querySelector] does not find is inserted
    as the first child. *)
Theorem newest_extension_first
    (g b : string -> Lookup) (c : Container) (exts : list Addon) :
  rendered_ids c = [] ->
  NoDup (map id exts) ->
  (forall (c0 : Container) (d : ExtensionData) (a : Addon),
      querySelector_found c0 (id a) = false ->
      fst (process_addon g b (c0, d) a) = createExtensionWrapper g b a :: c0) /\
  fst (processExtensions g b c exts) = map (createExtensionWrapper g b) (rev exts) ++ c /\
  rendered_ids (fst (processExtensions g b c exts)) = rev (map id exts).
Proof.
  intros Hc Hnd.
  assert (Hpass : fst (processExtensions g b c exts)
                  = map (createExtensionWrapper g b) (rev exts) ++ c).
  { rewrite processExtensions_fst, loop_stacks; try assumption.
    - apply removeUninstalled_keeps_all. intros j Hj.
      rewrite rendered_ids_app, rendered_ids_new_wrappers, Hc, app_nil_r in Hj.
      rewrite map_rev in Hj. now apply in_rev.
    - intros a _. rewrite Hc. intros []. }
  split; [| split].
  - intros c0 d a E. unfold process_addon. simpl. now rewrite E.
  - exact Hpass.
  - rewrite Hpass, rendered_ids_app, rendered_ids_new_wrappers, Hc, app_nil_r.
    apply map_rev.
Qed.

Lemma newest_extension_first_witness :
  rendered_ids (fst (processExtensions no_policy no_policy
                                       initial_container [ext_A; ext_B; ext_C]))
  = ["c@example.org"; "b@example.org"; "a@example.org"]%string.
Proof.
  refine (proj2 (proj2 (newest_extension_first no_policy no_policy
                          initial_container [ext_A; ext_B; ext_C] eq_refl _))).
  repeat constructor; simpl; intuition discriminate.
Defined.

(** C1. After a reconciliation pass (the loop of [processExtensions], then
    [removeUninstalledExtensions]) over the current non-system extensions,
    against whatever the script rendered before from the add-on lists of the
    host (no add-on of which has an empty id, see [have_ids]), the
    [data-extension-id] values of the rendered entries are exactly the ids of
    the current non-system extensions: none is rendered twice, no entry of an
    extension that is gone is left, no current extension is missing. *)
Theorem reconcile_rendered_ids
    (g b : string -> Lookup) (c : Container) (addons : list Addon) :
  rendered c ->
  NoDup (rendered_ids (reconcile g b c addons)) /\
  (forall i, In i (rendered_ids (reconcile g b c addons)) <->
             In i (map id (userExtensions_of addons))).
Proof.
  intro Hr. unfold reconcile. split.
  - apply pass_ids_NoDup, rendered_NoDup, Hr.
  - intro i. rewrite pass_ids_In.
    pose proof (rendered_ids_not_empty Hr) as Hno. tauto.
Qed.

Lemma reconcile_rendered_ids_witness :
  NoDup (rendered_ids (reconcile no_policy no_policy
                         (reconcile no_policy no_policy initial_container
                                    [ext_A; ext_B; ext_C])
                         [ext_A; ext_C])) /\
  In "a@example.org"%string
     (rendered_ids (reconcile no_policy no_policy
                      (reconcile no_policy no_policy initial_container
                                 [ext_A; ext_B; ext_C])
                      [ext_A; ext_C])) /\
  ~ In "b@example.org"%string
       (rendered_ids (reconcile no_policy no_policy
                        (reconcile no_policy no_policy initial_container
                                   [ext_A; ext_B; ext_C])
                        [ext_A; ext_C])).
Proof.
  assert (Hids : have_ids [ext_A; ext_B; ext_C]).
  { intros a [Ha | [Ha | [Ha | []]]]; subst a; discriminate. }
  destruct (reconcile_rendered_ids no_policy no_policy [ext_A; ext_C]
              (rendered_pass no_policy no_policy rendered_initial Hids))
    as [Hnd Hexact].
  split; [exact Hnd | split].
  - apply Hexact. simpl. now left.
  - intro Hin. apply Hexact in Hin. simpl in Hin. intuition discriminate.
Defined.

(* ================================================================== *)
(** * Reasoning about the methods *)
(* ================================================================== *)

(** ** Relations kept along a run *)

#[export] Instance same_on_Frame {T} (f : World -> T) : Frame (same_on f).
Proof.
  split; unfold same_on.
  - reflexivity.
  - intros w1 w2 w3 H12 H23. now rewrite H23.
Qed.

#[export] Instance no_reopen_Frame : Frame no_reopen.
Proof.
  split; unfold no_reopen.
  - intro w. split; [reflexivity | trivial].
  - intros w1 w2 w3 [Hp12 Ho12] [Hp23 Ho23]. split; [congruence | auto].
Qed.

#[export] Instance dismissal_kept_Frame : Frame dismissal_kept.
Proof.
  split; unfold dismissal_kept.
  - intro w. repeat split; auto.
  - intros w1 w2 w3 [Hv12 [Hp12 Hn12]] [Hv23 [Hp23 Hn23]].
    repeat split; auto; congruence || lia.
Qed.

Section FrameRules.

Variable R : World -> World -> Prop.
Context {FR : Frame R}.

Lemma keeps_ret {A} (a : A) : keeps R (ret a).
Proof. intro w. apply frame_refl. Qed.

Lemma keeps_throw {A} : keeps R (@throw A).
Proof. intro w. apply frame_refl. Qed.

Lemma keeps_get : keeps R get.
Proof. intro w. apply frame_refl. Qed.

Lemma keeps_modify (f : World -> World) :
  (forall w, R w (f w)) -> keeps R (modify f).
Proof. intros H w. apply H. Qed.

Lemma keeps_fresh :
  (forall w, R w (set_nextHandle (S (nextHandle w)) w)) -> keeps R fresh.
Proof. intros H w. apply H. Qed.

Lemma keeps_bind {A B} (m : M A) (k : A -> M B) :
  keeps R m -> (forall a, keeps R (k a)) -> keeps R (bind m k).
Proof.
  intros Hm Hk w. unfold bind. specialize (Hm w).
  destruct (m w) as [[a |] w']; simpl in *.
  - eapply frame_trans; [exact Hm | apply Hk].
  - exact Hm.
Qed.

Lemma keeps_try_catch (body handler : M unit) :
  keeps R body -> keeps R handler -> keeps R (try_catch body handler).
Proof.
  intros Hb Hh w. unfold try_catch. specialize (Hb w).
  destruct (body w) as [[a |] w']; simpl in *.
  - exact Hb.
  - eapply frame_trans; [exact Hb | apply Hh].
Qed.

Lemma keeps_attempt (m : M unit) : keeps R m -> keeps R (attempt m).
Proof.
  intros Hm w. unfold attempt. specialize (Hm w).
  destruct (m w) as [[a |] w']; exact Hm.
Qed.

Lemma keeps_forEach {A} (body : A -> M unit) (xs : list A) :
  (forall x, keeps R (body x)) -> keeps R (forEach body xs).
Proof.
  intro Hb. induction xs as [| x rest IH]; simpl.
  - apply keeps_ret.
  - apply keeps_bind; [apply Hb | intros _; exact IH].
Qed.

End FrameRules.

(** ** Programs that never throw *)

Lemma completes_ret {A} (a : A) : completes (ret a).
Proof. intro w. now exists a. Qed.

Lemma completes_get : completes get.
Proof. intro w. now exists w. Qed.

Lemma completes_modify (f : World -> World) : completes (modify f).
Proof. intro w. now exists tt. Qed.

Lemma completes_fresh : completes fresh.
Proof. intro w. now exists (nextHandle w). Qed.

Lemma completes_bind {A B} (m : M A) (k : A -> M B) :
  completes m -> (forall a, completes (k a)) -> completes (bind m k).
Proof.
  intros Hm Hk w. unfold bind. destruct (Hm w) as [a Ha].
  destruct (m w) as [[a' |] w']; simpl in *; [apply Hk | discriminate].
Qed.

Lemma completes_try_catch (body handler : M unit) :
  completes handler -> completes (try_catch body handler).
Proof.
  intros Hh w. unfold try_catch.
  destruct (body w) as [[a |] w']; simpl; [now exists a | apply Hh].
Qed.

Lemma completes_attempt (m : M unit) : completes (attempt m).
Proof.
  intro w. unfold attempt. destruct (m w) as [[a |] w']; simpl; eauto.
Qed.

Lemma completes_forEach {A} (body : A -> M unit) (xs : list A) :
  (forall x, completes (body x)) -> completes (forEach body xs).
Proof.
  intro Hb. induction xs as [| x rest IH]; simpl.
  - apply completes_ret.
  - apply completes_bind; [apply Hb | intros _; exact IH].
Qed.

Lemma completes_call (env : Host) (c : HostCall) :
  throws env c = false -> completes (call env c).
Proof.
  intros H w. unfold call, bind, record, modify. simpl. rewrite H. now exists tt.
Qed.

(** After a program that never throws, the rest runs from the world it left. *)
Lemma exec_bind {A B} (m : M A) (k : A -> M B) (w : World) :
  completes m ->
  exists a, fst (m w) = Ok a /\ bind m k w = k a (snd (m w)).
Proof.
  intro Hm. destruct (Hm w) as [a Ha]. exists a. split; [exact Ha |].
  unfold bind. destruct (m w) as [[a' |] w']; simpl in *; congruence.
Qed.

(** ** Outcome and final world, step by step *)

Lemma wp_ret {A} (a : A) Q w : Q (Ok a) w -> wp (ret a) Q w.
Proof. trivial. Qed.

Lemma wp_throw {A} (Q : Res A -> World -> Prop) w : Q Thrown w -> wp throw Q w.
Proof. trivial. Qed.

Lemma wp_get Q w : Q (Ok w) w -> wp get Q w.
Proof. trivial. Qed.

Lemma wp_modify f Q w : Q (Ok tt) (f w) -> wp (modify f) Q w.
Proof. trivial. Qed.

Lemma wp_fresh Q w :
  Q (Ok (nextHandle w)) (set_nextHandle (S (nextHandle w)) w) -> wp fresh Q w.
Proof. trivial. Qed.

Lemma wp_bind {A B} (m : M A) (k : A -> M B) Q w :
  wp m (fun r w' => match r with
                    | Ok a => wp (k a) Q w'
                    | Thrown => Q Thrown w'
                    end) w ->
  wp (bind m k) Q w.
Proof.
  unfold wp, bind. destruct (m w) as [[a |] w']; trivial.
Qed.

Lemma wp_try_catch (body handler : M unit) Q w :
  wp body (fun r w' => match r with
                       | Ok a => Q (Ok a) w'
                       | Thrown => wp handler Q w'
                       end) w ->
  wp (try_catch body handler) Q w.
Proof.
  unfold wp, try_catch. destruct (body w) as [[a |] w']; trivial.
Qed.

Lemma wp_attempt (m : M unit) Q w :
  wp m (fun r w' => match r with
                    | Ok _ => Q (Ok true) w'
                    | Thrown => Q (Ok false) w'
                    end) w ->
  wp (attempt m) Q w.
Proof.
  unfold wp, attempt. destruct (m w) as [[a |] w']; trivial.
Qed.

Lemma wp_record e Q w : Q (Ok tt) (set_trace (trace w ++ [e]) w) -> wp (record e) Q w.
Proof. trivial. Qed.

(** A host call: recorded, then it returns or throws as the host decides. *)
Lemma wp_call (env : Host) (c : HostCall) Q w :
  (throws env c = false -> Q (Ok tt) (set_trace (trace w ++ [Called c]) w)) ->
  (throws env c = true -> Q Thrown (set_trace (trace w ++ [Called c]) w)) ->
  wp (call env c) Q w.
Proof.
  intros Hok Hthrow. unfold wp, call, bind, record, modify. simpl.
  destruct (throws env c); simpl; auto.
Qed.

(** A sub-program known by its outcome and by a fact on the world it leaves. *)
Lemma wp_of_facts {A} (m : M A) (a : A) (P : World -> Prop) Q w :
  fst (m w) = Ok a -> P (snd (m w)) -> (forall w', P w' -> Q (Ok a) w') -> wp m Q w.
Proof. intros Ha HP HQ. unfold wp. rewrite Ha. now apply HQ. Qed.

Lemma wp_mono {A} (m : M A) (Q Q' : Res A -> World -> Prop) w :
  wp m Q w -> (forall r w', Q r w' -> Q' r w') -> wp m Q' w.
Proof. unfold wp. auto. Qed.

(** A sub-program known by the relation it keeps. *)
Lemma wp_keeps {A} (R : World -> World -> Prop) (m : M A) Q w :
  keeps R m -> (forall r w', R w w' -> Q r w') -> wp m Q w.
Proof. intros Hk HQ. apply HQ, Hk. Qed.

(** The same for a sub-program that never throws. *)
Lemma wp_keeps_completes {A} (R : World -> World -> Prop) (m : M A) Q w :
  keeps R m -> completes m -> (forall a w', R w w' -> Q (Ok a) w') -> wp m Q w.
Proof.
  intros Hk Hc HQ. unfold wp. destruct (Hc w) as [a Ha]. rewrite Ha. apply HQ, Hk.
Qed.

(** ** Automation for frames *)

Create HintDb methods.
Create HintDb frame.
Create HintDb total.

#[export] Hint Unfold log logError emit call record modify_pm modify_doc
  addEventListener removeEventListener
  removeExistingPanel createContextMenu createPanel removePanelGlobalHandlers
  hidePanel addPanelGlobalHandlers onGlobalPointerDown onGlobalKeyDown dispatch
  getCurrentURI set_security_src updateSecurityStatus loadExtensions
  loadExtensions_resume refreshExtensions setupAddonListener
  setupAddonListenerIfNeeded notifyAddonListeners showPanel togglePanel
  getAddonByID read_isActive host_set_active addon_enable addon_disable
  host_uninstall update_rendered updateExtensionImageState toggleExtensionState
  openExtensionPopup openExtensionsPage ensureExtensionContextMenu
  setupExtensionMenuListeners showExtensionContextMenu hideExtensionContextMenu
  manageExtension pinExtensionToToolbar updateExtensions removeExtension
  reportExtension extensionMenuCommand showExtrasContextMenu clearCache
  clearCookies_primary clearCookies_fallback clearCookies manageExtensions
  showPagePermissions cleanup onUnload run_action lifecycle_step : methods.

(** The instance a frame rule asks for. *)
Ltac fr := try match goal with |- Frame _ => typeclasses eauto end.

(** The side condition of a write: the relation holds across it. *)
Ltac frame_side :=
  intros;
  first
    [ reflexivity
    | unfold no_reopen, dismissal_kept, dismissal_view, same_on; simpl;
      repeat split; solve [reflexivity | lia | congruence | trivial] ].

(** [keeps R m], by the structure of [m]. *)
Ltac frame :=
  repeat (intros;
    first
      [ solve [auto with frame]
      | apply keeps_ret; fr
      | apply keeps_throw; fr
      | apply keeps_get; fr
      | apply keeps_modify; fr; solve [frame_side]
      | apply keeps_fresh; fr; solve [frame_side]
      | apply keeps_bind; fr
      | apply keeps_try_catch; fr
      | apply keeps_attempt; fr
      | apply keeps_forEach; fr
      | match goal with
        | |- keeps _ (if ?c then _ else _) => destruct c
        | |- keeps _ (match ?x with _ => _ end) => destruct x
        end
      | progress autounfold with methods ]).

(** [completes m], by the structure of [m]; a host call completes when a
    hypothesis says it does not throw. *)
Ltac total :=
  repeat (intros;
    first
      [ solve [auto with total]
      | apply completes_ret
      | apply completes_get
      | apply completes_modify
      | apply completes_fresh
      | apply completes_attempt
      | apply completes_try_catch
      | apply completes_bind
      | apply completes_forEach
      | match goal with
        | H : forall c, throws ?e c = false |- context [throws ?e ?c] =>
            rewrite (H c)
        | H : throws ?e ?c = false |- context [throws ?e ?c] => rewrite H
        | |- completes (if ?c then _ else _) => destruct c
        | |- completes (match ?x with _ => _ end) => destruct x
        end
      | progress autounfold with methods ]).

(** Case analysis on every host call a goal still asks about. *)
Ltac host_cases env :=
  repeat match goal with
         | |- context [throws env ?c] => destruct (throws env c) eqn:?; cbn
         end.

(** Run the methods of a goal on the world it names. *)
Ltac run_methods :=
  unfold exec, wp; autounfold with methods;
  unfold try_catch, bind, modify, get, ret, throw; cbn.

Section MethodFrames.

Variable env : Host.

(** The cookie loops touch nothing but the trace. *)
Lemma keeps_primary_remove_all (R : World -> World -> Prop) {FR : Frame R}
    (cookies : list Cookie) :
  (forall w e, R w (set_trace (trace w ++ [e]) w)) ->
  forall n, keeps R (primary_remove_all env cookies n).
Proof.
  intro Htrace. induction cookies as [| c rest IH]; intro n; simpl.
  - apply keeps_ret; fr.
  - apply keeps_bind; fr.
    + apply keeps_attempt; fr. unfold call, record. apply keeps_bind; fr.
      * apply keeps_modify; fr. intro w. apply Htrace.
      * intros _. destruct (throws env (PrimaryRemove c));
          [apply keeps_throw; fr | apply keeps_ret; fr].
    + intros [|]; [apply IH |].
      apply keeps_bind; fr; [| intros _; apply IH].
      unfold log, record. apply keeps_modify; fr. intro w. apply Htrace.
Qed.

Lemma keeps_fallback_remove_each (R : World -> World -> Prop) {FR : Frame R}
    (cookies : list Cookie) :
  (forall w e, R w (set_trace (trace w ++ [e]) w)) ->
  forall n k, keeps R (fallback_remove_each env cookies n k).
Proof.
  intro Htrace. induction cookies as [| c rest IH]; intros n k; simpl.
  - apply keeps_ret; fr.
  - apply keeps_bind; fr.
    + apply keeps_attempt; fr. unfold call, record. apply keeps_bind; fr.
      * apply keeps_modify; fr. intro w. apply Htrace.
      * intros _. destruct (throws env (FallbackRemove c));
          [apply keeps_throw; fr | apply keeps_ret; fr].
    + intros [|]; apply IH.
Qed.

Lemma completes_primary_remove_all (cookies : list Cookie) :
  forall n, completes (primary_remove_all env cookies n).
Proof.
  induction cookies as [| c rest IH]; intro n; simpl.
  - apply completes_ret.
  - apply completes_bind; [apply completes_attempt |].
    intros [|]; [apply IH |].
    apply completes_bind; [apply completes_modify | intros _; apply IH].
Qed.

Lemma completes_fallback_remove_each (cookies : list Cookie) :
  forall n k, completes (fallback_remove_each env cookies n k).
Proof.
  induction cookies as [| c rest IH]; intros n k; simpl.
  - apply completes_ret.
  - apply completes_bind; [apply completes_attempt | intros [|]; apply IH].
Qed.

End MethodFrames.

#[export] Hint Resolve completes_primary_remove_all completes_fallback_remove_each : total.

Section HandlerFrames.

Variable env : Host.

(** No action handler opens the panel or replaces its element. *)
Lemma keeps_no_reopen_hidePanel : keeps no_reopen hidePanel.
Proof. frame. Qed.

Lemma keeps_no_reopen_action (a : Action) : keeps no_reopen (run_action env a).
Proof.
  destruct a; frame;
    solve [ apply keeps_primary_remove_all; [typeclasses eauto | frame_side]
          | apply keeps_fallback_remove_each; [typeclasses eauto | frame_side] ].
Qed.

End HandlerFrames.

(* ================================================================== *)
(** * The panel lifecycle *)
(* ================================================================== *)

#[export] Instance preserving_Frame (P : World -> Prop) : Frame (preserving P).
Proof. split; unfold preserving; auto. Qed.

Lemma filter_swap {A} (f h : A -> bool) (l : list A) :
  filter f (filter h l) = filter h (filter f l).
Proof.
  induction l as [| x rest IH]; simpl; [reflexivity |].
  destruct (f x) eqn:Ef, (h x) eqn:Eh; simpl; rewrite ?Ef, ?Eh, IH; reflexivity.
Qed.

(** A listener object newer than all registered ones is not registered. *)
Lemma fresh_not_registered (t : EventType) (n : Handle) (capture : bool)
    (ls : list Listener) :
  (forall l, In l ls -> l_callback l < n) ->
  existsb (Listener_eqb (mkListener t n capture)) ls = false.
Proof.
  intro H. induction ls as [| l rest IH]; simpl; [reflexivity |].
  rewrite IH by (intros l' Hl'; apply H; now right).
  assert (Hl : l_callback l < n) by (apply H; now left).
  unfold Listener_eqb. simpl.
  replace (Nat.eqb n (l_callback l)) with false
    by (symmetry; apply Nat.eqb_neq; lia).
  now rewrite andb_false_r.
Qed.

Lemma dismissal_listeners_set_listeners (ls : list Listener) (w : World) :
  dismissal_listeners (set_listeners ls w) =
  filter (fun l => match l_type l with
                   | PointerDown | KeyDown => true
                   | Unload | DOMContentLoaded => false
                   end) ls.
Proof. reflexivity. Qed.

(** The world [initializeURLBarModifier] leaves is a closed panel without
    dismissal listeners. *)
Lemma lifecycle_inv_initial (d : Document) (installed : list Addon) :
  lifecycle_inv (initial_world d installed).
Proof.
  split; simpl.
  - intros l [H | [H | []]]; subst; simpl; lia.
  - repeat split; reflexivity.
Qed.

(** [hidePanel] closes the panel and takes its two listeners off the window. *)
Lemma hidePanel_spec (w : World) :
  lifecycle_inv w ->
  fst (hidePanel w) = Ok tt /\
  lifecycle_inv (exec hidePanel w) /\
  isOpen (pm (exec hidePanel w)) = false /\
  panel (pm (exec hidePanel w)) = panel (pm w) /\
  lastAnchorButton (pm (exec hidePanel w)) = lastAnchorButton (pm w).
Proof.
  intros [Hfresh Hinv].
  destruct w as [m d ls ads als nh pl tr].
  destruct m as [p o ed al ex exm cm cid bp bk la].
  unfold lifecycle_inv, exec, dismissal_listeners in *. simpl in *.
  destruct o.
  - destruct Hinv as [Hp [Hla [hp [hk [Hbp [Hbk Hd]]]]]]. subst bp bk.
    destruct p as [p |]; [| congruence].
    cbn. repeat split; try reflexivity.
    + intros l Hl. apply filter_In in Hl as [Hl _]. apply filter_In in Hl as [Hl _].
      now apply Hfresh.
    + rewrite filter_swap, (filter_swap _ _ ls), Hd.
      cbn. unfold Listener_eqb. cbn. rewrite !Nat.eqb_refl. cbn.
      rewrite ?Nat.eqb_refl. reflexivity.
  - destruct Hinv as [Hbp [Hbk Hd]]. subst bp bk.
    destruct p; cbn; repeat split; try reflexivity; assumption.
Qed.

(** [addPanelGlobalHandlers] on a manager whose two fields are set does
    nothing. *)
Lemma addPanelGlobalHandlers_bound (w : World) :
  boundOnGlobalPointerDown (pm w) <> None ->
  addPanelGlobalHandlers w = (Ok tt, w).
Proof.
  intro H. unfold addPanelGlobalHandlers, bind, get.
  destruct (boundOnGlobalPointerDown (pm w)); [reflexivity | congruence].
Qed.

(** On a manager with neither field set it registers two new listeners. *)
Lemma addPanelGlobalHandlers_unbound (w : World) :
  boundOnGlobalPointerDown (pm w) = None ->
  boundOnGlobalKeyDown (pm w) = None ->
  (forall l, In l (listeners w) -> l_callback l < nextHandle w) ->
  let w' := exec addPanelGlobalHandlers w in
  fst (addPanelGlobalHandlers w) = Ok tt /\
  boundOnGlobalPointerDown (pm w') = Some (nextHandle w) /\
  boundOnGlobalKeyDown (pm w') = Some (S (nextHandle w)) /\
  listeners w' = listeners w ++ [mkListener PointerDown (nextHandle w) true;
                                 mkListener KeyDown (S (nextHandle w)) true] /\
  nextHandle w' = S (S (nextHandle w)) /\
  isOpen (pm w') = isOpen (pm w) /\
  panel (pm w') = panel (pm w) /\
  lastAnchorButton (pm w') = lastAnchorButton (pm w).
Proof.
  intros Hbp Hbk Hfresh.
  destruct w as [m d ls ads als nh pl tr].
  destruct m as [p o ed al ex exm cm cid bp bk la].
  simpl in *. subst bp bk.
  unfold exec, addPanelGlobalHandlers, bind, get, fresh, modify_pm, modify,
    addEventListener. cbn.
  rewrite (fresh_not_registered PointerDown true ls Hfresh). cbn.
  rewrite existsb_app, (fresh_not_registered KeyDown true ls)
    by (intros l Hl; specialize (Hfresh l Hl); lia).
  cbn. rewrite <- app_assoc. repeat split; reflexivity.
Qed.

(** One step of a run by its rule, with what the rule leaves reduced. *)
Ltac wp_step :=
  lazymatch goal with
  | |- wp (bind _ _) _ _ => apply wp_bind
  | |- wp (ret _) _ _ => apply wp_ret
  | |- wp get _ _ => apply wp_get
  | |- wp (modify _) _ _ => apply wp_modify
  | |- wp throw _ _ => apply wp_throw
  | |- wp (try_catch _ _) _ _ => apply wp_try_catch
  | |- wp fresh _ _ => apply wp_fresh
  | |- wp (record _) _ _ => apply wp_record
  | |- wp (attempt _) _ _ => apply wp_attempt
  end;
  cbv beta iota.

(** The invariant only reads what [dismissal_kept] keeps. *)
Lemma lifecycle_inv_kept (w w' : World) :
  lifecycle_inv w -> dismissal_kept w w' -> lifecycle_inv w'.
Proof.
  intros [Hfresh Hinv] [Hv [Hp Hn]].
  unfold dismissal_view in Hv. injection Hv as Ho Hbp Hbk Hla Hls.
  unfold lifecycle_inv, dismissal_listeners in *.
  rewrite Ho, Hbp, Hbk, Hla, Hls. split.
  - intros l Hl. specialize (Hfresh l Hl). lia.
  - destruct (isOpen (pm w)); [| exact Hinv].
    destruct Hinv as [Hpanel rest]. split; [auto | exact rest].
Qed.

Lemma lifecycle_inv_set_trace (t : list Effect) (w : World) :
  lifecycle_inv w -> lifecycle_inv (set_trace t w).
Proof. intro H. exact H. Qed.

Section Lifecycle.

Variable env : Host.

Lemma keeps_dismissal_createPanel : keeps dismissal_kept createPanel.
Proof. frame. Qed.

Lemma completes_createPanel : completes createPanel.
Proof. total. Qed.

Lemma keeps_dismissal_setupAddonListenerIfNeeded :
  keeps dismissal_kept setupAddonListenerIfNeeded.
Proof. frame. Qed.

Lemma completes_setupAddonListenerIfNeeded : completes setupAddonListenerIfNeeded.
Proof. total. Qed.

Lemma keeps_dismissal_loadExtensions : keeps dismissal_kept (loadExtensions env).
Proof. frame. Qed.

Lemma completes_loadExtensions : completes (loadExtensions env).
Proof. total. Qed.

Lemma keeps_dismissal_updateSecurityStatus :
  keeps dismissal_kept (updateSecurityStatus env).
Proof. frame. Qed.

Lemma completes_updateSecurityStatus : completes (updateSecurityStatus env).
Proof. total. Qed.

(** Registering the listeners for a panel just marked open restores the
    invariant, whether they were already there or not. *)
Lemma addPanelGlobalHandlers_opened (w : World) :
  (forall l, In l (listeners w) -> l_callback l < nextHandle w) ->
  isOpen (pm w) = true ->
  panel (pm w) <> None ->
  lastAnchorButton (pm w) <> None ->
  (boundOnGlobalPointerDown (pm w) = None /\
   boundOnGlobalKeyDown (pm w) = None /\ dismissal_listeners w = []) \/
  (exists hp hk,
      boundOnGlobalPointerDown (pm w) = Some hp /\
      boundOnGlobalKeyDown (pm w) = Some hk /\
      dismissal_listeners w = [mkListener PointerDown hp true;
                               mkListener KeyDown hk true]) ->
  fst (addPanelGlobalHandlers w) = Ok tt /\
  lifecycle_inv (exec addPanelGlobalHandlers w).
Proof.
  intros Hfresh Ho Hp Hla [[Hbp [Hbk Hd]] | [hp [hk [Hbp [Hbk Hd]]]]].
  - destruct (addPanelGlobalHandlers_unbound w Hbp Hbk Hfresh)
      as [Hok [Hbp' [Hbk' [Hls [Hn [Ho' [Hp' Hla']]]]]]].
    split; [exact Hok |].
    unfold lifecycle_inv, dismissal_listeners in *.
    rewrite Ho', Ho, Hp', Hla', Hls, Hn. split.
    + intros l Hl. apply in_app_or in Hl as [Hl | Hl].
      * specialize (Hfresh l Hl). lia.
      * simpl in Hl. destruct Hl as [Hl | [Hl | []]]; subst l; simpl; lia.
    + repeat split; try assumption.
      exists (nextHandle w), (S (nextHandle w)).
      repeat split; try assumption.
      rewrite filter_app, Hd. reflexivity.
  - unfold exec. rewrite addPanelGlobalHandlers_bound by congruence.
    split; [reflexivity |].
    unfold lifecycle_inv. simpl. rewrite Ho.
    split; [exact Hfresh |]. repeat split; try assumption.
    exists hp, hk. auto.
Qed.

(** [showPanel] never throws and keeps the PanelState invariant. *)
Lemma showPanel_spec (targetButton : option Elem) (w : World) :
  lifecycle_inv w ->
  fst (showPanel env targetButton w) = Ok tt /\
  lifecycle_inv (exec (showPanel env targetButton) w).
Proof.
  intro Hinv.
  change (wp (showPanel env targetButton)
             (fun r w' => r = Ok tt /\ lifecycle_inv w') w).
  unfold showPanel. wp_step. wp_step. wp_step.
  apply (@wp_keeps_completes _ dismissal_kept).
  { destruct (isSome (panel (pm w)));
      [apply keeps_ret; fr | apply keeps_dismissal_createPanel]. }
  { destruct (isSome (panel (pm w)));
      [apply completes_ret | apply completes_createPanel]. }
  intros _ w1 H1. pose proof (lifecycle_inv_kept Hinv H1) as Hinv1.
  wp_step. wp_step.
  destruct (panel (pm w1)) as [p |] eqn:Hp1;
    [destruct targetButton as [anchor |] |]; try (wp_step; now split).
  wp_step.
  apply (@wp_keeps_completes _ dismissal_kept);
    [apply keeps_dismissal_setupAddonListenerIfNeeded
    | apply completes_setupAddonListenerIfNeeded |].
  intros _ w2 H2. wp_step.
  apply (@wp_keeps_completes _ dismissal_kept);
    [apply keeps_dismissal_loadExtensions | apply completes_loadExtensions |].
  intros _ w3 H3. wp_step.
  apply (@wp_keeps_completes _ dismissal_kept);
    [apply keeps_dismissal_updateSecurityStatus
    | apply completes_updateSecurityStatus |].
  intros _ w4 H4.
  assert (H14 : dismissal_kept w1 w4)
    by (eapply frame_trans; [exact H2 | eapply frame_trans; eassumption]).
  pose proof (lifecycle_inv_kept Hinv1 H14) as [Hfresh4 Hinv4].
  destruct H14 as [_ [Hp14 _]].
  assert (Hp4 : panel (pm w4) <> None) by (apply Hp14; congruence).
  unfold emit, modify_pm.
  wp_step. wp_step. wp_step. wp_step. wp_step. wp_step. wp_step.
  match goal with |- wp addPanelGlobalHandlers _ ?w5 =>
    destruct (@addPanelGlobalHandlers_opened w5) as [Hok Hinv5]
  end.
  - exact Hfresh4.
  - reflexivity.
  - exact Hp4.
  - simpl. congruence.
  - simpl. unfold dismissal_listeners in *. simpl.
    destruct (isOpen (pm w4)).
    + right. destruct Hinv4 as [_ [_ H]]. exact H.
    + left. exact Hinv4.
  - eapply wp_of_facts; [exact Hok | exact Hinv5 |].
    intros w6 Hinv6. cbv beta iota. unfold log. wp_step.
    split; [reflexivity | exact Hinv6].
Qed.

Lemma keeps_inv_hidePanel : keeps (preserving lifecycle_inv) hidePanel.
Proof. intros w Hinv. apply hidePanel_spec, Hinv. Qed.

Lemma keeps_inv_showPanel (targetButton : option Elem) :
  keeps (preserving lifecycle_inv) (showPanel env targetButton).
Proof. intros w Hinv. apply showPanel_spec, Hinv. Qed.

Hint Resolve keeps_inv_hidePanel keeps_inv_showPanel : frame.

(** Every lifecycle event keeps the PanelState invariant. *)
Lemma keeps_inv_lifecycle_step (e : LifecycleEvent) :
  keeps (preserving lifecycle_inv) (lifecycle_step env e).
Proof.
  destruct e; unfold lifecycle_step, togglePanel, dispatch, onGlobalPointerDown,
    onGlobalKeyDown; frame.
Qed.

End Lifecycle.

Lemma run_lifecycle_inv (events : list (Host * LifecycleEvent)) :
  forall w, lifecycle_inv w -> lifecycle_inv (run_lifecycle events w).
Proof.
  induction events as [| [env e] rest IH]; intros w Hinv; simpl.
  - exact Hinv.
  - apply IH. now apply (keeps_inv_lifecycle_step env e).
Qed.

(** C2. After any sequence of [showPanel], [hidePanel] and [togglePanel]
    calls and of pointer-down and key-down events on the window, started
    from the world the script initialises: a closed panel has no global
    dismissal listener registered, an open one has exactly two, one for
    pointer-down and one for key-down, and there are never more than two. *)
Theorem dismissal_listeners_balanced
    (d : Document) (installed : list Addon) (events : list (Host * LifecycleEvent)) :
  let w := run_lifecycle events (initial_world d installed) in
  (isOpen (pm w) = false -> dismissal_listeners w = []) /\
  (isOpen (pm w) = true ->
   exists hp hk,
     dismissal_listeners w = [mkListener PointerDown hp true;
                              mkListener KeyDown hk true]) /\
  List.length (dismissal_listeners w) <= 2.
Proof.
  intro w.
  assert (Hinv : lifecycle_inv w)
    by (apply run_lifecycle_inv, lifecycle_inv_initial).
  destruct Hinv as [_ Hinv].
  destruct (isOpen (pm w)).
  - destruct Hinv as [_ [_ [hp [hk [_ [_ Hd]]]]]].
    repeat split; try discriminate.
    + intros _. now exists hp, hk.
    + rewrite Hd. simpl. lia.
  - destruct Hinv as [_ [_ Hd]].
    repeat split; try discriminate.
    + intros _. exact Hd.
    + rewrite Hd. simpl. lia.
Qed.

(** Without [#mainPopupSet], [createPanel] drops what markup there was, logs,
    and leaves the manager as it found it. *)
Lemma createPanel_without_popupSet (w : World) :
  mainPopupSet (doc w) = false ->
  createPanel w =
  (Ok tt,
   set_trace (trace w ++ [LoggedError "mainPopupSet not found"])
     (set_doc (set_extrasContextMenu false (set_panelDom None (doc w))) w)).
Proof.
  intro H. destruct w as [m d ls ads als nh pl tr].
  destruct d as [mps pd ecm xcm ipb]. simpl in H. subst mps. reflexivity.
Qed.

(** C10. [showPanel] with a null anchor, or without a panel and without
    [#mainPopupSet] to build one in, completes without opening anything:
    [isOpen], the window's listeners, the two bound handlers and
    [lastAnchorButton] are what they were, so a closed panel stays closed
    with no dismissal listener, and the PanelState invariant is kept. *)
Theorem showPanel_degenerate (env : Host) (targetButton : option Elem) (w : World) :
  targetButton = None \/ (panel (pm w) = None /\ mainPopupSet (doc w) = false) ->
  let w' := exec (showPanel env targetButton) w in
  fst (showPanel env targetButton w) = Ok tt /\
  isOpen (pm w') = isOpen (pm w) /\
  listeners w' = listeners w /\
  boundOnGlobalPointerDown (pm w') = boundOnGlobalPointerDown (pm w) /\
  boundOnGlobalKeyDown (pm w') = boundOnGlobalKeyDown (pm w) /\
  lastAnchorButton (pm w') = lastAnchorButton (pm w) /\
  (isOpen (pm w) = false -> isOpen (pm w') = false) /\
  (lifecycle_inv w -> lifecycle_inv w').
Proof.
  intros Hdeg w'.
  assert (H : fst (showPanel env targetButton w) = Ok tt /\
              dismissal_view w' = dismissal_view w).
  { subst w'.
    change (wp (showPanel env targetButton)
               (fun r w1 => r = Ok tt /\ dismissal_view w1 = dismissal_view w) w).
    unfold showPanel. wp_step. wp_step. wp_step.
    destruct Hdeg as [Hb | [Hp Hm]].
    - subst targetButton.
      apply (@wp_keeps_completes _ dismissal_kept).
      { destruct (isSome (panel (pm w)));
          [apply keeps_ret; fr | apply keeps_dismissal_createPanel]. }
      { destruct (isSome (panel (pm w)));
          [apply completes_ret | apply completes_createPanel]. }
      intros _ w1 [Hv _]. wp_step. wp_step.
      destruct (panel (pm w1)); wp_step; now split.
    - rewrite Hp. cbn [isSome]. unfold wp at 1.
      rewrite (createPanel_without_popupSet w Hm). cbn [fst snd].
      wp_step. wp_step. cbn. rewrite Hp. wp_step. now split. }
  destruct H as [Hok Hv]. unfold dismissal_view in Hv.
  injection Hv as Ho Hbp Hbk Hla Hls.
  refine (conj Hok (conj Ho (conj Hls (conj Hbp (conj Hbk (conj Hla (conj _ _))))))).
  - intro Hc. now rewrite Ho.
  - intro Hinv. now apply showPanel_spec.
Qed.

Lemma showPanel_degenerate_witness :
  isOpen (pm (exec (showPanel quiet_host None) sample_world)) = false /\
  dismissal_listeners (exec (showPanel quiet_host None) sample_world) = [].
Proof.
  destruct (@showPanel_degenerate quiet_host None sample_world (or_introl eq_refl))
    as [_ [Ho [Hls _]]].
  split.
  - rewrite Ho. reflexivity.
  - unfold dismissal_listeners. rewrite Hls. reflexivity.
Defined.

(** C9, as the code has it.  [cleanup] never throws; it takes the add-on
    listener off AddonManager when one is registered, clears the tracked
    context menu and the extras flag, and leaves the window's listeners and
    the two bound dismissal handlers as they were.  A second call changes
    nothing. *)
Theorem cleanup_spec (w : World) :
  let w' := exec cleanup w in
  fst (cleanup w) = Ok tt /\
  addonListener (pm w') = None /\
  (forall h, addonListener (pm w) = Some h -> ~ In h (addonListeners w')) /\
  (addonListener (pm w) = None -> addonListeners w' = addonListeners w) /\
  currentContextMenu (pm w') = None /\
  currentContextMenuExtensionId (pm w') = None /\
  extrasMenuListenersSetup (pm w') = false /\
  dismissal_view w' = dismissal_view w /\
  fst (cleanup w') = Ok tt /\
  state_view (exec cleanup w') = state_view w'.
Proof.
  destruct w as [m d ls ads als nh pl tr].
  destruct m as [p o ed al ex exm cm cid bp bk la].
  destruct d as [mps pd ecm xcm ipb].
  destruct al as [h |], xcm; cbn; repeat split; try reflexivity;
    try (intros h' Hh'; inversion Hh'; subst h'; intro Hin;
         apply filter_In in Hin as [_ Hin];
         rewrite Nat.eqb_refl in Hin; discriminate);
    try discriminate.
Qed.

(** C9, as stated, fails: when the window unloads with the panel open,
    [cleanup] leaves both global dismissal listeners on the window. *)
Lemma cleanup_leaves_dismissal_listeners :
  ~ (forall w : World,
        lifecycle_inv w ->
        dismissal_listeners (exec onUnload w) = [] /\
        addonListener (pm (exec onUnload w)) = None).
Proof.
  intro H.
  assert (Hinv : lifecycle_inv (exec (showPanel quiet_host the_button) sample_world))
    by (apply showPanel_spec, lifecycle_inv_initial).
  destruct (H _ Hinv) as [Hd _].
  vm_compute in Hd. discriminate.
Qed.

(* ================================================================== *)
(** * The extension context menu *)
(* ================================================================== *)

Section MenuFrames.

Variable env : Host.

(** Only a right click on an entry and the unload of the window write the
    tracked menu and id: every other handler leaves both as they are. *)
Lemma keeps_tracked_menu_step (e : PanelEvent) :
  other_event e = true -> keeps (same_on tracked_menu) (panel_step env e).
Proof.
  destruct e as [e | a | i | item | | | what |]; try discriminate; intros _;
    unfold panel_step.
  - destruct e; frame.
    all: intros; apply keeps_modify; fr; intro w;
      unfold same_on; destruct (existsb _ _); reflexivity.
  - destruct a; frame;
      solve [ apply keeps_primary_remove_all; [typeclasses eauto | frame_side]
            | apply keeps_fallback_remove_each; [typeclasses eauto | frame_side] ].
  - destruct item; frame.
  - frame.
  - frame.
  - frame.
Qed.

(** Opening the menu records the id, given [#mainPopupSet], and the menu
    when the popup call returns. *)
Lemma showExtensionContextMenu_tracks (extensionId : string) (w : World) :
  mainPopupSet (doc w) = true ->
  currentContextMenuExtensionId (pm (exec (showExtensionContextMenu env extensionId) w))
  = Some extensionId /\
  (throws env ExtensionMenuOpenPopup = false ->
   currentContextMenu (pm (exec (showExtensionContextMenu env extensionId) w))
   = Some "extension-context-menu").
Proof.
  intro Hm.
  destruct w as [m d ls ads als nh pl tr].
  destruct m as [p o ed al ex exm cm cid bp bk la].
  destruct d as [mps pd ecm xcm ipb]. simpl in Hm. subst mps.
  run_methods. destruct xcm, exm; cbn;
    destruct (throws env ExtensionMenuOpenPopup); split; try reflexivity; discriminate.
Qed.

(** Without [#mainPopupSet] it returns before the write. *)
Lemma showExtensionContextMenu_without_popupSet (extensionId : string) (w : World) :
  mainPopupSet (doc w) = false ->
  tracked_menu (exec (showExtensionContextMenu env extensionId) w) = tracked_menu w.
Proof.
  intro Hm.
  destruct w as [m d ls ads als nh pl tr].
  destruct d as [mps pd ecm xcm ipb]. simpl in Hm. subst mps.
  reflexivity.
Qed.

(** The listener of a menu item reads the tracked id and hands it to its
    handler; an empty id, like no id, is falsy. *)
Lemma extensionMenuCommand_tracked (item : MenuItem) (w : World) :
  extensionMenuCommand env item w =
  match currentContextMenuExtensionId (pm w) with
  | Some i =>
      if truthy i then run_action env (action_of_item item i) w else (Ok tt, w)
  | None => (Ok tt, w)
  end.
Proof.
  unfold extensionMenuCommand, bind, get. cbn beta iota.
  destruct (currentContextMenuExtensionId (pm w)) as [i |]; [| reflexivity].
  destruct (truthy i); [destruct item |]; reflexivity.
Qed.

Lemma hideExtensionContextMenu_clears (w : World) :
  tracked_menu (exec hideExtensionContextMenu w) = (None, None).
Proof.
  destruct (extensionContextMenu (doc w)) eqn:E;
    unfold exec, hideExtensionContextMenu, bind, get; rewrite E; reflexivity.
Qed.

Lemma cleanup_clears_tracked_menu (w : World) :
  tracked_menu (exec cleanup w) = (None, None).
Proof.
  destruct w as [m d ls ads als nh pl tr].
  destruct m as [p o ed al ex exm cm cid bp bk la].
  destruct d as [mps pd ecm xcm ipb].
  destruct al, xcm; reflexivity.
Qed.

End MenuFrames.

(** Along events other than a right click and the unload, each with the host
    of its time, the tracked menu and id stay what they were. *)
Lemma run_panel_tracked_menu (events : list (Host * PanelEvent)) :
  forallb (fun e => other_event (snd e)) events = true ->
  forall w, tracked_menu (run_panel events w) = tracked_menu w.
Proof.
  induction events as [| [env e] rest IH]; intros Hall w; cbn [run_panel fold_left].
  - reflexivity.
  - cbn [forallb fst snd] in Hall. apply andb_true_iff in Hall as [He Hrest].
    change (tracked_menu (run_panel rest (exec (panel_step env e) w)) = tracked_menu w).
    rewrite (IH Hrest). apply (keeps_tracked_menu_step env e He w).
Qed.

(** C4, as the code has it.  With [#mainPopupSet] present, a right click on
    an entry records its id whatever was tracked before (from closed or from
    open for another extension), even when the popup call throws, and the
    menu too when that call returns.  Every handler other than a right click
    and the unload leaves the tracked menu and id as they are, and no handler
    but the unload clears the id.  So after any such events a command of the
    menu runs its handler on the id of the last right click (on nothing when
    that id is empty or none is tracked) and leaves it tracked.  Only
    [hideExtensionContextMenu], which [cleanup] calls, clears the tracked menu
    and id. *)
Theorem extension_menu_tracking
    (env : Host) (w : World) (extensionId : string) (item : MenuItem)
    (events : list (Host * PanelEvent)) :
  mainPopupSet (doc w) = true ->
  forallb (fun e => other_event (snd e)) events = true ->
  let opened := exec (showExtensionContextMenu env extensionId) w in
  let later := run_panel events opened in
  currentContextMenuExtensionId (pm opened) = Some extensionId /\
  (throws env ExtensionMenuOpenPopup = false ->
   currentContextMenu (pm opened) = Some "extension-context-menu") /\
  (forall e, other_event e = true ->
             tracked_menu (exec (panel_step env e) w) = tracked_menu w) /\
  (forall e, is_unload e = false ->
             currentContextMenuExtensionId (pm w) <> None ->
             currentContextMenuExtensionId (pm (exec (panel_step env e) w)) <> None) /\
  currentContextMenuExtensionId (pm later) = Some extensionId /\
  extensionMenuCommand env item later
  = (if truthy extensionId
     then run_action env (action_of_item item extensionId) later
     else (Ok tt, later)) /\
  currentContextMenuExtensionId (pm (exec (extensionMenuCommand env item) later))
  = Some extensionId /\
  (currentContextMenuExtensionId (pm w) = None ->
   extensionMenuCommand env item w = (Ok tt, w)) /\
  tracked_menu (exec hideExtensionContextMenu w) = (None, None) /\
  tracked_menu (exec cleanup w) = (None, None).
Proof.
  intros Hm Hall opened later.
  destruct (showExtensionContextMenu_tracks env extensionId w Hm) as [Hid Hmenu].
  assert (Hstep : forall e v, other_event e = true ->
            tracked_menu (exec (panel_step env e) v) = tracked_menu v).
  { intros e v He. apply (keeps_tracked_menu_step env e He v). }
  assert (Hlater : currentContextMenuExtensionId (pm later) = Some extensionId).
  { pose proof (run_panel_tracked_menu events Hall opened) as H.
    unfold tracked_menu in H. injection H as _ H. fold later in H.
    rewrite H. exact Hid. }
  refine (conj Hid (conj Hmenu (conj (fun e He => Hstep e w He) (conj _
           (conj Hlater (conj _ (conj _ (conj _
             (conj (hideExtensionContextMenu_clears w)
                   (cleanup_clears_tracked_menu w)))))))))).
  - intros e Hu Hsome.
    destruct (is_right_click e) eqn:Hr.
    + destruct e; try discriminate. cbn [panel_step].
      rewrite (proj1 (showExtensionContextMenu_tracks env _ w Hm)). discriminate.
    + assert (He : other_event e = true) by (unfold other_event; now rewrite Hr, Hu).
      pose proof (Hstep e w He) as H. unfold tracked_menu in H. injection H as _ H.
      now rewrite H.
  - rewrite extensionMenuCommand_tracked, Hlater. reflexivity.
  - pose proof (Hstep (EvMenuCommand item) later eq_refl) as H.
    unfold tracked_menu in H. injection H as _ H. cbn [panel_step] in H.
    now rewrite H.
  - intro Hnone. rewrite extensionMenuCommand_tracked, Hnone. reflexivity.
Qed.

Lemma extension_menu_tracking_witness :
  currentContextMenuExtensionId
    (pm (run_panel [(quiet_host, EvLifecycle (CallShowPanel the_button));
                    (quiet_host, EvLoadResumed);
                    (quiet_host, EvMenuCommand ItemReport);
                    (quiet_host, EvAddonChanged "enabled: Beta")]
           (exec (showExtensionContextMenu quiet_host "a@example.org")
              (exec (showExtensionContextMenu quiet_host "b@example.org")
                    sample_world))))
  = Some "a@example.org".
Proof.
  refine (proj1 (proj2 (proj2 (proj2 (proj2
           (@extension_menu_tracking quiet_host
              (exec (showExtensionContextMenu quiet_host "b@example.org") sample_world)
              "a@example.org" ItemManage
              [(quiet_host, EvLifecycle (CallShowPanel the_button));
               (quiet_host, EvLoadResumed);
               (quiet_host, EvMenuCommand ItemReport);
               (quiet_host, EvAddonChanged "enabled: Beta")]
              _ _)))))); reflexivity.
Defined.

(** C4, as stated, fails: after the menu was opened for an extension and its
    Pin command has run, the extension id is still tracked. *)
Lemma menu_command_keeps_tracked_id :
  ~ (forall (env : Host) (w : World) (extensionId : string) (item : MenuItem),
        mainPopupSet (doc w) = true ->
        currentContextMenuExtensionId
          (pm (exec (extensionMenuCommand env item)
                    (exec (showExtensionContextMenu env extensionId) w)))
        = None).
Proof.
  intro H.
  specialize (H quiet_host sample_world "a@example.org"%string ItemPin eq_refl).
  vm_compute in H. discriminate.
Qed.

(* ================================================================== *)
(** * The security status indicator *)
(* ================================================================== *)

(** C7. [updateSecurityStatus] never throws.  Without the status image or
    without the identity permission box it logs one line and changes nothing
    else.  With both, the image's [src] is the active icon when the box has a
    sharing indicator; else the warning icon when it has a permissions
    indicator; else, by the scheme of the current URI, the secure icon for
    https, the insecure one for http and the default one for anything else or
    for no URI. *)
Theorem security_status_icon (env : Host) (w : World) :
  let w' := exec (updateSecurityStatus env) w in
  fst (updateSecurityStatus env w) = Ok tt /\
  (panelDom (doc w) = None \/ identityPermissionBox (doc w) = None ->
   state_view w' = state_view w /\
   exists message, trace w' = trace w ++ [Logged message]) /\
  (forall box,
      panelDom (doc w) <> None ->
      identityPermissionBox (doc w) = Some box ->
      (hasSharingIcon box = true -> security_src_of w' = Some ICON_ACTIVE) /\
      (hasSharingIcon box = false -> hasPermissions box = true ->
       security_src_of w' = Some ICON_WARNING) /\
      (hasSharingIcon box = false -> hasPermissions box = false ->
       throws env GetCurrentURI = false ->
       match currentURI env with
       | Some u =>
           (scheme u = "https"%string -> security_src_of w' = Some ICON_SECURE) /\
           (scheme u = "http"%string -> security_src_of w' = Some ICON_INSECURE) /\
           (scheme u <> "https"%string -> scheme u <> "http"%string ->
            security_src_of w' = Some ICON_DEFAULT)
       | None => security_src_of w' = Some ICON_DEFAULT
       end)).
Proof.
  intro w'. split; [| split].
  - destruct (completes_updateSecurityStatus env w) as [[] H]. exact H.
  - subst w'. destruct w as [m d ls ads als nh pl tr].
    destruct d as [mps pd ecm xcm ipb]. simpl.
    intros [H | H]; subst.
    + split; [reflexivity | eexists; reflexivity].
    + destruct pd; (split; [reflexivity | eexists; reflexivity]).
  - subst w'. destruct w as [m d ls ads als nh pl tr].
    destruct d as [mps pd ecm xcm ipb]. simpl.
    intros [s p] Hpd Hbox. subst ipb. destruct pd as [pd |]; [| congruence].
    simpl. split; [| split].
    + intro Hs. subst s. reflexivity.
    + intros Hs Hp. subst s p. reflexivity.
    + intros Hs Hp Hthrow. subst s p.
      unfold security_src_of, exec, updateSecurityStatus, try_catch, bind, get,
        getCurrentURI, call, record, modify, set_security_src, modify_doc, log, ret.
      cbn. rewrite Hthrow. cbn.
      destruct (currentURI env) as [u |]; [| reflexivity].
      split; [| split].
      * intro Hu. rewrite Hu. reflexivity.
      * intro Hu. rewrite Hu. reflexivity.
      * intros Hs Hh. apply String.eqb_neq in Hs, Hh. rewrite Hs, Hh. reflexivity.
Qed.

(* ================================================================== *)
(** * The action handlers and the panel *)
(* ================================================================== *)

Lemma panel_known_no_reopen (w w' : World) :
  panel_known w -> no_reopen w w' -> panel_known w'.
Proof.
  unfold panel_known. intros Hk [Hp Ho] Hopen. rewrite Hp. auto.
Qed.

Lemma lifecycle_inv_panel_known (w : World) : lifecycle_inv w -> panel_known w.
Proof.
  intros [_ Hinv] Ho. rewrite Ho in Hinv. apply Hinv.
Qed.

(** [hidePanel] closes a panel that has its element. *)
Lemma closes_hidePanel : closes hidePanel.
Proof.
  intros w Hk. unfold panel_known in Hk.
  destruct w as [m d ls ads als nh pl tr].
  destruct m as [p o ed al ex exm cm cid bp bk la].
  simpl in Hk.
  destruct o; [destruct p as [p |]; [| now destruct Hk] |].
  - destruct bp, bk; cbn; split; reflexivity.
  - destruct p; cbn; split; reflexivity.
Qed.

Lemma completes_hidePanel : completes hidePanel.
Proof. total. Qed.

(** What runs before the closing call must complete and not reopen. *)
Lemma closes_bind_prefix {A} (m : M A) (k : A -> M unit) :
  keeps no_reopen m -> completes m -> (forall a, closes (k a)) -> closes (bind m k).
Proof.
  intros Hkeep Hc Hk w Hw.
  destruct (@exec_bind _ _ m k w Hc) as [a [Ha Hb]].
  unfold exec. rewrite Hb. apply Hk.
  eapply panel_known_no_reopen; [exact Hw | apply Hkeep].
Qed.

(** What runs after it must complete and not reopen. *)
Lemma closes_bind_suffix (m : M unit) (k : M unit) :
  closes m -> keeps no_reopen k -> completes k -> closes (bind m (fun _ => k)).
Proof.
  intros Hm Hkeep Hc w Hw.
  destruct (Hm w Hw) as [Hok Hclosed].
  unfold exec, bind in *. destruct (m w) as [[[] |] w1]; simpl in *; [| discriminate].
  destruct (Hc w1) as [[] Hk]. split; [exact Hk |].
  destruct (Hkeep w1) as [_ Ho].
  destruct (isOpen (pm (snd (k w1)))); [| reflexivity].
  rewrite <- Hclosed. symmetry. now apply Ho.
Qed.

Lemma closes_try_catch (body handler : M unit) :
  closes body -> closes (try_catch body handler).
Proof.
  intros Hb w Hw. destruct (Hb w Hw) as [Hok Hclosed].
  unfold exec, try_catch in *.
  destruct (body w) as [[[] |] w1]; simpl in *; [now split | discriminate].
Qed.

(** [closes m], by the structure of [m]. *)
Ltac closing :=
  repeat (intros;
    first
      [ apply closes_hidePanel
      | apply closes_try_catch
      | lazymatch goal with
        | |- closes (bind hidePanel _) =>
            apply closes_bind_suffix; [apply closes_hidePanel | frame | total]
        | |- closes (bind _ _) => apply closes_bind_prefix; [frame | total |]
        | |- closes (if ?c then _ else _) => destruct c
        | |- closes (match ?x with _ => _ end) => destruct x
        end ]).

Section Actions.

Variable env : Host.

(** The four handlers whose closing call stands after their try block close
    the panel whatever the host does. *)
Lemma closes_clearCache : closes (clearCache env).
Proof. unfold clearCache. closing. Qed.

Lemma closes_clearCookies : closes (clearCookies env).
Proof.
  unfold clearCookies. apply closes_bind_prefix; [frame | total |]. intros _.
  apply closes_bind_prefix; [| total | intros; apply closes_hidePanel].
  frame;
    solve [ apply keeps_primary_remove_all; [typeclasses eauto | frame_side]
          | apply keeps_fallback_remove_each; [typeclasses eauto | frame_side] ].
Qed.

Lemma closes_manageExtensions : closes (manageExtensions env).
Proof. unfold manageExtensions. closing. Qed.

Lemma closes_showPagePermissions : closes (showPagePermissions env).
Proof. unfold showPagePermissions. closing. Qed.

(** With a host whose calls return, the handlers that close the panel inside
    their try block reach the closing call. *)
Hypothesis Hreliable : reliable env.

Lemma closes_openExtensionsPage : closes (openExtensionsPage env).
Proof. unfold reliable in Hreliable. unfold openExtensionsPage. closing. Qed.

Lemma closes_manageExtension (i : string) : closes (manageExtension env i).
Proof. unfold reliable in Hreliable. unfold manageExtension. closing. Qed.

Lemma closes_reportExtension (i : string) : closes (reportExtension env i).
Proof. unfold reliable in Hreliable. unfold reportExtension. closing. Qed.

Lemma closes_pinExtensionToToolbar (i : string) :
  getByID env i = Found -> closes (pinExtensionToToolbar env i).
Proof.
  intro Hfound. unfold reliable in Hreliable.
  unfold pinExtensionToToolbar. rewrite Hfound. closing.
Qed.

Lemma closes_toggleExtensionState (i : string) (w : World) :
  installed_addon i w <> None ->
  panel_known w ->
  fst (toggleExtensionState env i w) = Ok tt /\
  isOpen (pm (exec (toggleExtensionState env i) w)) = false.
Proof.
  intros Hin Hw. unfold reliable in Hreliable.
  change (wp (toggleExtensionState env i)
             (fun r w' => r = Ok tt /\ isOpen (pm w') = false) w).
  unfold toggleExtensionState, getAddonByID. wp_step. wp_step.
  apply wp_call; [intros _ | rewrite Hreliable; discriminate].
  wp_step. wp_step. wp_step.
  unfold installed_addon in Hin. cbn [addons set_trace].
  destruct (find (fun a => String.eqb (id a) i) (addons w)) as [a |]; [| congruence].
  match goal with |- wp ?m _ ?w1 =>
    assert (Hc : closes m); [closing | destruct (Hc w1 Hw) as [Hok Hclosed]]
  end.
  unfold wp. now split.
Qed.

Lemma closes_openExtensionPopup (i : string) (w : World) :
  getByID env i <> Throws ->
  browserActionFor env i <> Throws ->
  (getByID env i = Found /\ browserActionFor env i = Found)
  \/ installed_addon i w <> None ->
  panel_known w ->
  fst (openExtensionPopup env i w) = Ok tt /\
  isOpen (pm (exec (openExtensionPopup env i) w)) = false.
Proof.
  intros Hg Hb Hcase Hw. unfold reliable in Hreliable.
  assert (Htoggle : installed_addon i w <> None ->
            wp (toggleExtensionState env i)
               (fun r w' =>
                  match r with
                  | Ok a => Ok a = Ok tt /\ isOpen (pm w') = false
                  | Thrown =>
                      wp (logError ("Error opening popup for extension " ++ i)%string)
                         (fun r' w'' => r' = Ok tt /\ isOpen (pm w'') = false) w'
                  end)
               (set_trace (trace w ++ [Logged ("Opening popup for extension " ++ i)%string]) w)).
  { intro Hin.
    destruct (@closes_toggleExtensionState i
                (set_trace (trace w ++ [Logged ("Opening popup for extension " ++ i)%string]) w)
                Hin Hw) as [Hok Hclosed].
    unfold wp. rewrite Hok. now split. }
  change (wp (openExtensionPopup env i)
             (fun r w' => r = Ok tt /\ isOpen (pm w') = false) w).
  unfold openExtensionPopup. wp_step. wp_step. unfold log at 1. wp_step.
  destruct (getByID env i) eqn:Eg; [| | congruence].
  - apply Htoggle. destruct Hcase as [[H _] | H]; [discriminate | exact H].
  - destruct (browserActionFor env i) eqn:Eb; [| | congruence].
    + apply Htoggle. destruct Hcase as [[_ H] | H]; [discriminate | exact H].
    + match goal with |- wp ?m _ ?w1 =>
        assert (Hc : closes m); [closing | destruct (Hc w1 Hw) as [Hok Hclosed]]
      end.
      unfold wp. rewrite Hok. now split.
Qed.

End Actions.

Section EarlyExits.

Variable env : Host.

(** A removal of an extension the host does not know, or one the user
    declines, changes nothing but the trace. *)
Lemma removeExtension_untouched (i : string) (w : World) :
  installed_addon i w = None \/ confirmAnswer env = false ->
  fst (removeExtension env i w) = Ok tt /\
  state_view (exec (removeExtension env i) w) = state_view w.
Proof.
  unfold installed_addon. intros Hcase. run_methods.
  destruct (throws env (GetAddonByID i)); cbn; [now split |].
  destruct (find (fun a => String.eqb (id a) i) (addons w)) as [a |] eqn:Ef; cbn;
    [| now split].
  destruct Hcase as [H | H]; [discriminate |].
  destruct (throws env (PromptConfirm (name a))); cbn; [now split |].
  rewrite H. cbn. now split.
Qed.

(** A click on an entry whose extension has no policy and is not installed
    any more only logs. *)
Lemma openExtensionPopup_untouched (i : string) (w : World) :
  getByID env i = Missing ->
  installed_addon i w = None ->
  state_view (exec (openExtensionPopup env i) w) = state_view w.
Proof.
  unfold installed_addon. intros Hg Hf. run_methods. rewrite Hg.
  cbn. destruct (throws env (GetAddonByID i)); cbn; [reflexivity |].
  rewrite Hf. reflexivity.
Qed.

(** A click on an entry whose popup call throws only logs. *)
Lemma openExtensionPopup_failed (i : string) (w : World) :
  getByID env i = Found ->
  browserActionFor env i = Found ->
  throws env (ActionOpenPopup i) = true ->
  state_view (exec (openExtensionPopup env i) w) = state_view w.
Proof.
  intros Hg Hb Ht. run_methods. rewrite Hg, Hb. cbn. rewrite Ht. reflexivity.
Qed.

(** Pinning an extension without a policy only logs. *)
Lemma pinExtensionToToolbar_untouched (i : string) (w : World) :
  getByID env i = Missing ->
  state_view (exec (pinExtensionToToolbar env i) w) = state_view w.
Proof.
  intros Hg. run_methods. rewrite Hg. reflexivity.
Qed.

End EarlyExits.

(** C3, as the code has it.  With the panel's element known:
    [clearCache], [clearCookies], [manageExtensions] and [showPagePermissions]
    complete and close the panel whatever the host calls do.  When no host
    call throws, opening the extension store, managing, reporting and pinning
    an extension with a policy, and a click on an entry (its popup opened, or
    its installed extension toggled) complete and close the panel.  A removal
    of an unknown extension or one the user declines, a click on an entry
    without policy and without add-on, a click whose popup call throws and a
    pin without policy leave the manager, the document, the listeners and the
    host's add-ons as they were: the panel is not closed. *)
Theorem action_handlers_and_panel (env : Host) (w : World) (i : string) :
  panel_known w ->
  (forall a,
      In a [ActClearCache; ActClearCookies; ActManageExtensions;
            ActShowPagePermissions] ->
      fst (run_action env a w) = Ok tt /\
      isOpen (pm (exec (run_action env a) w)) = false) /\
  (reliable env ->
   (forall a,
       In a [ActOpenExtensionsPage; ActManage i; ActReport i] ->
       fst (run_action env a w) = Ok tt /\
       isOpen (pm (exec (run_action env a) w)) = false) /\
   (getByID env i = Found ->
    fst (run_action env (ActPin i) w) = Ok tt /\
    isOpen (pm (exec (run_action env (ActPin i)) w)) = false) /\
   (getByID env i <> Throws -> browserActionFor env i <> Throws ->
    (getByID env i = Found /\ browserActionFor env i = Found)
    \/ installed_addon i w <> None ->
    fst (run_action env (ActClickExtension i) w) = Ok tt /\
    isOpen (pm (exec (run_action env (ActClickExtension i)) w)) = false)) /\
  (installed_addon i w = None \/ confirmAnswer env = false ->
   fst (run_action env (ActRemove i) w) = Ok tt /\
   state_view (exec (run_action env (ActRemove i)) w) = state_view w) /\
  (getByID env i = Missing -> installed_addon i w = None ->
   state_view (exec (run_action env (ActClickExtension i)) w) = state_view w) /\
  (getByID env i = Found -> browserActionFor env i = Found ->
   throws env (ActionOpenPopup i) = true ->
   state_view (exec (run_action env (ActClickExtension i)) w) = state_view w) /\
  (getByID env i = Missing ->
   state_view (exec (run_action env (ActPin i)) w) = state_view w).
Proof.
  intro Hw. split; [| split; [| split; [| split; [| split]]]].
  - intros a [H | [H | [H | [H | []]]]]; subst a; simpl.
    + now apply closes_clearCache.
    + now apply closes_clearCookies.
    + now apply closes_manageExtensions.
    + now apply closes_showPagePermissions.
  - intro Hrel. split; [| split].
    + intros a [H | [H | [H | []]]]; subst a; simpl.
      * now apply closes_openExtensionsPage.
      * now apply closes_manageExtension.
      * now apply closes_reportExtension.
    + intro Hg. simpl. now apply closes_pinExtensionToToolbar.
    + intros Hg Hb Hcase. simpl. now apply closes_openExtensionPopup.
  - apply removeExtension_untouched.
  - apply openExtensionPopup_untouched.
  - apply openExtensionPopup_failed.
  - apply pinExtensionToToolbar_untouched.
Qed.

Lemma action_handlers_and_panel_witness :
  isOpen (pm opened_world) = true /\
  isOpen (pm (exec (run_action quiet_host ActClearCookies) opened_world)) = false.
Proof.
  split; [reflexivity |].
  refine (proj2 (proj1 (@action_handlers_and_panel quiet_host opened_world
                          "a@example.org" _) ActClearCookies _)).
  - intros _. vm_compute. discriminate.
  - simpl. tauto.
Defined.

(** C3, as stated, fails: removing an extension the host does not know is an
    early exit of [removeExtension] that asks no confirmation and leaves the
    panel open. *)
Lemma remove_unknown_extension_leaves_panel_open :
  ~ (forall (env : Host) (a : Action) (w : World),
        lifecycle_inv w ->
        isOpen (pm (exec (run_action env a) w)) = false
        \/ (exists i, a = ActRemove i /\ confirmAnswer env = false /\
                      state_view (exec (run_action env a) w) = state_view w)).
Proof.
  intro H.
  assert (Hinv : lifecycle_inv opened_world)
    by (apply showPanel_spec, lifecycle_inv_initial).
  destruct (H quiet_host (ActRemove "gone@example.org") opened_world Hinv)
    as [Hclosed | [i [_ [Hdeclined _]]]].
  - vm_compute in Hclosed. discriminate.
  - discriminate.
Qed.

(** After a confirmed uninstall, [removeExtension] calls
    [this.updateExtensions()], which the class does not have: the TypeError
    lands in its catch block before [hidePanel] is reached. *)
Lemma removeExtension_uninstalled_stays_open :
  installed_addon "a@example.org" (exec (removeExtension quiet_host "a@example.org") listed_world)
  = None /\
  isOpen (pm (exec (removeExtension quiet_host "a@example.org") listed_world)) = true.
Proof. split; reflexivity. Qed.

(* ================================================================== *)
(** * A click on a rendered entry *)
(* ================================================================== *)

(** A click on an entry whose extension has an invocable browser action
    opens that popup and leaves the add-ons and the rendered entries alone. *)
Lemma click_opens_popup (env : Host) (i : string) (w : World) :
  getByID env i = Found ->
  browserActionFor env i = Found ->
  throws env (ActionOpenPopup i) = false ->
  let w' := exec (openExtensionPopup env i) w in
  In (Called (ActionOpenPopup i)) (trace w') /\
  addons w' = addons w /\
  doc w' = doc w /\
  pendingLoads w' = pendingLoads w.
Proof.
  intros Hg Hb Ht.
  destruct w as [m d ls ads als nh pl tr].
  destruct m as [p o ed al ex exm cm cid bp bk la].
  run_methods. rewrite Hg, Hb. cbn. rewrite Ht. cbn.
  destruct p, o, bp, bk; cbn; repeat split;
    rewrite ?in_app_iff; simpl; tauto.
Qed.

(** C5 at a failing input.  In the sample world with the panel open and the
    entries rendered, a click on the entry of the active extension Alpha,
    which has no browser action, disables it in the host, yet the entry still
    says [enabled="true"] and "Disable Alpha": [toggleExtensionState] passes
    [!addon.isActive] read after the switch.  The same click on the inactive
    Gamma enables it and leaves [enabled="false"] and "Enable Gamma".  The
    right attributes only arrive with the reconciliation pass that the add-on
    listener has left pending. *)
Theorem click_toggle_renders_old_state :
  let clicked := exec (openExtensionPopup quiet_host "a@example.org") listed_world in
  let clicked_C := exec (openExtensionPopup quiet_host "c@example.org") listed_world in
  option_map isActive (installed_addon "a@example.org" listed_world) = Some true /\
  option_map isActive (installed_addon "a@example.org" clicked) = Some false /\
  option_map enabled (rendered_image "a@example.org" clicked) = Some "true"%string /\
  option_map tooltiptext (rendered_image "a@example.org" clicked)
  = Some "Disable Alpha"%string /\
  option_map isActive (installed_addon "c@example.org" clicked_C) = Some true /\
  option_map enabled (rendered_image "c@example.org" clicked_C) = Some "false"%string /\
  option_map tooltiptext (rendered_image "c@example.org" clicked_C)
  = Some "Enable Gamma"%string /\
  pendingLoads clicked = 1 /\
  option_map enabled
    (rendered_image "a@example.org" (exec (loadExtensions_resume quiet_host) clicked))
  = Some "false"%string.
Proof. vm_compute. repeat split; reflexivity. Qed.

(* ================================================================== *)
(** * Clearing cookies *)
(* ================================================================== *)

Lemma skipn_length_app {A} (l r : list A) : skipn (List.length l) (l ++ r) = r.
Proof. induction l as [| x rest IH]; simpl; [reflexivity | exact IH]. Qed.

Lemma count_called_app (p : HostCall -> bool) (t1 t2 : list Effect) :
  count_called p (t1 ++ t2) = count_called p t1 + count_called p t2.
Proof. unfold count_called. now rewrite filter_app, length_app. Qed.

(** Effects none of which is a call satisfying [p] count for nothing. *)
Lemma count_called_none (p : HostCall -> bool) (t : list Effect) :
  silent p t -> count_called p t = 0.
Proof.
  unfold count_called, silent. induction 1 as [| e rest He _ IH]; simpl; [reflexivity |].
  destruct e as [c | |]; [rewrite He |..]; exact IH.
Qed.

Lemma effects_after_none (p : HostCall -> bool) (t rest : list Effect) :
  silent p t -> effects_after p (t ++ rest) = effects_after p rest.
Proof.
  unfold silent. induction 1 as [| e t' He _ IH]; simpl; [reflexivity |].
  destruct e as [c | |]; [rewrite He |..]; exact IH.
Qed.

Section CookieLoops.

Variable env : Host.

(** The loop of the fallback strategy only records its removal calls. *)
Lemma fallback_remove_each_trace (cookies : list Cookie) :
  forall n k w,
  exists t r,
    fallback_remove_each env cookies n k w = (Ok r, set_trace (trace w ++ t) w) /\
    Forall (fun e => exists c, e = Called (FallbackRemove c)) t.
Proof.
  induction cookies as [| c rest IH]; intros n k w; simpl.
  - exists [], (n, k). rewrite app_nil_r. split; [| constructor].
    destruct w; reflexivity.
  - unfold bind, attempt, call, record, modify. simpl.
    destruct (throws env (FallbackRemove c)); simpl;
      match goal with |- context [fallback_remove_each env rest ?n' ?k' ?w'] =>
        destruct (IH n' k' w') as [t [r [Heq Hall]]]
      end;
      exists (Called (FallbackRemove c) :: t), r; rewrite Heq; simpl;
      rewrite <- app_assoc; (split; [reflexivity | constructor; eauto]).
Qed.

(** The loop of the primary strategy only records its removal calls and the
    lines about those that failed, one line for each removal that threw. *)
Lemma primary_remove_all_trace (cookies : list Cookie) :
  forall n w,
  exists t r,
    primary_remove_all env cookies n w = (Ok r, set_trace (trace w ++ t) w) /\
    Forall (fun e => (exists c, e = Called (PrimaryRemove c))
                     \/ (exists s, e = Logged s)) t /\
    (forall c, In c cookies -> throws env (PrimaryRemove c) = true ->
               In (Logged ("Failed to remove cookie: " ++ cookie_name c)) t).
Proof.
  induction cookies as [| c rest IH]; intros n w; simpl.
  - exists [], n. rewrite app_nil_r. split; [| split; [constructor | intros c []]].
    destruct w; reflexivity.
  - unfold bind, attempt, call, log, record, modify. simpl.
    destruct (throws env (PrimaryRemove c)) eqn:Ec; simpl;
      match goal with |- context [primary_remove_all env rest ?n' ?w'] =>
        destruct (IH n' w') as [t [r [Heq [Hall Hlog]]]]
      end; rewrite Heq; simpl.
    + exists (Called (PrimaryRemove c)
              :: Logged ("Failed to remove cookie: " ++ cookie_name c)%string :: t), r.
      rewrite <- !app_assoc. split; [reflexivity | split].
      * constructor; [left; eauto | constructor; [right; eauto | exact Hall]].
      * intros c' [Hc' | Hc'] Ht; [subst c'; right; now left |].
        right; right. now apply Hlog.
    + exists (Called (PrimaryRemove c) :: t), r.
      rewrite <- app_assoc. split; [reflexivity | split].
      * constructor; [left; eauto | exact Hall].
      * intros c' [Hc' | Hc'] Ht; [subst c'; congruence |].
        right. now apply Hlog.
Qed.

End CookieLoops.

Lemma silent_app (p : HostCall -> bool) (t1 t2 : list Effect) :
  silent p t1 -> silent p t2 -> silent p (t1 ++ t2).
Proof. unfold silent. intros H1 H2. apply Forall_app. now split. Qed.

Lemma effects_after_hit (p : HostCall -> bool) (pre rest : list Effect) (c : HostCall) :
  silent p pre -> p c = true -> effects_after p (pre ++ Called c :: rest) = rest.
Proof.
  intros Hpre Hc. rewrite effects_after_none by assumption. simpl. now rewrite Hc.
Qed.

(** A program known by the pair it returns. *)
Lemma wp_eq {A} (m : M A) (r : Res A) Q w w' :
  m w = (r, w') -> Q r w' -> wp m Q w.
Proof. intros H HQ. unfold wp. now rewrite H. Qed.

(** [hidePanel] records no host service call. *)
Lemma hidePanel_trace (w : World) :
  exists th,
    fst (hidePanel w) = Ok tt /\
    trace (exec hidePanel w) = trace w ++ th /\
    (th = [] \/ th = [Called PanelHidePopup; Logged "Panel closed"]).
Proof.
  destruct w as [m d ls ads als nh pl tr].
  destruct m as [p o ed al ex exm cm cid bp bk la].
  destruct p, o; try (exists []; cbn; rewrite app_nil_r; now auto);
    destruct bp, bk; eexists; cbn; rewrite <- ?app_assoc; simpl;
    (split; [reflexivity | split; [reflexivity | now right]]).
Qed.

Section CookieStrategies.

Variable env : Host.
Variable h : string.

(** The primary strategy, when it throws: it has recorded its own calls and
    nothing else, and leaves by an exception. *)
Lemma clearCookies_primary_throws (w : World) :
  primary_strategy_throws env h ->
  exists pre,
    clearCookies_primary env h w = (Thrown, set_trace (trace w ++ pre) w) /\
    silent HostCall_is_fallback pre /\ silent HostCall_is_reload pre.
Proof.
  intro Hfail.
  unfold clearCookies_primary, bind, call, record, modify, ret, throw. simpl.
  destruct (throws env ImportCookieManager) eqn:Ei; simpl.
  - exists [Called ImportCookieManager].
    repeat split; repeat constructor.
  - destruct Hfail as [H | H]; [congruence |]. rewrite H. simpl.
    exists [Called ImportCookieManager; Called (PrimaryGetCookies h)].
    rewrite <- app_assoc. repeat split; repeat constructor.
Qed.

(** The primary strategy, when its set-up calls return: it completes, having
    recorded no call of the fallback strategy and no reload, and a line for
    each removal that threw. *)
Lemma clearCookies_primary_returns (w : World) :
  throws env ImportCookieManager = false ->
  throws env (PrimaryGetCookies h) = false ->
  exists t,
    clearCookies_primary env h w = (Ok tt, set_trace (trace w ++ t) w) /\
    silent HostCall_is_fallback t /\ silent HostCall_is_reload t /\
    (forall c, In c (primaryCookies env) -> throws env (PrimaryRemove c) = true ->
               In (Logged ("Failed to remove cookie: " ++ cookie_name c)) t).
Proof.
  intros Hi Hg.
  unfold clearCookies_primary, bind, call, log, record, modify, ret, throw. simpl.
  rewrite Hi. simpl. rewrite Hg. simpl.
  match goal with |- context [primary_remove_all env ?cs ?n ?w1] =>
    destruct (primary_remove_all_trace env cs n w1) as [t [r [Heq [Hall Hlog]]]]
  end.
  rewrite Heq. simpl.
  eexists. rewrite <- !app_assoc. split; [reflexivity |].
  assert (Hs : forall p, (forall c, p (PrimaryRemove c) = false) -> silent p t).
  { intros p Hp. unfold silent. eapply Forall_impl; [| exact Hall].
    intros e [[c He] | [s He]]; subst e; [apply Hp | exact I]. }
  split; [| split].
  - simpl. repeat constructor.
    apply silent_app; [apply Hs; reflexivity | repeat constructor].
  - simpl. repeat constructor.
    apply silent_app; [apply Hs; reflexivity | repeat constructor].
  - intros c Hc Ht. repeat (apply in_cons || (apply in_or_app; left)). now apply Hlog.
Qed.

(** The fallback strategy: it asks [Services.cookies] for the cookies once,
    then only removes; it leaves by an exception only when that one request
    throws. *)
Lemma clearCookies_fallback_trace (w : World) :
  exists post r,
    clearCookies_fallback env h w =
    (r, set_trace (trace w ++ Logged "New cookie API failed, trying fallback method"
                           :: Called (FallbackGetCookies h) :: post) w) /\
    silent HostCall_is_fallback post /\ silent HostCall_is_primary post /\
    silent HostCall_is_reload post /\
    (throws env (FallbackGetCookies h) = false -> r = Ok tt) /\
    (throws env (FallbackGetCookies h) = true -> r = Thrown /\ post = []).
Proof.
  unfold clearCookies_fallback, try_catch, bind, call, log, logError, record, modify,
    ret, throw. simpl.
  destruct (throws env (FallbackGetCookies h)) eqn:Eg; simpl.
  - exists [], Thrown. rewrite <- app_assoc.
    repeat split; try constructor; congruence.
  - destruct (hasRemoveAllFromHost env); simpl.
    + destruct (throws env (RemoveAllFromHost h)); simpl;
        eexists; exists (Ok tt); rewrite <- !app_assoc; simpl;
        (split; [reflexivity |]); repeat split; repeat constructor; congruence.
    + match goal with |- context [fallback_remove_each env ?cs ?n ?k ?w1] =>
        destruct (fallback_remove_each_trace env cs n k w1) as [t [r [Heq Hall]]]
      end.
      rewrite Heq. simpl.
      eexists; exists (Ok tt); rewrite <- !app_assoc; simpl.
      split; [reflexivity |].
      assert (Hs : forall p, (forall c, p (FallbackRemove c) = false) -> silent p t).
      { intros p Hp. unfold silent. eapply Forall_impl; [| exact Hall].
        intros e [c He]; subst e; apply Hp. }
      repeat split; try congruence;
        (apply silent_app; [apply Hs; reflexivity | repeat constructor]).
Qed.

End CookieStrategies.

Lemma count_called_Called (p : HostCall -> bool) (c : HostCall) (t : list Effect) :
  count_called p (Called c :: t) = (if p c then 1 else 0) + count_called p t.
Proof. unfold count_called. simpl. now destruct (p c). Qed.

Lemma count_called_Logged (p : HostCall -> bool) (s : string) (t : list Effect) :
  count_called p (Logged s :: t) = count_called p t.
Proof. reflexivity. Qed.

Lemma count_called_LoggedError (p : HostCall -> bool) (s : string) (t : list Effect) :
  count_called p (LoggedError s :: t) = count_called p t.
Proof. reflexivity. Qed.

Lemma completes_clearCookies (env : Host) : completes (clearCookies env).
Proof. total. Qed.

(** The effects of a run, from the trace it left. *)
Ltac added_trace :=
  unfold added_effects; cbn [trace set_trace];
  rewrite <- ?app_assoc; rewrite skipn_length_app; cbn [app].

(** Counting over a trace made of known effects and silent stretches. *)
Ltac count_trace :=
  try discriminate;
  repeat (cbn [effects_after HostCall_is_fallback app];
          try (rewrite effects_after_none by assumption));
  repeat (rewrite count_called_Called || rewrite count_called_Logged
          || rewrite count_called_LoggedError || rewrite count_called_app);
  cbn [HostCall_is_fallback HostCall_is_primary HostCall_is_reload];
  repeat match goal with
         | H : silent ?p ?t |- context [count_called ?p ?t] =>
             rewrite (count_called_none H)
         end;
  try reflexivity.

(** The closing call at the end of a handler: what it adds to the trace is
    one of two known stretches. *)
Ltac hide_leaf :=
  match goal with
  | |- wp hidePanel _ ?W =>
      let th := fresh "th" in
      let Hth := fresh "Hth" in
      let Htr := fresh "Htr" in
      destruct (hidePanel_trace W) as [th [_ [Htr Hth]]];
      unfold wp; change (snd (hidePanel W)) with (exec hidePanel W);
      unfold added_effects; rewrite Htr; cbn [trace set_trace];
      rewrite <- ?app_assoc; rewrite skipn_length_app; cbn [app];
      destruct Hth; subst th; repeat split; intros
  end.

Section ClearCookies.

Variable env : Host.
Variable u : Uri.
Hypothesis Huri : currentURI env = Some u.
Hypothesis Hhost : truthy (host u) = true.
Hypothesis Hget : throws env GetCurrentURI = false.

Lemma clearCookies_after_primary_threw (w : World) :
  primary_strategy_throws env (host u) ->
  let added := added_effects w (exec (clearCookies env) w) in
  count_called HostCall_is_fallback added = 1 /\
  count_called HostCall_is_primary (effects_after HostCall_is_fallback added) = 0 /\
  (throws env (FallbackGetCookies (host u)) = false ->
   count_called HostCall_is_reload (effects_after HostCall_is_fallback added) = 1).
Proof.
  intro Hfail.
  change (wp (clearCookies env)
            (fun _ w' =>
               let added := added_effects w w' in
               count_called HostCall_is_fallback added = 1 /\
               count_called HostCall_is_primary
                 (effects_after HostCall_is_fallback added) = 0 /\
               (throws env (FallbackGetCookies (host u)) = false ->
                count_called HostCall_is_reload
                  (effects_after HostCall_is_fallback added) = 1)) w).
  unfold clearCookies. wp_step. unfold log at 1. wp_step. wp_step. wp_step.
  wp_step. unfold getCurrentURI. wp_step.
  apply wp_call; [intros _ | rewrite Hget; discriminate].
  wp_step. rewrite Huri. cbv iota. rewrite Hhost. wp_step. wp_step.
  match goal with |- wp _ _ ?w1 =>
    destruct (@clearCookies_primary_throws env (host u) w1 Hfail) as [pre [Hp [Hpf Hpr]]]
  end.
  eapply wp_eq; [exact Hp |]. cbv iota.
  match goal with |- wp _ _ ?w2 =>
    destruct (@clearCookies_fallback_trace env (host u) w2)
      as [post [r [Hf [Hsf [Hsp [Hsr [Hok Hthrown]]]]]]]
  end.
  eapply wp_eq; [exact Hf |]. clear Hp Hf.
  destruct (throws env (FallbackGetCookies (host u))) eqn:Efg.
  - destruct (Hthrown eq_refl) as [Hr Hpost]. subst r post. cbv iota.
    unfold logError. wp_step. hide_leaf; count_trace.
  - rewrite (Hok eq_refl). cbv iota. wp_step. unfold log at 1. wp_step.
    apply wp_call; intros _; cbv iota.
    + hide_leaf; count_trace.
    + unfold logError. wp_step. hide_leaf; count_trace.
Qed.

Lemma clearCookies_after_primary_returned (w : World) :
  throws env ImportCookieManager = false ->
  throws env (PrimaryGetCookies (host u)) = false ->
  let added := added_effects w (exec (clearCookies env) w) in
  count_called HostCall_is_fallback added = 0 /\
  count_called HostCall_is_reload added = 1 /\
  (forall c, In c (primaryCookies env) -> throws env (PrimaryRemove c) = true ->
             In (Logged ("Failed to remove cookie: " ++ cookie_name c)) added).
Proof.
  intros Hi Hg.
  change (wp (clearCookies env)
            (fun _ w' =>
               let added := added_effects w w' in
               count_called HostCall_is_fallback added = 0 /\
               count_called HostCall_is_reload added = 1 /\
               (forall c, In c (primaryCookies env) ->
                          throws env (PrimaryRemove c) = true ->
                          In (Logged ("Failed to remove cookie: " ++ cookie_name c))
                             added)) w).
  unfold clearCookies. wp_step. unfold log at 1. wp_step. wp_step. wp_step.
  wp_step. unfold getCurrentURI. wp_step.
  apply wp_call; [intros _ | rewrite Hget; discriminate].
  wp_step. rewrite Huri. cbv iota. rewrite Hhost. wp_step. wp_step.
  match goal with |- wp _ _ ?w1 =>
    destruct (@clearCookies_primary_returns env (host u) w1 Hi Hg)
      as [t [Hp [Hpf [Hpr Hlog]]]]
  end.
  eapply wp_eq; [exact Hp |]. clear Hp. cbv iota.
  wp_step. unfold log at 1. wp_step.
  apply wp_call; intros _; cbv iota.
  - hide_leaf; count_trace;
      (repeat (apply in_cons || (apply in_or_app; left)); now apply Hlog).
  - unfold logError. wp_step. hide_leaf; count_trace;
      (repeat (apply in_cons || (apply in_or_app; left)); now apply Hlog).
Qed.

End ClearCookies.

(** C8, as the code has it.  On a page with a host, when the primary
    strategy is left by an exception (the CookieManager module cannot be
    loaded, or its cookie query throws), [clearCookies] completes, asks
    [Services.cookies] for the cookies exactly once, makes no further call of
    the primary strategy, and, when that one request returns, reloads the
    page once afterwards.  When the primary strategy gets its cookies, each
    removal that throws is caught and logged with the name of its cookie: the
    fallback strategy is not called, and the page is reloaded once.  With the panel's element known the
    panel is closed at the end. *)
Theorem clearCookies_fallback_once (env : Host) (w : World) (u : Uri) :
  currentURI env = Some u ->
  truthy (host u) = true ->
  throws env GetCurrentURI = false ->
  let w' := exec (clearCookies env) w in
  let added := added_effects w w' in
  fst (clearCookies env w) = Ok tt /\
  (primary_strategy_throws env (host u) ->
   count_called HostCall_is_fallback added = 1 /\
   count_called HostCall_is_primary (effects_after HostCall_is_fallback added) = 0 /\
   (throws env (FallbackGetCookies (host u)) = false ->
    count_called HostCall_is_reload (effects_after HostCall_is_fallback added) = 1)) /\
  (throws env ImportCookieManager = false ->
   throws env (PrimaryGetCookies (host u)) = false ->
   count_called HostCall_is_fallback added = 0 /\
   count_called HostCall_is_reload added = 1 /\
   (forall c, In c (primaryCookies env) -> throws env (PrimaryRemove c) = true ->
              In (Logged ("Failed to remove cookie: " ++ cookie_name c)%string) added)) /\
  (panel_known w -> isOpen (pm w') = false).
Proof.
  intros Huri Hhost Hget w' added.
  split; [destruct (completes_clearCookies env w) as [[] H]; exact H |].
  split; [| split].
  - intro Hfail. now apply (@clearCookies_after_primary_threw env u).
  - intros Hi Hg. now apply (@clearCookies_after_primary_returned env u).
  - intro Hw. now apply closes_clearCookies.
Qed.

Lemma clearCookies_fallback_once_witness :
  count_called HostCall_is_fallback
    (added_effects opened_world (exec (clearCookies no_cookie_module_host) opened_world))
  = 1 /\
  count_called HostCall_is_reload
    (effects_after HostCall_is_fallback
       (added_effects opened_world
                      (exec (clearCookies no_cookie_module_host) opened_world)))
  = 1.
Proof.
  destruct (@clearCookies_fallback_once no_cookie_module_host opened_world
              (mkUri "https" "example.org" "https://example.org/")
              eq_refl eq_refl eq_refl) as [_ [H _]].
  destruct (H (or_introl eq_refl)) as [Hone [_ Hreload]].
  split; [exact Hone | exact (Hreload eq_refl)].
Defined.

(** C8, as stated, fails in the scenario it comes from: when the primary
    strategy gets the cookies and every removal throws, each exception is
    caught inside the loop and the fallback strategy is never called. *)
Lemma failed_removals_do_not_reach_fallback :
  ~ (forall (env : Host) (w : World) (u : Uri),
        currentURI env = Some u ->
        truthy (host u) = true ->
        throws env GetCurrentURI = false ->
        primary_strategy_fails env (host u) ->
        fst (clearCookies env w) = Ok tt /\
        count_called HostCall_is_fallback
          (added_effects w (exec (clearCookies env) w)) = 1 /\
        count_called HostCall_is_reload
          (effects_after HostCall_is_fallback
             (added_effects w (exec (clearCookies env) w))) = 1).
Proof.
  intro H.
  destruct (H stubborn_cookies_host opened_world
              (mkUri "https" "example.org" "https://example.org/")
              eq_refl eq_refl eq_refl) as [_ [Hone _]].
  - right. split; [discriminate |]. intros c _. reflexivity.
  - vm_compute in Hone. discriminate.
Qed.

(* ================================================================== *)
(** * Further properties of the reconciler *)
(* ================================================================== *)

Section ReconcilerMore.

Variable g : string -> Lookup.
Variable b : string -> Lookup.

(** An image carries what the script writes for an add-on. *)
Lemma refresh_image_shows (a : Addon) (img : Image) :
  shows g b a (refresh_image g b a img).
Proof.
  unfold shows, refresh_image. simpl. repeat split.
  destruct (String.eqb (src img) (getExtensionIconSrc a)) eqn:E;
    [now apply String.eqb_eq in E | reflexivity].
Qed.

Lemma createExtensionImage_shows (a : Addon) :
  shows g b a (createExtensionImage g b a).
Proof. unfold shows. simpl. auto. Qed.

(** Refreshing an image that already shows the add-on writes nothing new. *)
Lemma refresh_image_fixed (a : Addon) (img : Image) :
  shows g b a img -> refresh_image g b a img = img.
Proof.
  destruct img as [s t e st]. unfold shows, refresh_image. simpl.
  intros [Hs [Ht He]]. subst. now rewrite String.eqb_refl.
Qed.

Lemma find_image_update_first_same (i : string) (f : Image -> Image) (c : Container) :
  find_image i (update_first i f c) = option_map f (find_image i c).
Proof.
  induction c as [| [j img |] rest IH]; simpl; [reflexivity | | exact IH].
  destruct (String.eqb i j) eqn:E; simpl; rewrite E; [reflexivity | exact IH].
Qed.

Lemma find_image_update_first_other (i j : string) (f : Image -> Image) (c : Container) :
  i <> j -> find_image i (update_first j f c) = find_image i c.
Proof.
  intro Hij. induction c as [| [k img |] rest IH]; simpl; [reflexivity | | exact IH].
  destruct (String.eqb j k) eqn:Ejk; simpl.
  - apply String.eqb_eq in Ejk. subst k.
    apply String.eqb_neq in Hij. now rewrite Hij.
  - destruct (String.eqb i k); [reflexivity | exact IH].
Qed.

Lemma find_image_found (i : string) (c : Container) :
  querySelector_found c i = true -> exists img, find_image i c = Some img.
Proof.
  unfold querySelector_found.
  induction c as [| [j img |] rest IH]; simpl; [discriminate | | exact IH].
  destruct (String.eqb i j); simpl; [eauto | exact IH].
Qed.

(** One turn of the loop leaves the entry of its add-on showing it. *)
Lemma process_addon_shows (c : Container) (d : ExtensionData) (a : Addon) :
  exists img, find_image (id a) (fst (process_addon g b (c, d) a)) = Some img /\
              shows g b a img.
Proof.
  unfold process_addon. simpl.
  destruct (querySelector_found c (id a)) eqn:E; simpl.
  - destruct (find_image_found _ _ E) as [img Himg].
    unfold updateExistingExtension. rewrite find_image_update_first_same, Himg.
    simpl. eexists. split; [reflexivity | apply refresh_image_shows].
  - rewrite String.eqb_refl. eexists. split; [reflexivity | apply createExtensionImage_shows].
Qed.

(** A turn for another id leaves the entry alone. *)
Lemma process_addon_other (c : Container) (d : ExtensionData) (a : Addon) (i : string) :
  i <> id a ->
  find_image i (fst (process_addon g b (c, d) a)) = find_image i c.
Proof.
  intro Hi. unfold process_addon. simpl.
  destruct (querySelector_found c (id a)); simpl.
  - now apply find_image_update_first_other.
  - apply String.eqb_neq in Hi. now rewrite Hi.
Qed.

Lemma loop_other (exts : list Addon) :
  forall (c : Container) (d : ExtensionData) (i : string),
    ~ In i (map id exts) ->
    find_image i (fst (fold_left (process_addon g b) exts (c, d))) = find_image i c.
Proof.
  induction exts as [| a rest IH]; intros c d i Hi; cbn [fold_left]; [reflexivity |].
  rewrite process_addon_pair, IH by (intro H; apply Hi; now right).
  apply process_addon_other. intro H. apply Hi. now left.
Qed.

Lemma loop_shows (exts : list Addon) :
  forall (c : Container) (d : ExtensionData) (a : Addon),
    NoDup (map id exts) -> In a exts ->
    exists img, find_image (id a) (fst (fold_left (process_addon g b) exts (c, d)))
                = Some img /\ shows g b a img.
Proof.
  induction exts as [| a0 rest IH]; intros c d a Hnd Hin; [destruct Hin |].
  cbn [map] in Hnd. inversion Hnd as [| x l Hnotin Hnd']; subst.
  cbn [fold_left]. rewrite process_addon_pair.
  destruct Hin as [Heq | Hin].
  - subst a0. rewrite loop_other by exact Hnotin. apply process_addon_shows.
  - now apply IH.
Qed.

(** The removal keeps the first entry of every current extension. *)
Lemma find_image_removeUninstalled (c : Container) (exts : list Addon) (i : string) :
  In i (map id exts) ->
  find_image i (removeUninstalledExtensions c exts) = find_image i c.
Proof.
  intro Hin. apply (mem_In i) in Hin. unfold removeUninstalledExtensions.
  induction c as [| [j img |] rest IH]; simpl; [reflexivity | | exact IH].
  destruct (String.eqb i j) eqn:E.
  - apply String.eqb_eq in E. subst j. rewrite Hin, andb_false_r. simpl.
    now rewrite String.eqb_refl.
  - destruct (negb (truthy j && negb (existsb (String.eqb j) (map id exts)))); simpl;
      [rewrite E |]; exact IH.
Qed.

Lemma pass_shows (c : Container) (exts : list Addon) (a : Addon) :
  NoDup (map id exts) ->
  In a exts ->
  exists img,
    find_image (id a) (fst (processExtensions g b c exts)) = Some img /\
    shows g b a img.
Proof.
  intros Hnd Hin.
  rewrite processExtensions_fst, find_image_removeUninstalled by now apply in_map.
  apply loop_shows; assumption.
Qed.

(** X1. After a pass over extensions of distinct ids, the entry of every
    current extension carries the add-on's icon source (the fallback icon when
    it declares none), its tooltip and its enabled state, whatever the
    container held before. *)
Theorem pass_entries_show_addons (c : Container) (exts : list Addon) (a : Addon) :
  NoDup (map id exts) ->
  In a exts ->
  exists img,
    find_image (id a) (fst (processExtensions g b c exts)) = Some img /\
    src img = getExtensionIconSrc a /\
    tooltiptext img = getExtensionTooltip g b a /\
    enabled img = toString (isActive a).
Proof.
  intros Hnd Hin. destruct (@pass_shows c exts a Hnd Hin) as [img [Hf Hs]].
  exists img. split; [exact Hf | exact Hs].
Qed.

Lemma update_first_fixed (i : string) (f : Image -> Image) (c : Container) :
  (forall img, find_image i c = Some img -> f img = img) ->
  update_first i f c = c.
Proof.
  induction c as [| [j img |] rest IH]; simpl; intro H; [reflexivity | |].
  - destruct (String.eqb i j); [now rewrite H | now rewrite IH].
  - now rewrite IH.
Qed.

(** A loop over a container that already shows its add-ons changes nothing. *)
Lemma loop_fixed (exts : list Addon) (c : Container) :
  (forall a, In a exts ->
             exists img, find_image (id a) c = Some img /\ shows g b a img) ->
  forall d, fst (fold_left (process_addon g b) exts (c, d)) = c.
Proof.
  induction exts as [| a rest IH]; intros H d; cbn [fold_left]; [reflexivity |].
  rewrite process_addon_pair.
  assert (Hstep : fst (process_addon g b (c, d) a) = c).
  { destruct (H a (or_introl eq_refl)) as [img [Himg Hshows]].
    unfold process_addon. simpl.
    assert (E : querySelector_found c (id a) = true).
    { destruct (querySelector_found c (id a)) eqn:E; [reflexivity |].
      exfalso. clear - E Himg. unfold querySelector_found in E.
      induction c as [| [j im |] rest IHc]; simpl in *; [discriminate | | auto].
      destruct (String.eqb (id a) j); simpl in E; [discriminate | auto]. }
    rewrite E. simpl. unfold updateExistingExtension.
    apply update_first_fixed. intros img' Himg'.
    rewrite Himg in Himg'. injection Himg' as <-. now apply refresh_image_fixed. }
  rewrite Hstep. apply IH. intros a' Ha'. apply H. now right.
Qed.

Lemma removeUninstalled_idempotent (c : Container) (exts : list Addon) :
  removeUninstalledExtensions (removeUninstalledExtensions c exts) exts
  = removeUninstalledExtensions c exts.
Proof.
  unfold removeUninstalledExtensions.
  induction c as [| n rest IH]; simpl; [reflexivity |].
  match goal with |- context [if ?t then _ else _] => destruct t eqn:E end; simpl.
  - now rewrite E, IH.
  - exact IH.
Qed.

(** X2. A second pass with the same extensions of distinct ids and the
    same host answers leaves the container exactly as the first pass left
    it. *)
Theorem pass_idempotent (c : Container) (exts : list Addon) :
  NoDup (map id exts) ->
  fst (processExtensions g b (fst (processExtensions g b c exts)) exts)
  = fst (processExtensions g b c exts).
Proof.
  intro Hnd.
  rewrite (processExtensions_fst g b (fst (processExtensions g b c exts))).
  rewrite loop_fixed.
  - rewrite processExtensions_fst. apply removeUninstalled_idempotent.
  - intros a Ha. now apply pass_shows.
Qed.

(** X3. After a pass over extensions of distinct ids, the entries that were
    not rendered before stand first, the last extension of the list foremost,
    and the entries that stay follow in the order they had. *)
Theorem pass_order (c : Container) (exts : list Addon) :
  NoDup (map id exts) ->
  rendered_ids (fst (processExtensions g b c exts)) =
  rev (filter (fun i => negb (existsb (String.eqb i) (rendered_ids c))) (map id exts))
  ++ filter (fun i => negb (truthy i && negb (existsb (String.eqb i) (map id exts))))
            (rendered_ids c).
Proof.
  intro Hnd.
  assert (Hloop : forall l c0 d0,
    NoDup (map id l) ->
    rendered_ids (fst (fold_left (process_addon g b) l (c0, d0))) =
    rev (filter (fun i => negb (existsb (String.eqb i) (rendered_ids c0))) (map id l))
    ++ rendered_ids c0).
  { induction l as [| a rest IH]; intros c0 d0 Hl; cbn [fold_left map filter];
      [reflexivity |].
    cbn [map] in Hl. inversion Hl as [| x l' Hnotin Hl']; subst.
    rewrite process_addon_pair, IH, rendered_ids_process_addon by exact Hl'.
    fold (querySelector_found c0 (id a)).
    destruct (querySelector_found c0 (id a)) eqn:E; simpl; [reflexivity |].
    rewrite <- app_assoc. simpl. f_equal. f_equal.
    apply filter_ext_in. intros i Hi.
    destruct (String.eqb i (id a)) eqn:Ei; [| reflexivity].
    apply String.eqb_eq in Ei. subst i. contradiction. }
  rewrite processExtensions_fst, rendered_ids_removeUninstalled, Hloop, filter_app
    by exact Hnd.
  f_equal.
  apply forallb_filter_id. apply forallb_forall. intros i Hi.
  apply in_rev, filter_In in Hi as [Hi _].
  apply (mem_In i) in Hi. now rewrite Hi, andb_false_r.
Qed.

End ReconcilerMore.

(** The sample extensions have distinct ids. *)
Lemma sample_ids_NoDup : NoDup (map id [ext_A; ext_B; ext_C]).
Proof. repeat constructor; simpl; intuition discriminate. Defined.

Lemma pass_entries_show_addons_witness :
  exists img,
    find_image "c@example.org"
      (fst (processExtensions no_policy no_policy initial_container
                              [ext_A; ext_B; ext_C])) = Some img /\
    src img = CONFIG.FALLBACK_ICON /\
    tooltiptext img = "Enable Gamma" /\
    enabled img = "false".
Proof.
  exact (@pass_entries_show_addons no_policy no_policy initial_container
           [ext_A; ext_B; ext_C] ext_C sample_ids_NoDup
           (or_intror (or_intror (or_introl eq_refl)))).
Defined.

Lemma pass_idempotent_witness :
  fst (processExtensions no_policy no_policy
         (fst (processExtensions no_policy no_policy initial_container
                                 [ext_A; ext_B; ext_C]))
         [ext_A; ext_B; ext_C])
  = fst (processExtensions no_policy no_policy initial_container [ext_A; ext_B; ext_C]).
Proof.
  exact (@pass_idempotent no_policy no_policy initial_container
           [ext_A; ext_B; ext_C] sample_ids_NoDup).
Defined.

Lemma pass_order_witness :
  rendered_ids
    (fst (processExtensions no_policy no_policy
            (fst (processExtensions no_policy no_policy initial_container
                                    [ext_A; ext_B]))
            [ext_B; ext_C]))
  = ["c@example.org"; "b@example.org"].
Proof.
  refine (@pass_order no_policy no_policy
            (fst (processExtensions no_policy no_policy initial_container
                                    [ext_A; ext_B]))
            [ext_B; ext_C] _).
  repeat constructor; simpl; intuition discriminate.
Defined.

Section ReconcilerData.

Variable g : string -> Lookup.
Variable b : string -> Lookup.

Lemma map_set_new (k : string) (v : ExtensionInfo) (m : ExtensionData) :
  ~ In k (map fst m) -> map_set k v m = m ++ [(k, v)].
Proof.
  induction m as [| [k' v'] rest IH]; simpl; intro H; [reflexivity |].
  destruct (String.eqb k' k) eqn:E.
  - apply String.eqb_eq in E. subst k'. exfalso. apply H. now left.
  - now rewrite IH by (intro Hin; apply H; now right).
Qed.

Lemma map_set_keys (k : string) (v : ExtensionInfo) (m : ExtensionData) (j : string) :
  In j (map fst (map_set k v m)) <-> j = k \/ In j (map fst m).
Proof.
  induction m as [| [k' v'] rest IH]; simpl; [intuition |].
  destruct (String.eqb k' k) eqn:E; simpl.
  - apply String.eqb_eq in E. subst k'. intuition.
  - rewrite IH. intuition.
Qed.

Lemma map_set_NoDup (k : string) (v : ExtensionInfo) (m : ExtensionData) :
  NoDup (map fst m) -> NoDup (map fst (map_set k v m)).
Proof.
  induction m as [| [k' v'] rest IH]; simpl; intro H.
  - constructor; [intros [] | constructor].
  - inversion H as [| x l Hnotin Hnd]; subst.
    destruct (String.eqb k' k) eqn:E; simpl.
    + apply String.eqb_eq in E. subst k'. now constructor.
    + constructor; [| now apply IH].
      rewrite map_set_keys. intros [Hk | Hin]; [| contradiction].
      subst k'. now rewrite String.eqb_refl in E.
Qed.

Lemma process_addon_snd (c : Container) (d : ExtensionData) (a : Addon) :
  snd (process_addon g b (c, d) a)
  = map_set (id a) (mkInfo (id a) (name a) (iconURL a)) d.
Proof. reflexivity. Qed.

Lemma loop_data (exts : list Addon) :
  forall (c : Container) (d : ExtensionData),
    (NoDup (map fst d) ->
     NoDup (map fst (snd (fold_left (process_addon g b) exts (c, d))))) /\
    (forall k, In k (map fst (snd (fold_left (process_addon g b) exts (c, d))))
               <-> In k (map fst d) \/ In k (map id exts)) /\
    (NoDup (map id exts) -> (forall a, In a exts -> ~ In (id a) (map fst d)) ->
     snd (fold_left (process_addon g b) exts (c, d))
     = d ++ map (fun a => (id a, mkInfo (id a) (name a) (iconURL a))) exts).
Proof.
  induction exts as [| a rest IH]; intros c d; cbn [fold_left map].
  - simpl. rewrite app_nil_r. intuition.
  - rewrite process_addon_pair, process_addon_snd.
    destruct (IH (fst (process_addon g b (c, d) a))
                 (map_set (id a) (mkInfo (id a) (name a) (iconURL a)) d))
      as [Hnd [Hkeys Hexact]].
    split; [| split].
    + intro H. now apply Hnd, map_set_NoDup.
    + intro k. rewrite Hkeys, map_set_keys. simpl. intuition.
    + intros Hids Hfresh. inversion Hids as [| x l Hnotin Hids']; subst.
      rewrite Hexact; [| exact Hids' |].
      * rewrite map_set_new by (apply Hfresh; now left).
        now rewrite <- app_assoc.
      * intros a' Ha'. rewrite map_set_keys. intros [Heq | Hin].
        -- apply Hnotin. rewrite <- Heq. now apply in_map.
        -- apply (Hfresh a'); [now right | exact Hin].
Qed.

Lemma processExtensions_snd (c : Container) (exts : list Addon) :
  snd (processExtensions g b c exts) = snd (fold_left (process_addon g b) exts (c, [])).
Proof.
  unfold processExtensions. now destruct (fold_left (process_addon g b) exts (c, [])).
Qed.

(** X4. The [extensionData] map a pass builds has one entry per current
    extension id and no other key; for extensions of distinct ids it lists
    them in the order of the add-on list, each with its id, name and icon
    URL, and nothing of the map of the pass before survives. *)
Theorem pass_extensionData (c : Container) (exts : list Addon) :
  NoDup (map fst (snd (processExtensions g b c exts))) /\
  (forall k, In k (map fst (snd (processExtensions g b c exts))) <-> In k (map id exts)) /\
  (NoDup (map id exts) ->
   snd (processExtensions g b c exts)
   = map (fun a => (id a, mkInfo (id a) (name a) (iconURL a))) exts).
Proof.
  rewrite processExtensions_snd.
  destruct (loop_data exts c []) as [Hnd [Hkeys Hexact]].
  split; [| split].
  - apply Hnd. constructor.
  - intro k. rewrite Hkeys. simpl. intuition.
  - intro Hids. apply Hexact; [exact Hids | intros a _ []].
Qed.

Lemma update_first_app_button (i : string) (f : Image -> Image) (ws : Container) :
  Forall (fun n => data_extension_id n <> None) ws ->
  exists ws',
    update_first i f (ws ++ [AddExtensionButton]) = ws' ++ [AddExtensionButton] /\
    Forall (fun n => data_extension_id n <> None) ws'.
Proof.
  induction 1 as [| n rest Hn Hrest IH]; simpl.
  - exists []. split; [reflexivity | constructor].
  - destruct n as [j img |]; [| now destruct Hn].
    destruct (String.eqb i j).
    + exists (Wrapper j (f img) :: rest). split; [reflexivity |].
      constructor; [discriminate | exact Hrest].
    + destruct IH as [ws' [Heq Hws']]. exists (Wrapper j img :: ws').
      simpl. rewrite Heq. split; [reflexivity |].
      constructor; [discriminate | exact Hws'].
Qed.

Lemma loop_keeps_button (exts : list Addon) :
  forall (ws : Container) (d : ExtensionData),
    Forall (fun n => data_extension_id n <> None) ws ->
    exists ws',
      fst (fold_left (process_addon g b) exts (ws ++ [AddExtensionButton], d))
      = ws' ++ [AddExtensionButton] /\
      Forall (fun n => data_extension_id n <> None) ws'.
Proof.
  induction exts as [| a rest IH]; intros ws d Hws; cbn [fold_left].
  - now exists ws.
  - rewrite process_addon_pair.
    assert (Hstep : exists ws1,
      fst (process_addon g b (ws ++ [AddExtensionButton], d) a)
      = ws1 ++ [AddExtensionButton] /\
      Forall (fun n => data_extension_id n <> None) ws1).
    { unfold process_addon. simpl.
      destruct (querySelector_found (ws ++ [AddExtensionButton]) (id a)); simpl.
      - now apply update_first_app_button.
      - exists (createExtensionWrapper g b a :: ws). split; [reflexivity |].
        constructor; [discriminate | exact Hws]. }
    destruct Hstep as [ws1 [Heq Hws1]]. rewrite Heq. now apply IH.
Qed.

End ReconcilerData.

(** X5. In every container the script has rendered, the add-extension
    button is there exactly once, as the last child, behind the extension
    entries: no pass removes it, duplicates it or puts an entry after it. *)
Theorem rendered_button_last (c : Container) :
  rendered c ->
  exists ws,
    c = ws ++ [AddExtensionButton] /\
    Forall (fun n => data_extension_id n <> None) ws.
Proof.
  induction 1 as [| g0 b0 c addons Hc [ws [Heq Hws]] Hids].
  - exists []. split; [reflexivity | constructor].
  - subst c. unfold reconcile.
    rewrite (processExtensions_fst g0 b0).
    destruct (@loop_keeps_button g0 b0 (userExtensions_of addons) ws [] Hws)
      as [ws' [Hloop Hws']].
    match goal with |- context [removeUninstalledExtensions ?X _] =>
      replace X with (ws' ++ [AddExtensionButton]) by (symmetry; exact Hloop)
    end.
    unfold removeUninstalledExtensions.
    rewrite filter_app. simpl.
    eexists. split; [reflexivity |].
    clear - Hws'. induction Hws' as [| n rest Hn _ IH]; simpl; [constructor |].
    destruct n as [j img |]; [| now destruct Hn]. simpl.
    destruct (negb (truthy j && negb (existsb (String.eqb j)
                                        (map id (userExtensions_of addons)))));
      [constructor; [discriminate | exact IH] | exact IH].
Qed.

(** The sample extensions are add-ons of the host. *)
Lemma sample_have_ids : have_ids [ext_A; ext_B; ext_C].
Proof. intros a [Ha | [Ha | [Ha | []]]]; subst a; discriminate. Defined.

Lemma rendered_button_last_witness :
  exists ws,
    reconcile no_policy no_policy initial_container [ext_A; ext_B; ext_C]
    = ws ++ [AddExtensionButton] /\
    Forall (fun n => data_extension_id n <> None) ws.
Proof.
  exact (rendered_button_last
           (rendered_pass no_policy no_policy rendered_initial sample_have_ids)).
Defined.



(* ================================================================== *)
(** * Further properties of the panel lifecycle *)
(* ================================================================== *)

(** X6. [hidePanel] is idempotent: right after a call, a second call returns
    without changing anything, not even the trace. *)
Theorem hidePanel_idempotent (w : World) :
  hidePanel (exec hidePanel w) = (Ok tt, exec hidePanel w).
Proof.
  destruct w as [m d ls ads als nh pl tr].
  destruct m as [p o ed al ex exm cm cid bp bk la].
  destruct p, o, bp, bk; reflexivity.
Qed.

(** With [#mainPopupSet], [createPanel] leaves a manager that has its panel. *)
Lemma createPanel_with_popupSet (w : World) :
  mainPopupSet (doc w) = true ->
  createPanel w =
  (Ok tt,
   set_trace (trace w ++ [Logged "Context menu created and added to mainPopupSet";
                          Logged "Panel created and added to mainPopupSet"])
     (set_pm (set_panel (Some CONFIG.PANEL_ID) (pm w))
        (set_doc (set_panelDom (Some initial_panel)
                    (set_extrasContextMenu true (set_panelDom None (doc w)))) w))).
Proof.
  intro H. destruct w as [m d ls ads als nh pl tr].
  destruct d as [mps pd ecm xcm ipb]. simpl in H. subst mps.
  unfold createPanel, removeExistingPanel, createContextMenu, modify_doc, modify_pm,
    log, logError, record, modify, bind, get, ret. cbn.
  rewrite <- app_assoc. reflexivity.
Qed.

Section LifecycleMore.

Variable env : Host.

Lemma keeps_open_state_addPanelGlobalHandlers :
  keeps (same_on (fun w => (isOpen (pm w), lastAnchorButton (pm w), panel (pm w))))
        addPanelGlobalHandlers.
Proof.
  unfold addPanelGlobalHandlers, addEventListener. frame.
  all: intros; apply keeps_modify; fr; intro w;
    unfold same_on; destruct (existsb _ _); reflexivity.
Qed.

(** With its panel at hand, [showPanel] marks the panel open at the anchor. *)
Lemma showPanel_marks_open (anchor : Elem) (w : World) :
  panel (pm w) <> None \/ mainPopupSet (doc w) = true ->
  let w' := exec (showPanel env (Some anchor)) w in
  isOpen (pm w') = true /\
  lastAnchorButton (pm w') = Some anchor /\
  panel (pm w') <> None.
Proof.
  intros Hcase w'. subst w'.
  change (wp (showPanel env (Some anchor))
             (fun _ w1 => isOpen (pm w1) = true /\
                          lastAnchorButton (pm w1) = Some anchor /\
                          panel (pm w1) <> None) w).
  unfold showPanel. wp_step. wp_step. wp_step.
  assert (Hfirst : wp (if isSome (panel (pm w)) then ret tt else createPanel)
                      (fun r w1 => exists a, r = Ok a /\ panel (pm w1) <> None) w).
  { destruct (panel (pm w)) as [p |] eqn:Hp; simpl.
    - unfold wp. simpl. exists tt. rewrite Hp. split; [reflexivity | discriminate].
    - destruct Hcase as [Hc | Hc]; [congruence |].
      unfold wp. rewrite (createPanel_with_popupSet w Hc). simpl.
      exists tt. split; [reflexivity | discriminate]. }
  eapply wp_mono; [exact Hfirst |]. cbv beta.
  intros r w1 [a [Hr Hp1]]. subst r. wp_step. wp_step.
  destruct (panel (pm w1)) as [p1 |] eqn:Ep1; [| congruence].
  wp_step.
  apply (@wp_keeps_completes _ (same_on (fun w => panel (pm w))));
    [frame | apply completes_setupAddonListenerIfNeeded |].
  intros _ w2 H2. wp_step.
  apply (@wp_keeps_completes _ (same_on (fun w => panel (pm w))));
    [frame | apply completes_loadExtensions |].
  intros _ w3 H3. wp_step.
  apply (@wp_keeps_completes _ (same_on (fun w => panel (pm w))));
    [frame | apply completes_updateSecurityStatus |].
  intros _ w4 H4. unfold same_on in *.
  unfold emit, modify_pm.
  wp_step. wp_step. wp_step. wp_step. wp_step. wp_step. wp_step.
  eapply wp_keeps; [apply keeps_open_state_addPanelGlobalHandlers |].
  intros r w5 H5. unfold same_on in H5. simpl in H5.
  injection H5 as Ho Hla Hp5.
  assert (Hgoal : isOpen (pm w5) = true /\ lastAnchorButton (pm w5) = Some anchor /\
                  panel (pm w5) <> None).
  { repeat split; try assumption. rewrite Hp5, H4, H3, H2, Ep1. discriminate. }
  destruct r; [| exact Hgoal]. unfold log. wp_step. exact Hgoal.
Qed.

(** X7. [showPanel] with an anchor, when the manager has its panel or
    [#mainPopupSet] is there to build it in, completes with the panel open
    and anchored at that element, and keeps the invariant: exactly the two
    dismissal listeners are on the window. *)
Theorem showPanel_opens (anchor : Elem) (w : World) :
  lifecycle_inv w ->
  panel (pm w) <> None \/ mainPopupSet (doc w) = true ->
  let w' := exec (showPanel env (Some anchor)) w in
  fst (showPanel env (Some anchor) w) = Ok tt /\
  isOpen (pm w') = true /\
  lastAnchorButton (pm w') = Some anchor /\
  panel (pm w') <> None /\
  List.length (dismissal_listeners w') = 2 /\
  lifecycle_inv w'.
Proof.
  intros Hinv Hcase w'.
  destruct (showPanel_spec env (Some anchor) Hinv) as [Hok Hinv'].
  destruct (@showPanel_marks_open anchor w Hcase) as [Ho [Hla Hp]].
  fold w' in Ho, Hla, Hp, Hinv'.
  refine (conj Hok (conj Ho (conj Hla (conj Hp (conj _ Hinv'))))).
  destruct Hinv' as [_ Hi]. rewrite Ho in Hi.
  destruct Hi as [_ [_ [hp [hk [_ [_ Hd]]]]]]. now rewrite Hd.
Qed.

(** X8. [togglePanel] with an anchor flips the panel: it closes an open
    panel and opens a closed one (given the panel or [#mainPopupSet]), so two
    toggles in a row bring a closed panel back to closed with no dismissal
    listener left. *)
Theorem togglePanel_flips (anchor : Elem) (w : World) :
  lifecycle_inv w ->
  panel (pm w) <> None \/ mainPopupSet (doc w) = true ->
  let w1 := exec (togglePanel env (Some anchor)) w in
  let w2 := exec (togglePanel env (Some anchor)) w1 in
  isOpen (pm w1) = negb (isOpen (pm w)) /\
  isOpen (pm w2) = isOpen (pm w) /\
  (isOpen (pm w) = false -> dismissal_listeners w2 = []).
Proof.
  intros Hinv Hcase w1 w2.
  assert (Hstep : forall v, lifecycle_inv v ->
            panel (pm v) <> None \/ mainPopupSet (doc v) = true ->
            isOpen (pm (exec (togglePanel env (Some anchor)) v)) = negb (isOpen (pm v))
            /\ lifecycle_inv (exec (togglePanel env (Some anchor)) v)
            /\ panel (pm (exec (togglePanel env (Some anchor)) v)) <> None).
  { intros v Hv Hc. unfold exec, togglePanel, bind, get. cbn beta iota.
    destruct (isOpen (pm v)) eqn:Eo.
    - destruct (hidePanel_spec Hv) as [_ [Hinv1 [Hclosed [Hp _]]]].
      unfold exec in *. split; [exact Hclosed | split; [exact Hinv1 |]].
      rewrite Hp. destruct Hv as [_ Hv]. rewrite Eo in Hv. apply Hv.
    - destruct (@showPanel_marks_open anchor v Hc) as [Ho [_ Hp]].
      destruct (showPanel_spec env (Some anchor) Hv) as [_ Hinv1].
      unfold exec in *. split; [exact Ho | split; [exact Hinv1 | exact Hp]]. }
  destruct (Hstep w Hinv Hcase) as [H1 [Hinv1 Hp1]]. fold w1 in H1, Hinv1, Hp1.
  destruct (Hstep w1 Hinv1 (or_introl Hp1)) as [H2 [Hinv2 _]]. fold w2 in H2, Hinv2.
  split; [exact H1 | split].
  - rewrite H2, H1. apply negb_involutive.
  - intro Hc. destruct Hinv2 as [_ Hi]. rewrite H2, H1, Hc in Hi. simpl in Hi. apply Hi.
Qed.

End LifecycleMore.

Lemma showPanel_opens_witness :
  isOpen (pm opened_world) = true /\
  List.length (dismissal_listeners opened_world) = 2.
Proof.
  destruct (@showPanel_opens quiet_host CONFIG.BUTTON_ID sample_world
              (lifecycle_inv_initial browser_document [ext_A; ext_B; ext_C])
              (or_intror eq_refl)) as [_ [Ho [_ [_ [Hl _]]]]].
  split; [exact Ho | exact Hl].
Defined.

Lemma togglePanel_flips_witness :
  dismissal_listeners
    (exec (togglePanel quiet_host the_button)
          (exec (togglePanel quiet_host the_button) sample_world)) = [].
Proof.
  destruct (@togglePanel_flips quiet_host CONFIG.BUTTON_ID sample_world
              (lifecycle_inv_initial browser_document [ext_A; ext_B; ext_C])
              (or_intror eq_refl)) as [_ [_ H]].
  exact (H eq_refl).
Defined.


(* ================================================================== *)
(** * Dismissal by the window's listeners *)
(* ================================================================== *)

Lemma filter_filter_implied {A} (f h : A -> bool) (l : list A) :
  (forall x, f x = true -> h x = true) ->
  filter f (filter h l) = filter f l.
Proof.
  intro H. induction l as [| x rest IH]; simpl; [reflexivity |].
  destruct (h x) eqn:Eh; simpl.
  - destruct (f x); now rewrite IH.
  - destruct (f x) eqn:Ef; [| exact IH]. apply H in Ef. congruence.
Qed.

(** With the panel open, the window has one listener of each of the two
    types; with the panel closed it has none. *)
Lemma listeners_of_type (w : World) (t : EventType) :
  lifecycle_inv w ->
  t = PointerDown \/ t = KeyDown ->
  filter (fun l => EventType_eqb (l_type l) t) (listeners w) =
  if isOpen (pm w) then
    match boundOnGlobalPointerDown (pm w), boundOnGlobalKeyDown (pm w) with
    | Some hp, Some hk =>
        match t with
        | PointerDown => [mkListener PointerDown hp true]
        | _ => [mkListener KeyDown hk true]
        end
    | _, _ => []
    end
  else [].
Proof.
  intros [_ Hinv] Ht.
  rewrite <- (@filter_filter_implied _ _
                 (fun l => match l_type l with
                           | PointerDown | KeyDown => true
                           | Unload | DOMContentLoaded => false
                           end)).
  - fold (dismissal_listeners w).
    destruct (isOpen (pm w)).
    + destruct Hinv as [_ [_ [hp [hk [Hbp [Hbk Hd]]]]]]. rewrite Hd, Hbp, Hbk.
      destruct Ht; subst t; reflexivity.
    + destruct Hinv as [_ [_ Hd]]. now rewrite Hd.
  - intros l Hl. destruct Ht; subst t; destruct (l_type l); simpl in *; congruence.
Qed.

Section Dismissal.

Variable env : Host.

(** X9. With the panel open, a pointer-down whose target is neither inside
    the panel nor inside the anchor closes the panel and takes both
    dismissal listeners off; a pointer-down inside the panel or on the anchor
    changes nothing.  The Escape key closes the panel; any other key changes
    nothing.  With the panel closed the window has no listener to call, so
    neither event does anything. *)
Theorem global_dismissal (w : World) (contains : Elem -> bool) (key : string) :
  lifecycle_inv w ->
  (isOpen (pm w) = true ->
   (forall a, lastAnchorButton (pm w) = Some a -> contains a = false) ->
   isOpen (pm (exec (dispatch PointerDown (onGlobalPointerDown false contains)) w))
   = false /\
   dismissal_listeners (exec (dispatch PointerDown (onGlobalPointerDown false contains)) w)
   = []) /\
  exec (dispatch PointerDown (onGlobalPointerDown true contains)) w = w /\
  ((forall a, lastAnchorButton (pm w) = Some a -> contains a = true) ->
   exec (dispatch PointerDown (onGlobalPointerDown false contains)) w = w) /\
  (isOpen (pm w) = true ->
   isOpen (pm (exec (dispatch KeyDown (onGlobalKeyDown "Escape")) w)) = false /\
   dismissal_listeners (exec (dispatch KeyDown (onGlobalKeyDown "Escape")) w) = []) /\
  (key <> "Escape" -> exec (dispatch KeyDown (onGlobalKeyDown key)) w = w) /\
  (isOpen (pm w) = false ->
   exec (dispatch PointerDown (onGlobalPointerDown false contains)) w = w /\
   exec (dispatch KeyDown (onGlobalKeyDown key)) w = w).
Proof.
  intro Hinv.
  pose proof (@listeners_of_type w PointerDown Hinv (or_introl eq_refl)) as Hpd.
  pose proof (@listeners_of_type w KeyDown Hinv (or_intror eq_refl)) as Hkd.
  pose proof (hidePanel_spec Hinv) as [Hhok [Hhinv [Hhclosed _]]].
  assert (Hclosed_ls : dismissal_listeners (exec hidePanel w) = []).
  { destruct Hhinv as [_ Hi]. rewrite Hhclosed in Hi. apply Hi. }
  destruct Hinv as [_ Hinv].
  unfold exec, dispatch, bind, get in *. cbn beta iota.
  rewrite Hpd, Hkd. clear Hpd Hkd.
  destruct (isOpen (pm w)) eqn:Eo.
  - destruct Hinv as [Hp [Hla [hp [hk [Hbp [Hbk Hd]]]]]]. rewrite Hbp, Hbk.
    destruct (panel (pm w)) as [p |] eqn:Ep; [| congruence].
    destruct (lastAnchorButton (pm w)) as [a |] eqn:Ea; [| congruence].
    cbn [forEach]. unfold onGlobalPointerDown, onGlobalKeyDown, try_catch, bind, get, ret.
    cbn beta iota. rewrite Ep, Eo, Ea. cbn [isSome negb orb andb].
    refine (conj _ (conj eq_refl (conj _ (conj _ (conj _ _))))).
    + intros _ Hc. rewrite (Hc a eq_refl). cbn [negb].
      destruct (hidePanel w) as [[[] |] w1]; simpl in *;
        [split; assumption | discriminate].
    + intro Hc. now rewrite (Hc a eq_refl).
    + intros _. rewrite String.eqb_refl.
      destruct (hidePanel w) as [[[] |] w1]; simpl in *;
        [split; assumption | discriminate].
    + intro Hk. apply String.eqb_neq in Hk. now rewrite Hk.
    + discriminate.
  - cbn [forEach]. unfold ret. simpl.
    refine (conj _ (conj eq_refl (conj _ (conj _ (conj _ _)))));
      try discriminate; try reflexivity; intros; split; reflexivity.
Qed.

End Dismissal.

Lemma global_dismissal_witness :
  isOpen (pm (exec (dispatch PointerDown (onGlobalPointerDown false (fun _ => false)))
                   opened_world)) = false.
Proof.
  assert (Hinv : lifecycle_inv opened_world).
  { apply (showPanel_spec quiet_host the_button).
    apply (lifecycle_inv_initial browser_document [ext_A; ext_B; ext_C]). }
  destruct (@global_dismissal opened_world (fun _ => false) "Escape" Hinv)
    as [H _].
  exact (proj1 (H eq_refl (fun _ _ => eq_refl))).
Defined.


(* ================================================================== *)
(** * Invariants over every handler *)
(* ================================================================== *)

Create HintDb handlers.

#[export] Hint Unfold log logError emit call record modify_pm modify_doc
  getCurrentURI set_security_src updateSecurityStatus loadExtensions
  loadExtensions_resume refreshExtensions notifyAddonListeners
  getAddonByID read_isActive host_set_active addon_enable addon_disable
  host_uninstall update_rendered updateExtensionImageState toggleExtensionState
  openExtensionPopup openExtensionsPage ensureExtensionContextMenu
  setupExtensionMenuListeners showExtensionContextMenu hideExtensionContextMenu
  manageExtension pinExtensionToToolbar updateExtensions removeExtension
  reportExtension extensionMenuCommand showExtrasContextMenu clearCache
  clearCookies_primary clearCookies_fallback clearCookies manageExtensions
  showPagePermissions run_action : handlers.

(** [keeps (preserving P) m] for handlers that write nothing [P] reads, but
    for the methods a hint speaks for. *)
Ltac frame_inv :=
  repeat (intros;
    first
      [ solve [auto with frame]
      | apply keeps_ret; fr
      | apply keeps_throw; fr
      | apply keeps_get; fr
      | apply keeps_modify; fr;
        solve [ let w := fresh in let H := fresh in intros w H; exact H ]
      | apply keeps_bind; fr
      | apply keeps_try_catch; fr
      | apply keeps_attempt; fr
      | apply keeps_forEach; fr
      | apply keeps_primary_remove_all;
        [fr | let w := fresh in let e := fresh in let H := fresh in
              intros w e H; exact H]
      | apply keeps_fallback_remove_each;
        [fr | let w := fresh in let e := fresh in let H := fresh in
              intros w e H; exact H]
      | match goal with
        | |- keeps _ (if ?c then _ else _) => destruct c
        | |- keeps _ (match ?x with _ => _ end) => destruct x
        end
      | progress autounfold with handlers ]).

(** A program that keeps what an assertion reads keeps the assertion. *)
Lemma keeps_preserving_of_kept {A} (R : World -> World -> Prop) (P : World -> Prop)
    (m : M A) :
  (forall w w', P w -> R w w' -> P w') -> keeps R m -> keeps (preserving P) m.
Proof. intros H Hk w Hw. eapply H; [exact Hw | apply Hk]. Qed.

Lemma addon_listener_inv_kept (w w' : World) :
  addon_listener_inv w -> same_on addon_listener_view w w' -> addon_listener_inv w'.
Proof.
  unfold addon_listener_inv, same_on, addon_listener_view.
  intros H Hv. injection Hv as Hf Hl. now rewrite Hf, Hl.
Qed.

Section AllHandlers.

Variable env : Host.

Hint Resolve keeps_inv_hidePanel keeps_inv_showPanel : frame.

Lemma keeps_inv_action (a : Action) :
  keeps (preserving lifecycle_inv) (run_action env a).
Proof. destruct a; frame_inv. Qed.

Lemma keeps_inv_extensionMenuCommand (item : MenuItem) :
  keeps (preserving lifecycle_inv) (extensionMenuCommand env item).
Proof. destruct item; frame_inv. Qed.

Lemma keeps_dismissal_other (e : PanelEvent) :
  match e with
  | EvLifecycle _ | EvAction _ | EvMenuCommand _ => True
  | _ => keeps dismissal_kept (panel_step env e)
  end.
Proof. destruct e; try exact I; unfold panel_step; frame. Qed.

(** Every handler keeps the PanelState invariant. *)
Lemma keeps_inv_panel_step (e : PanelEvent) :
  keeps (preserving lifecycle_inv) (panel_step env e).
Proof.
  pose proof (keeps_dismissal_other e) as H.
  destruct e; simpl in H;
    try (apply (@keeps_preserving_of_kept _ dismissal_kept lifecycle_inv);
         [exact lifecycle_inv_kept | exact H]);
    unfold panel_step.
  - apply keeps_inv_lifecycle_step.
  - apply keeps_inv_action.
  - apply keeps_inv_extensionMenuCommand.
Qed.

(** [setupAddonListenerIfNeeded] registers the listener when the field is
    empty and leaves the registration alone otherwise. *)
Lemma keeps_listener_setupAddonListenerIfNeeded :
  keeps (preserving addon_listener_inv) setupAddonListenerIfNeeded.
Proof.
  intros w H. unfold addon_listener_inv in *.
  destruct w as [m d ls ads als nh pl tr].
  destruct m as [p o ed al ex exm cm cid bp bk la].
  simpl in *. subst als. destruct al; reflexivity.
Qed.

Lemma keeps_listener_cleanup : keeps (preserving addon_listener_inv) cleanup.
Proof.
  intros w H. unfold addon_listener_inv in *.
  destruct w as [m d ls ads als nh pl tr].
  destruct m as [p o ed al ex exm cm cid bp bk la].
  destruct d as [mps pd ecm xcm ipb].
  simpl in *. subst als. destruct al, xcm; cbn; rewrite ?Nat.eqb_refl; reflexivity.
Qed.

Lemma cleanup_clears_listener_field (w : World) :
  addonListener (pm (exec cleanup w)) = None.
Proof.
  destruct w as [m d ls ads als nh pl tr].
  destruct m as [p o ed al ex exm cm cid bp bk la].
  destruct d as [mps pd ecm xcm ipb].
  destruct al, xcm; reflexivity.
Qed.

Lemma keeps_listener_view_addPanelGlobalHandlers :
  keeps (same_on addon_listener_view) addPanelGlobalHandlers.
Proof.
  unfold addPanelGlobalHandlers, addEventListener. frame.
  all: intros; apply keeps_modify; fr; intro w;
    unfold same_on; destruct (existsb _ _); reflexivity.
Qed.

Lemma keeps_listener_view_hidePanel : keeps (same_on addon_listener_view) hidePanel.
Proof. frame. Qed.

Lemma keeps_listener_showPanel (targetButton : option Elem) :
  keeps (preserving addon_listener_inv) (showPanel env targetButton).
Proof.
  pose proof keeps_listener_setupAddonListenerIfNeeded as Hsetup.
  pose proof (@keeps_preserving_of_kept _ (same_on addon_listener_view)
                addon_listener_inv addPanelGlobalHandlers addon_listener_inv_kept
                keeps_listener_view_addPanelGlobalHandlers) as Hadd.
  unfold showPanel, createPanel, removeExistingPanel, createContextMenu.
  frame_inv; assumption.
Qed.

Lemma keeps_listener_hidePanel : keeps (preserving addon_listener_inv) hidePanel.
Proof.
  apply (@keeps_preserving_of_kept _ (same_on addon_listener_view) addon_listener_inv);
    [exact addon_listener_inv_kept | exact keeps_listener_view_hidePanel].
Qed.

Lemma keeps_listener_panel_step (e : PanelEvent) :
  keeps (preserving addon_listener_inv) (panel_step env e).
Proof.
  pose proof keeps_listener_hidePanel as Hhide.
  pose proof keeps_listener_showPanel as Hshow.
  pose proof keeps_listener_cleanup as Hclean.
  destruct e as [e | a | i | item | | | what |]; unfold panel_step.
  - destruct e; unfold lifecycle_step, togglePanel, dispatch, onGlobalPointerDown,
      onGlobalKeyDown; frame_inv; auto.
  - apply (@keeps_preserving_of_kept _ (same_on addon_listener_view) addon_listener_inv);
      [exact addon_listener_inv_kept |].
    destruct a; frame;
      solve [ apply keeps_primary_remove_all; [typeclasses eauto | frame_side]
            | apply keeps_fallback_remove_each; [typeclasses eauto | frame_side] ].
  - apply (@keeps_preserving_of_kept _ (same_on addon_listener_view) addon_listener_inv);
      [exact addon_listener_inv_kept |]. frame.
  - apply (@keeps_preserving_of_kept _ (same_on addon_listener_view) addon_listener_inv);
      [exact addon_listener_inv_kept |]. destruct item; frame.
  - apply (@keeps_preserving_of_kept _ (same_on addon_listener_view) addon_listener_inv);
      [exact addon_listener_inv_kept |]. frame.
  - apply (@keeps_preserving_of_kept _ (same_on addon_listener_view) addon_listener_inv);
      [exact addon_listener_inv_kept |]. frame.
  - apply (@keeps_preserving_of_kept _ (same_on addon_listener_view) addon_listener_inv);
      [exact addon_listener_inv_kept |]. frame.
  - exact Hclean.
Qed.

End AllHandlers.

Lemma run_panel_inv (events : list (Host * PanelEvent)) :
  forall w,
    lifecycle_inv w /\ addon_listener_inv w ->
    lifecycle_inv (run_panel events w) /\ addon_listener_inv (run_panel events w).
Proof.
  induction events as [| [env e] rest IH]; intros w [H1 H2]; simpl; [now split |].
  apply IH. split.
  - now apply (keeps_inv_panel_step env e).
  - now apply (keeps_listener_panel_step env e).
Qed.

(** X10. Whatever handlers run, in whatever order and with whatever host
    answers (lifecycle calls, window events, actions, menu commands, add-on
    notifications, the add-on list arriving, the unload cleanup), the window
    has no dismissal listener while the panel is closed and exactly the
    pointer-down and the key-down listener while it is open. *)
Theorem dismissal_listeners_balanced_everywhere
    (d : Document) (installed : list Addon) (events : list (Host * PanelEvent)) :
  let w := run_panel events (initial_world d installed) in
  (isOpen (pm w) = false -> dismissal_listeners w = []) /\
  (isOpen (pm w) = true ->
   panel (pm w) <> None /\ lastAnchorButton (pm w) <> None /\
   exists hp hk,
     boundOnGlobalPointerDown (pm w) = Some hp /\
     boundOnGlobalKeyDown (pm w) = Some hk /\
     dismissal_listeners w = [mkListener PointerDown hp true;
                              mkListener KeyDown hk true]).
Proof.
  intro w.
  destruct (@run_panel_inv events (initial_world d installed)) as [[_ Hinv] _].
  { split; [apply lifecycle_inv_initial | reflexivity]. }
  fold w in Hinv. destruct (isOpen (pm w)); split; intro H; try discriminate.
  - exact Hinv.
  - apply Hinv.
Qed.

(** X11. Whatever handlers run, the manager's add-on listener is registered
    with AddonManager at most once: the list of registered listeners is
    empty while the manager's field is null and holds exactly that one
    listener otherwise, and it is empty again after the unload cleanup. *)
Theorem addon_listener_registered_once
    (d : Document) (installed : list Addon) (events : list (Host * PanelEvent)) :
  let w := run_panel events (initial_world d installed) in
  addonListeners w = match addonListener (pm w) with
                     | Some h => [h]
                     | None => []
                     end /\
  List.length (addonListeners w) <= 1 /\
  addonListeners (exec onUnload w) = [].
Proof.
  intro w.
  destruct (@run_panel_inv events (initial_world d installed)) as [_ Hinv].
  { split; [apply lifecycle_inv_initial | reflexivity]. }
  fold w in Hinv. unfold addon_listener_inv in Hinv.
  split; [exact Hinv | split].
  - rewrite Hinv. destruct (addonListener (pm w)); simpl; lia.
  - assert (H : addon_listener_inv (exec cleanup w))
      by (now apply keeps_listener_cleanup).
    unfold addon_listener_inv in H. unfold onUnload.
    rewrite H. now rewrite cleanup_clears_listener_field.
Qed.


(* ================================================================== *)
(** * Add-on notifications, panel rebuild, the extension menu *)
(* ================================================================== *)

Section Notifications.

Variable env : Host.

Lemma notify_closed_one (what : string) (w : World) :
  isOpen (pm w) = false ->
  (log ("Extension " ++ what) ;; refreshExtensions env) w
  = (Ok tt, set_trace (trace w ++ [Logged ("Extension " ++ what)]) w).
Proof.
  intro Hc. unfold log, record, modify, refreshExtensions, bind, get, ret.
  cbn [fst snd pm set_trace]. now rewrite Hc.
Qed.

Lemma notify_closed_loop (what : string) (l : list Handle) :
  forall w,
    isOpen (pm w) = false ->
    exists t,
      forEach (fun _ => log ("Extension " ++ what) ;; refreshExtensions env) l w
      = (Ok tt, set_trace (trace w ++ t) w) /\
      Forall (fun e => exists s, e = Logged s) t.
Proof.
  induction l as [| h rest IH]; intros w Hc; cbn [forEach].
  - exists []. rewrite app_nil_r. split; [destruct w; reflexivity | constructor].
  - unfold bind at 1. rewrite (notify_closed_one what w Hc).
    destruct (IH (set_trace (trace w ++ [Logged ("Extension " ++ what)]) w) Hc)
      as [t [Heq Hall]].
    rewrite Heq. eexists. cbn [trace set_trace].
    rewrite <- app_assoc. split; [reflexivity |].
    constructor; [eauto | exact Hall].
Qed.

(** X12. An add-on change reported while the panel is closed only logs: no
    host call is made, no load is started, and nothing of the manager, the
    document or the add-ons changes.  Reported while the panel is open, with
    the manager's listener registered and the add-on query not throwing, it
    starts exactly one load. *)
Theorem addon_change_notification (what : string) (w : World) :
  let w' := exec (notifyAddonListeners env what) w in
  (isOpen (pm w) = false ->
   fst (notifyAddonListeners env what w) = Ok tt /\
   state_view w' = state_view w /\
   pendingLoads w' = pendingLoads w /\
   count_called (fun _ => true) (added_effects w w') = 0) /\
  (isOpen (pm w) = true ->
   addon_listener_inv w -> addonListener (pm w) <> None ->
   throws env GetAddonsByTypes = false ->
   pendingLoads w' = S (pendingLoads w) /\ state_view w' = state_view w).
Proof.
  intro w'. subst w'. split.
  - intro Hc.
    assert (Hn : notifyAddonListeners env what w =
                 forEach (fun _ => log ("Extension " ++ what) ;; refreshExtensions env)
                         (addonListeners w) w) by reflexivity.
    destruct (notify_closed_loop what (addonListeners w) w Hc) as [t [Heq Hall]].
    unfold exec. rewrite Hn, Heq. cbn [fst snd].
    refine (conj eq_refl (conj eq_refl (conj eq_refl _))).
    unfold added_effects. cbn [trace set_trace]. rewrite skipn_length_app.
    apply count_called_none. unfold silent.
    eapply Forall_impl; [| exact Hall]. intros e [s He]. subst e. exact I.
  - intros Ho Hinv Hl Ht. unfold addon_listener_inv in Hinv.
    destruct (addonListener (pm w)) as [h |]; [| congruence].
    unfold exec, notifyAddonListeners, bind, get. cbn beta iota. rewrite Hinv.
    cbn [forEach]. unfold refreshExtensions, loadExtensions, log, logError, call,
      record, modify, try_catch, bind, get, ret, throw.
    cbn [fst snd pm set_trace]. rewrite Ho. cbn. rewrite Ht. cbn. split; reflexivity.
Qed.

End Notifications.


(** X13. [createPanel] rebuilds from scratch: with [#mainPopupSet] the panel
    markup is the fresh one whatever was rendered before, the extras menu is
    there, the manager has its panel, and a second call gives the same state
    again; without [#mainPopupSet] the old markup and the extras menu are
    gone and the manager's reference is what it was.  Neither touches the
    dismissal listeners. *)
Theorem createPanel_rebuilds (w : World) :
  let w' := exec createPanel w in
  fst (createPanel w) = Ok tt /\
  dismissal_view w' = dismissal_view w /\
  (mainPopupSet (doc w) = true ->
   panelDom (doc w') = Some initial_panel /\
   extrasContextMenu (doc w') = true /\
   panel (pm w') = Some CONFIG.PANEL_ID /\
   state_view (exec createPanel w') = state_view w') /\
  (mainPopupSet (doc w) = false ->
   panelDom (doc w') = None /\
   extrasContextMenu (doc w') = false /\
   panel (pm w') = panel (pm w)).
Proof.
  intro w'. subst w'. unfold exec.
  destruct (mainPopupSet (doc w)) eqn:E.
  - rewrite (createPanel_with_popupSet w E). cbn [fst snd].
    match goal with |- context [createPanel ?v] =>
      assert (E1 : mainPopupSet (doc v) = true) by exact E;
      rewrite (createPanel_with_popupSet v E1)
    end.
    cbn [fst snd].
    refine (conj eq_refl (conj eq_refl (conj (fun _ => _) (fun H => _))));
      [| discriminate].
    refine (conj eq_refl (conj eq_refl (conj eq_refl _))).
    destruct w as [m d ls ads als nh pl tr]. destruct d as [mps pd ecm xcm ipb].
    reflexivity.
  - rewrite (createPanel_without_popupSet w E). cbn [fst snd].
    refine (conj eq_refl (conj eq_refl (conj (fun H => _) (fun _ => _))));
      [discriminate |].
    refine (conj eq_refl (conj eq_refl eq_refl)).
Qed.

Section ExtensionMenuMore.

Variable env : Host.

(** X14. Without [#mainPopupSet] a right click on an entry logs an error and
    changes nothing: no menu is created, no id is tracked, no popup call is
    made.  With it, the menu exists afterwards and the document is otherwise
    untouched (an existing menu is reused, not created again), the listener
    flag is set, and when the popup call returns the menu is tracked as
    open. *)
Theorem showExtensionContextMenu_ensures (extensionId : string) (w : World) :
  let w' := exec (showExtensionContextMenu env extensionId) w in
  fst (showExtensionContextMenu env extensionId w) = Ok tt /\
  (mainPopupSet (doc w) = false ->
   state_view w' = state_view w /\
   count_called (fun _ => true) (added_effects w w') = 0) /\
  (mainPopupSet (doc w) = true ->
   doc w' = set_extensionContextMenu true (doc w) /\
   extensionMenuListenersSetup (pm w') = true /\
   (throws env ExtensionMenuOpenPopup = false ->
    currentContextMenu (pm w') = Some "extension-context-menu")).
Proof.
  destruct w as [m d ls ads als nh pl tr].
  destruct m as [p o ed al ex exm cm cid bp bk la].
  destruct d as [mps pd ecm xcm ipb].
  run_methods. unfold added_effects.
  destruct mps; cbn.
  - destruct xcm, exm; cbn; destruct (throws env ExtensionMenuOpenPopup); cbn;
      repeat split; try reflexivity; discriminate.
  - rewrite skipn_length_app. repeat split; try reflexivity; discriminate.
Qed.

End ExtensionMenuMore.

(* ================================================================== *)
(** * Exceptions, reloads and the first load *)
(* ================================================================== *)


Section NeverThrow.

Variable env : Host.




End NeverThrow.


(** Every effect of a short trace is one of those allowed. *)
Ltac effects_among :=
  repeat first [apply Forall_nil | apply Forall_cons];
  solve [exact I | now left | now right].

(** X16. Without a page host ([gBrowser.currentURI] is null, its host is
    empty, or reading it throws), [clearCookies] touches no cookie and does
    not reload the page: the only host calls are the read of the URI and the
    closing of the panel, which it still does. *)
Theorem clearCookies_without_host (env : Host) (w : World) :
  throws env GetCurrentURI = true
  \/ match currentURI env with
     | Some u => truthy (host u) = false
     | None => True
     end ->
  let w' := exec (clearCookies env) w in
  fst (clearCookies env w) = Ok tt /\
  Forall (fun e => match e with
                   | Called c => c = GetCurrentURI \/ c = PanelHidePopup
                   | _ => True
                   end) (added_effects w w') /\
  (panel_known w -> isOpen (pm w') = false).
Proof.
  intros Hcase w'.
  split; [destruct (completes_clearCookies env w) as [[] H]; exact H |].
  split; [| intro Hw; now apply closes_clearCookies].
  subst w'.
  change (wp (clearCookies env)
            (fun _ w' =>
               Forall (fun e => match e with
                                | Called c => c = GetCurrentURI \/ c = PanelHidePopup
                                | _ => True
                                end) (added_effects w w')) w).
  unfold clearCookies. wp_step. unfold log at 1. wp_step. wp_step. wp_step.
  wp_step. unfold getCurrentURI. wp_step.
  apply wp_call; intros Hget.
  - destruct Hcase as [Hc | Hc]; [congruence |].
    wp_step. destruct (currentURI env) as [u |]; cbv iota.
    + rewrite Hc. wp_step. hide_leaf; effects_among.
    + wp_step. hide_leaf; effects_among.
  - unfold logError. wp_step. hide_leaf; effects_among.
Qed.

Lemma clearCookies_without_host_witness :
  fst (clearCookies blank_page_host opened_world) = Ok tt /\
  count_called HostCall_is_reload
    (added_effects opened_world (exec (clearCookies blank_page_host) opened_world)) = 0.
Proof.
  destruct (@clearCookies_without_host blank_page_host opened_world
              (or_intror eq_refl)) as [Hok _].
  split; [exact Hok | reflexivity].
Defined.

Section OpenAndLoad.

Variable env : Host.

Lemma keeps_load_view_setupAddonListenerIfNeeded :
  keeps (same_on load_view) setupAddonListenerIfNeeded.
Proof. frame. Qed.

Lemma keeps_load_view_updateSecurityStatus :
  keeps (same_on load_view) (updateSecurityStatus env).
Proof.
  frame.
  all: intros; apply keeps_modify; fr; intro w; unfold same_on, load_view,
    rendered_container; destruct (panelDom (doc w)) eqn:E; cbn; rewrite ?E; reflexivity.
Qed.

Lemma keeps_load_view_addPanelGlobalHandlers :
  keeps (same_on load_view) addPanelGlobalHandlers.
Proof.
  unfold addPanelGlobalHandlers, addEventListener. frame.
  all: intros; apply keeps_modify; fr; intro w;
    unfold same_on; destruct (existsb _ _); reflexivity.
Qed.

(** [loadExtensions], when the request does not throw, leaves one more load
    pending and nothing else changed. *)
Lemma loadExtensions_pending (w : World) :
  throws env GetAddonsByTypes = false ->
  fst (loadExtensions env w) = Ok tt /\
  load_view (exec (loadExtensions env) w)
  = (rendered_container w, addons w, S (pendingLoads w)).
Proof.
  intro Ht. unfold exec, loadExtensions, try_catch, call, log, logError, record,
    modify, bind, ret, throw. cbn. rewrite Ht. cbn. split; reflexivity.
Qed.

(** The rest of [loadExtensions] on a rendered panel: one load less is
    pending, and the container and the map are those of the pass. *)
Lemma loadExtensions_resume_pass (w : World) (c : Container) (n : nat) :
  rendered_container w = Some c ->
  pendingLoads w = S n ->
  let w' := exec (loadExtensions_resume env) w in
  pendingLoads w' = n /\
  rendered_container w' = Some (reconcile (getByID env) (browserActionFor env) c (addons w)) /\
  extensionData (pm w')
  = snd (processExtensions (getByID env) (browserActionFor env) c
                           (userExtensions_of (addons w))).
Proof.
  intros Hc Hp. unfold rendered_container in Hc.
  destruct (panelDom (doc w)) as [p |] eqn:Ep; [| discriminate].
  injection Hc as Hc.
  unfold exec, loadExtensions_resume, bind, get. cbn beta iota. rewrite Hp, Ep.
  unfold reconcile. rewrite Hc.
  destruct (processExtensions (getByID env) (browserActionFor env) c
              (userExtensions_of (addons w))) as [c' data].
  split; [| split]; reflexivity.
Qed.

(** X17. The first [showPanel] with an anchor, on a window with
    [#mainPopupSet] where the add-on query does not throw, builds the panel
    with the add-extension button alone and leaves one load pending; when the
    add-on list arrives, the container is the result of one reconciliation
    pass over the host's non-system add-ons from that markup, and
    [extensionData] is the map of that pass. *)
Theorem open_panel_lists_extensions (anchor : Elem) (w : World) :
  panel (pm w) = None ->
  mainPopupSet (doc w) = true ->
  throws env GetAddonsByTypes = false ->
  let w1 := exec (showPanel env (Some anchor)) w in
  let w2 := exec (loadExtensions_resume env) w1 in
  pendingLoads w1 = S (pendingLoads w) /\
  rendered_container w1 = Some initial_container /\
  pendingLoads w2 = pendingLoads w /\
  rendered_container w2
  = Some (reconcile (getByID env) (browserActionFor env) initial_container (addons w)) /\
  extensionData (pm w2)
  = snd (processExtensions (getByID env) (browserActionFor env) initial_container
                           (userExtensions_of (addons w))).
Proof.
  intros Hp Hm Ht w1 w2.
  assert (H1 : load_view w1 = (Some initial_container, addons w, S (pendingLoads w))).
  { subst w1.
    change (wp (showPanel env (Some anchor))
               (fun _ v => load_view v
                           = (Some initial_container, addons w, S (pendingLoads w))) w).
    unfold showPanel. wp_step. wp_step. wp_step. rewrite Hp. cbn [isSome].
    eapply wp_eq; [apply (createPanel_with_popupSet w Hm) |]. cbv iota.
    wp_step. wp_step. cbn [pm set_trace set_pm set_panel panel].
    wp_step.
    apply (@wp_keeps_completes _ (same_on load_view));
      [apply keeps_load_view_setupAddonListenerIfNeeded
      | apply completes_setupAddonListenerIfNeeded |].
    intros _ v2 H2. wp_step.
    destruct (loadExtensions_pending v2 Ht) as [Hok Hload].
    apply (@wp_of_facts _ (loadExtensions env) tt
             (fun v => load_view v
                       = (rendered_container v2, addons v2, S (pendingLoads v2)))
             _ v2 Hok Hload).
    intros v3 H3. cbv beta iota. wp_step.
    apply (@wp_keeps_completes _ (same_on load_view));
      [apply keeps_load_view_updateSecurityStatus
      | apply completes_updateSecurityStatus |].
    intros _ v4 H4.
    unfold emit, modify_pm.
    wp_step. wp_step. wp_step. wp_step. wp_step. wp_step. wp_step.
    eapply wp_keeps; [apply keeps_load_view_addPanelGlobalHandlers |].
    intros r v5 H5. unfold same_on in *.
    assert (Hgoal : load_view v5
                    = (Some initial_container, addons w, S (pendingLoads w))).
    { rewrite H5. change (load_view v4 = (Some initial_container, addons w,
                                          S (pendingLoads w))).
      rewrite H4, H3.
      unfold load_view in H2. injection H2 as Hc2 Ha2 Hp2.
      rewrite Hc2, Ha2, Hp2. destruct w as [m d ls ads als nh pl tr].
      destruct d as [mps pd ecm xcm ipb]. reflexivity. }
    destruct r; [| exact Hgoal]. unfold log. wp_step. exact Hgoal. }
  unfold load_view in H1. injection H1 as Hc1 Ha1 Hp1.
  destruct (@loadExtensions_resume_pass w1 initial_container (pendingLoads w) Hc1 Hp1)
    as [Hp2 [Hc2 Hd2]].
  fold w2 in Hp2, Hc2, Hd2. rewrite Ha1 in Hc2, Hd2.
  refine (conj Hp1 (conj Hc1 (conj Hp2 (conj Hc2 Hd2)))).
Qed.

End OpenAndLoad.

Lemma open_panel_lists_extensions_witness :
  rendered_container listed_world
  = Some (reconcile no_policy no_policy initial_container [ext_A; ext_B; ext_C]).
Proof.
  exact (proj1 (proj2 (proj2 (proj2
           (@open_panel_lists_extensions quiet_host CONFIG.BUTTON_ID sample_world
              eq_refl eq_refl eq_refl))))).
Defined.

(** X18. [clearCache] completes and closes the panel in every case; the
    page is reloaded, once, exactly when the current URI is there and neither
    reading it, nor the purge notification, nor (with [Services.cache2]) the
    cache clear throws: an exception before the reload skips it. *)
Theorem clearCache_reload (env : Host) (w : World) :
  let w' := exec (clearCache env) w in
  let added := added_effects w w' in
  fst (clearCache env w) = Ok tt /\
  count_called HostCall_is_reload added =
  (if negb (throws env GetCurrentURI) && isSome (currentURI env)
      && negb (throws env NotifyPurgeSessionHistory)
      && negb (hasCache2 env && throws env CacheClear)
   then 1 else 0) /\
  (panel_known w -> isOpen (pm w') = false).
Proof.
  intros w' added.
  assert (Hc : completes (clearCache env)) by total.
  split; [destruct (Hc w) as [[] H]; exact H |].
  split; [| intro Hw; now apply closes_clearCache].
  subst added w'.
  change (wp (clearCache env)
            (fun _ w' =>
               count_called HostCall_is_reload (added_effects w w') =
               (if negb (throws env GetCurrentURI) && isSome (currentURI env)
                   && negb (throws env NotifyPurgeSessionHistory)
                   && negb (hasCache2 env && throws env CacheClear)
                then 1 else 0)) w).
  unfold clearCache. wp_step. unfold log at 1. wp_step. wp_step. wp_step.
  wp_step. unfold getCurrentURI. wp_step.
  apply wp_call; intros Hget; rewrite Hget; cbn [negb andb];
    [| unfold logError; wp_step; hide_leaf; count_trace].
  wp_step. destruct (currentURI env) as [u |]; cbv iota; cbn [isSome andb];
    [| wp_step; hide_leaf; count_trace].
  wp_step.
  apply wp_call; intros Hn; rewrite Hn; cbn [negb andb]; cbv iota;
    [| unfold logError; wp_step; hide_leaf; count_trace].
  wp_step.
  destruct (hasCache2 env); cbn [andb].
  - apply wp_call; intros Hcc; rewrite Hcc; cbn [negb]; cbv iota;
      [| unfold logError; wp_step; hide_leaf; count_trace].
    wp_step. unfold log at 1. wp_step.
    apply wp_call; intros _; cbv iota;
      [| unfold logError; wp_step]; hide_leaf; count_trace.
  - wp_step. wp_step. unfold log at 1. wp_step.
    apply wp_call; intros _; cbv iota;
      [| unfold logError; wp_step]; hide_leaf; count_trace.
Qed.

(* ================================================================== *)
(** * Injection of the toolbar button *)
(* ================================================================== *)

Lemma onDOMContentLoaded_modified (n : nat) (p : PageActionButtons) (k : nat) :
  data_urlbar_modified p = true ->
  onDOMContentLoaded n (Some p) k = (Some p, k).
Proof.
  intro H. induction n as [| n IH]; simpl; [reflexivity |]. now rewrite H.
Qed.

(** X19. However often [DOMContentLoaded] reaches the window, an unmodified
    [#page-action-buttons] gets the button appended once, behind its other
    children, and one click listener; a window without the container gets
    nothing. *)
Theorem setupPageActionButton_once (n : nat) (p : PageActionButtons) (k : nat) :
  data_urlbar_modified p = false ->
  onDOMContentLoaded (S n) (Some p) k
  = (Some {| data_urlbar_modified := true;
             children := children p ++ [CONFIG.BUTTON_ID] |}, S k) /\
  onDOMContentLoaded n None k = (None, k).
Proof.
  intro H. split.
  - cbn [onDOMContentLoaded setupPageActionButton]. rewrite H.
    now apply onDOMContentLoaded_modified.
  - induction n as [| n IH]; simpl; [reflexivity | exact IH].
Qed.

Lemma setupPageActionButton_once_witness :
  onDOMContentLoaded 3 (Some (mkPageActionButtons false ["reader-mode-button"])) 0
  = (Some (mkPageActionButtons true ["reader-mode-button"; "page-controls-button"]), 1).
Proof.
  exact (proj1 (@setupPageActionButton_once 2
                  (mkPageActionButtons false ["reader-mode-button"]) 0 eq_refl)).
Defined.
